(** * PARAM comms utilities: a shallow embedding of [train/comms/pt/comms_utils.py]

    The Python module is embedded function by function.  Python [int] is [Z],
    Python [float] is the kernel's binary64 [float], a Python [str] is its
    sequence of Unicode code points, and code that can raise, exit the process,
    log or allocate runs in a small state-and-outcome monad whose state carries
    the object heap and the trace of log records and backend allocations. *)

From Stdlib Require Import ZArith NArith List Bool String Ascii Lia.
From Stdlib Require Import PrimFloat SpecFloat FloatOps FloatAxioms.
From Equations Require Import Equations.
From Equations.Prop Require Import Logic.
Import ListNotations.

Local Open Scope Z_scope.

(** ** Python strings *)

(** A [str] is a sequence of code points. *)
Definition pystr : Type := list N.

Definition str (s : string) : pystr := map N_of_ascii (list_ascii_of_string s).

Fixpoint pystr_eqb (a b : pystr) : bool :=
  match a, b with
  | [], [] => true
  | x :: a', y :: b' => N.eqb x y && pystr_eqb a' b'
  | _, _ => false
  end.

(** [x in (a, b, ...)] and [x in keys] on strings. *)
Definition str_in (x : pystr) (l : list pystr) : bool := existsb (pystr_eqb x) l.

(** [d.get(k)] on a dict with string keys, kept as an association list in
    insertion order. *)
Fixpoint dict_get {V : Type} (d : list (pystr * V)) (k : pystr) : option V :=
  match d with
  | [] => None
  | (k', v) :: d' => if pystr_eqb k k' then Some v else dict_get d' k
  end.

(** What [str.lower] and [str.isalpha] do on the ASCII range. *)
Definition is_ascii (c : N) : Prop := (c < 128)%N.

Definition ascii_lower (c : N) : N :=
  if ((65 <=? c) && (c <=? 90))%N then (c + 32)%N else c.

Definition ascii_isalpha (c : N) : bool :=
  (((65 <=? c) && (c <=? 90)) || ((97 <=? c) && (c <=? 122)))%N.

(** ** Python numbers *)

(** [float(n)] for an [int]: rounded to nearest, ties to even; [None] stands
    for [OverflowError] ("int too large to convert to float"). *)
Definition float_of_int (n : Z) : option float :=
  match binary_normalize prec emax n 0 false with
  | S754_infinity _ => None
  | sf => Some (SF2Prim sf)
  end.

(** ** Torch values *)

Inductive torch_dtype : Type :=
| torch_float32 | torch_int32 | torch_long | torch_half
| torch_bfloat16 | torch_double | torch_bool | torch_uint8.

Definition dtype_eqb (a b : torch_dtype) : bool :=
  match a, b with
  | torch_float32, torch_float32 | torch_int32, torch_int32
  | torch_long, torch_long | torch_half, torch_half
  | torch_bfloat16, torch_bfloat16 | torch_double, torch_double
  | torch_bool, torch_bool | torch_uint8, torch_uint8 => true
  | _, _ => false
  end.

(** One element of a tensor, as [.item()] hands it to Python. *)
Inductive scalar : Type :=
| ScalarInt (z : Z)
| ScalarFloat (f : float)
| ScalarBool (b : bool).

(** A one-dimensional tensor seen by value (what [dcheck] reads). *)
Record Tensor : Type := { t_dtype : torch_dtype; t_data : list scalar }.

(** The [tensor] argument of [dcheck]: a tensor or a Python list of tensors. *)
Inductive tensor_arg : Type :=
| ATensor (t : Tensor)
| AList (ts : list Tensor).

(** The [sizeArr] argument of the allocators: [[n]] or a bare [n]. *)
Inductive sizeArr : Type :=
| SizeList (n : Z)
| SizeInt (n : Z).

(** ** Messages, exceptions, events *)

(** The f-strings of the module, kept as their format and their arguments. *)
Inductive message : Type :=
| msg_exit_status (n : Z)
| msg_not_supported_comm (name : pystr) (supported_comms : list pystr)
| msg_quant_collective_unsupported (collective : pystr)
| msg_quant_must_be_synchronous
| msg_quant_dtype_unsupported (dt : torch_dtype)
| msg_begin_size_multiple (beginSize quant_a2a_embedding_dim : Z)
| msg_max_iters (numIters maxIters : Z)
| msg_busbw_unsupported (collective : pystr)
| msg_wrong_value (curSize : Z) (collective : pystr) (rank : option nat)
    (index : nat) (actual : scalar) (expected : Z) (shown : tensor_arg).

Inductive exn : Type :=
| ZeroDivisionError
| OverflowError
| AttributeError
| RuntimeError
| NotImplementedError (m : message)
| ValueError (m : message).

(** The argument of [sys.exit]: a status or a message. *)
Inductive exit_arg : Type :=
| ExitCode (n : Z)
| ExitMsg (m : message).

Inductive event : Type :=
| LogError (m : message)
| LogWarning (m : message)
| AllocOnes (size : sizeArr) (curRankDevice : pystr) (dt : torch_dtype) (scaleFactor : Z)
| AllocRandom (size : sizeArr) (curRankDevice : pystr) (dt : torch_dtype) (scaleFactor : Z)
| AllocEmpty (size : sizeArr) (dt : torch_dtype) (curRankDevice : pystr).

Definition is_alloc (e : event) : bool :=
  match e with
  | AllocOnes _ _ _ _ | AllocRandom _ _ _ _ | AllocEmpty _ _ _ => true
  | LogError _ | LogWarning _ => false
  end.

(** The buffer allocations of a trace, in order. *)
Definition allocs (tr : list event) : list event := filter is_alloc tr.

(** ** The object heap *)

(** Buffers and Python lists are objects with identity: a location is an index
    in the heap, and two names are the same object when they hold the same
    location. *)
Definition loc : Type := nat.

Inductive object : Type :=
| OTensor (origin : event)
| OList (items : list loc).

Record state : Type := {
  heap : list object;
  trace : list event;
  (* collectiveArgs.ipTensor_split, collectiveArgs.opTensor_split *)
  ipTensor_split : list Z;
  opTensor_split : list Z
}.

(** ** Outcomes and the monad *)

Inductive outcome (A : Type) : Type :=
| Ret (a : A)
| Raise (e : exn)
| Exit (a : exit_arg).
Arguments Ret {A} a.
Arguments Raise {A} e.
Arguments Exit {A} a.

Definition M (A : Type) : Type := state -> outcome A * state.

Definition ret {A} (a : A) : M A := fun s => (Ret a, s).

Definition bind {A B} (m : M A) (k : A -> M B) : M B :=
  fun s =>
    match m s with
    | (Ret a, s') => k a s'
    | (Raise e, s') => (Raise e, s')
    | (Exit a, s') => (Exit a, s')
    end.

Definition raise {A} (e : exn) : M A := fun s => (Raise e, s).

Definition sys_exit {A} (a : exit_arg) : M A := fun s => (Exit a, s).

Declare Scope py_scope.
Delimit Scope py_scope with py.
Notation "x <- m ;; k" := (bind m (fun x => k))
  (at level 100, m at next level, right associativity) : py_scope.
Notation "m ;;; k" := (bind m (fun _ => k))
  (at level 100, right associativity) : py_scope.
Local Open Scope py_scope.

Definition emit (e : event) : M unit :=
  fun s => (Ret tt, {| heap := heap s; trace := trace s ++ [e];
                       ipTensor_split := ipTensor_split s;
                       opTensor_split := opTensor_split s |}).

Definition new_object (o : object) : M loc :=
  fun s => (Ret (List.length (heap s)),
            {| heap := heap s ++ [o]; trace := trace s;
               ipTensor_split := ipTensor_split s;
               opTensor_split := opTensor_split s |}).

(** [[]]: a fresh, empty list object. *)
Definition new_list : M loc := new_object (OList []).

Fixpoint heap_set (h : list object) (l : loc) (o : object) : list object :=
  match h, l with
  | [], _ => []
  | _ :: h', O => o :: h'
  | x :: h', S l' => x :: heap_set h' l' o
  end.

(** [l.append(x)]; calling it on anything but a list is an [AttributeError]. *)
Definition list_append (l x : loc) : M unit :=
  fun s =>
    match nth_error (heap s) l with
    | Some (OList items) =>
        (Ret tt, {| heap := heap_set (heap s) l (OList (items ++ [x]));
                    trace := trace s;
                    ipTensor_split := ipTensor_split s;
                    opTensor_split := opTensor_split s |})
    | _ => (Raise AttributeError, s)
    end.

Definition set_opTensor_split (v : list Z) : M unit :=
  fun s => (Ret tt, {| heap := heap s; trace := trace s;
                       ipTensor_split := ipTensor_split s;
                       opTensor_split := v |}).

Definition set_ipTensor_split (v : list Z) : M unit :=
  fun s => (Ret tt, {| heap := heap s; trace := trace s;
                       ipTensor_split := v;
                       opTensor_split := opTensor_split s |}).

(** [a // b] and [a % b] on [int]: floor division, the sign of the divisor. *)
Definition py_floordiv (a b : Z) : M Z :=
  if b =? 0 then raise ZeroDivisionError else ret (a / b).

Definition py_mod (a b : Z) : M Z :=
  if b =? 0 then raise ZeroDivisionError else ret (a mod b).

(** [for _ in range(n): body]. *)
Fixpoint for_range (n : nat) (body : M unit) : M unit :=
  match n with
  | O => ret tt
  | S n' => body ;;; for_range n' body
  end.

Definition range_len (n : Z) : nat := Z.to_nat n.

(** ** gracefulExit (lines 39-52) *)

Definition gracefulExit {A} (args : exit_arg) : M A :=
  (match args with
   | ExitCode 0 => ret tt
   | ExitCode n => emit (LogError (msg_exit_status n))
   | ExitMsg m => emit (LogError m)
   end) ;;;
  sys_exit args.

(** ** The holders (lines 532-572, 671-692, 916-1094)

    Only the attributes read by the embedded functions are kept.  Each record
    lives in a module of the class's name, so that the attributes keep theirs. *)

Module commsArgs.
Record t : Type := {
  comms : option pystr;
  (* the sizes are element counts, set by the caller before staging *)
  inMsgSize : Z;
  outMsgSize : Z;
  inSplit : option (list Z);
  outSplit : option (list Z)
}.
End commsArgs.

Module commsParamsHolder.
Record t : Type := {
  collective : pystr;
  dtype : torch_dtype;
  device : pystr;
  dcheck : Z;
  srcOrDst : Z;
  dst_ranks : list Z;
  beginSize : Z;
  element_size : Z;
  bitwidth : Z;
  quant_a2a_embedding_dim : Z
}.

Definition set_beginSize (p : t) (v : Z) : t :=
  {| collective := collective p; dtype := dtype p; device := device p;
     dcheck := dcheck p; srcOrDst := srcOrDst p; dst_ranks := dst_ranks p;
     beginSize := v; element_size := element_size p; bitwidth := bitwidth p;
     quant_a2a_embedding_dim := quant_a2a_embedding_dim p |}.
End commsParamsHolder.

Module collectiveArgsHolder.
Record t : Type := {
  world_size : Z;
  (* not set by __init__: None until the caller assigns the attribute *)
  src_ranks : option (list Z)
}.
End collectiveArgsHolder.

Module backendFunctions.
Record t : Type := {
  (* the keys of self.collectiveFunc, in insertion order *)
  collectiveFunc : list pystr;
  get_global_rank : Z
}.
End backendFunctions.

Module paramCommsBench.
Record t : Type := {
  backendFuncs : backendFunctions.t;
  collectiveArgs : collectiveArgsHolder.t;
  initVal : Z
}.
End paramCommsBench.

(** The keys that [backendFunctions.__init__] registers (lines 676-692). *)
Definition base_collectiveFunc : list pystr :=
  map str ["all_to_all"; "all_to_allv"; "all_reduce"; "broadcast"; "gather";
           "all_gather"; "all_gather_base"; "reduce"; "reduce_scatter";
           "reduce_scatter_base"; "scatter"; "barrier"; "incast"; "multicast";
           "noop"]%string.

(** ** Allocators of the backend (lines 738-759, 823-845)

    [alloc_ones] is the one allocator the base class implements: it calls
    [torch.ones], which raises [RuntimeError] for a negative size and
    allocates nothing; the device is taken to exist and to have the memory,
    and the scaling of the new tensor to succeed.
    [alloc_random] and [alloc_empty] are abstract in the base class; every
    backend returns a new buffer, and the call is recorded. *)

(** A backend allocation: the call is recorded and a new buffer is returned. *)
Definition alloc (call : event) : M loc :=
  emit call ;;; new_object (OTensor call).

(** The number of elements asked for, as [[n]] or as [n]. *)
Definition size_of (size : sizeArr) : Z :=
  match size with
  | SizeList n => n
  | SizeInt n => n
  end.

Definition alloc_ones (size : sizeArr) (curRankDevice : pystr)
    (dt : torch_dtype) (scaleFactor : Z) : M loc :=
  if size_of size <? 0 then raise RuntimeError
  else alloc (AllocOnes size curRankDevice dt scaleFactor).

Definition alloc_random (size : sizeArr) (curRankDevice : pystr)
    (dt : torch_dtype) (scaleFactor : Z) : M loc :=
  alloc (AllocRandom size curRankDevice dt scaleFactor).

Definition alloc_empty (size : sizeArr) (dt : torch_dtype)
    (curRankDevice : pystr) : M loc :=
  alloc (AllocEmpty size dt curRankDevice).

(** ** getAlgBW (lines 136-154) *)

(** [a / n] for a [float] and an [int]: the [int] is converted first; a
    nonzero [int] never converts to [0.0], so the divisor is zero exactly when
    [n] is. *)
Definition float_div_int (a : float) (n : Z) : M float :=
  match float_of_int n with
  | None => raise OverflowError
  | Some b => if n =? 0 then raise ZeroDivisionError else ret (a / b)%float
  end.

(** [n / b] for an [int] and a [float]. *)
Definition int_div_float (n : Z) (b : float) : M float :=
  match float_of_int n with
  | None => raise OverflowError
  | Some a => if (b =? 0)%float then raise ZeroDivisionError else ret (a / b)%float
  end.

Definition getAlgBW (elapsedTimeNS : float) (dataSize numIters : Z)
  : M (float * float) :=
  let avgIterNS := 0%float in
  avgIterNS <- (if negb (numIters =? 0)
                then float_div_int elapsedTimeNS numIters
                else ret avgIterNS) ;;
  let algBW := 0%float in
  algBW <- (if negb (avgIterNS =? 0)%float
            then int_div_float dataSize avgIterNS
            else ret algBW) ;;
  ret (avgIterNS, algBW).

(** ** getSizes (lines 157-183) *)

Definition iters_left (numIters : Z) : nat := Z.to_nat (101 - numIters).
Arguments iters_left : simpl never.

(** The [while] loop.  It yields [allSizes] and the records it logged.  The
    loop is entered again only when [numIters > 100] was false, which is what
    makes [101 - numIters] decrease. *)
Equations? getSizes_loop (endSize stepFactor stepBytes curSize numIters : Z)
  (allSizes : list Z) : list Z * list event
  by wf (iters_left numIters) lt :=
getSizes_loop endSize stepFactor stepBytes curSize numIters allSizes
  with inspect (curSize <=? endSize) := {
  | exist _ false _ => (allSizes, [])
  | exist _ true _ with inspect (numIters + 1 >? 100) := {
      | exist _ true _ =>
          (allSizes ++ [curSize], [LogError (msg_max_iters (numIters + 1) 100)])
      | exist _ false Hn =>
          getSizes_loop endSize stepFactor stepBytes
            (if stepBytes =? 0 then curSize * stepFactor else curSize + stepBytes)
            (numIters + 1)
            (allSizes ++ [curSize]) } }.
Proof.
  unfold iters_left. rewrite Z.gtb_ltb in Hn. apply Z.ltb_ge in Hn. lia.
Qed.

Definition emit_all (l : list event) : M unit :=
  fun s => (Ret tt, {| heap := heap s; trace := trace s ++ l;
                       ipTensor_split := ipTensor_split s;
                       opTensor_split := opTensor_split s |}).

Definition getSizes (beginSize endSize stepFactor stepBytes : Z) : M (list Z) :=
  let curSize := beginSize in
  let numIters := 0 in
  let allSizes := [] in
  let r := getSizes_loop endSize stepFactor stepBytes curSize numIters allSizes in
  emit_all (snd r) ;;; ret (fst r).

(** ** checkQuantArgs (lines 349-387) *)

Definition checkQuantArgs (collective : pystr) (dt : torch_dtype)
    (beginSize quant_a2a_embedding_dim blockingFlag : Z) : M unit :=
  (if negb (str_in collective
              (map str ["all_to_all"; "all_to_allv"; "reduce"; "all_reduce"]%string))
   then raise (NotImplementedError (msg_quant_collective_unsupported collective))
   else ret tt) ;;;
  (if str_in collective (map str ["all_to_all"; "all_to_allv"]%string)
   then
     q <- py_floordiv beginSize 4 ;;
     r <- py_mod q quant_a2a_embedding_dim ;;
     (if negb (r =? 0)
      then emit (LogWarning (msg_begin_size_multiple beginSize quant_a2a_embedding_dim))
      else ret tt) ;;;
     (if negb (blockingFlag =? 1)
      then raise (NotImplementedError msg_quant_must_be_synchronous)
      else ret tt)
   else ret tt) ;;;
  (if negb (dtype_eqb dt torch_float32)
   then raise (NotImplementedError (msg_quant_dtype_unsupported dt))
   else ret tt).

(** ** The functions that lean on Unicode tables, CPython's big-integer
    division and torch's comparison

    These come from outside the module and are taken as they are. *)

Section Embedding.

(** [str.lower] and the per-character [str.isalpha]. *)
Variable str_lower : pystr -> pystr.
Variable str_isalpha : N -> bool.

(** [a / b] on two [int]s with [b] nonzero: the correctly rounded quotient,
    [None] for [OverflowError]. *)
Variable int_truediv : Z -> Z -> option float.

(** [x < n] for a [float] and an [int] (CPython compares them exactly). *)
Variable float_lt_int : float -> Z -> bool.

(** One element of [torch.eq(t, expRes)], for a tensor of the given dtype. *)
Variable torch_eq : torch_dtype -> scalar -> Z -> bool.

Definition py_int_truediv (a b : Z) : M float :=
  if b =? 0 then raise ZeroDivisionError
  else match int_truediv a b with
       | Some q => ret q
       | None => raise OverflowError
       end.

(** *** fixBeginSize (lines 186-222)

    The holder is mutated in place; here the updated holder is returned. *)
Definition fixBeginSize (commsParams : commsParamsHolder.t) (world_size : Z)
  : M commsParamsHolder.t :=
  if str_in (commsParamsHolder.collective commsParams)
       (map str ["all_to_all"; "all_to_allv"; "all_gather"; "all_gather_base";
                 "gather"; "reduce_scatter_base"]%string)
  then
    q <- py_int_truediv (commsParamsHolder.beginSize commsParams)
                        (commsParamsHolder.element_size commsParams) ;;
    commsParams <-
      (if float_lt_int q world_size
       then ret (commsParamsHolder.set_beginSize commsParams
                   (world_size * commsParamsHolder.element_size commsParams))
       else ret commsParams) ;;
    if commsParamsHolder.bitwidth commsParams <? 32
    then
      q1 <- py_int_truediv (commsParamsHolder.beginSize commsParams)
                           (commsParamsHolder.element_size commsParams) ;;
      q2 <- float_div_int q1 world_size ;;
      if float_lt_int q2 (commsParamsHolder.quant_a2a_embedding_dim commsParams)
      then ret (commsParamsHolder.set_beginSize commsParams
                  (commsParamsHolder.quant_a2a_embedding_dim commsParams
                   * world_size
                   * commsParamsHolder.element_size commsParams))
      else ret commsParams
    else ret commsParams
  else if pystr_eqb (commsParamsHolder.collective commsParams) (str "all_reduce")
          || pystr_eqb (commsParamsHolder.collective commsParams) (str "reduce")
  then
    if commsParamsHolder.beginSize commsParams
       <? commsParamsHolder.element_size commsParams
    then ret (commsParamsHolder.set_beginSize commsParams
                (commsParamsHolder.element_size commsParams))
    else ret commsParams
  else ret commsParams.

(** *** paramToCommName (lines 408-443) *)

Definition name_aliases : list (pystr * pystr) :=
  [ (str "alltoall", str "all_to_all");
    (str "alltoallv", str "all_to_allv");
    (str "alltoallbase", str "all_to_allv");
    (str "allreduce", str "all_reduce");
    (str "allgather", str "all_gather");
    (str "allgatherbase", str "all_gather_base");
    (str "reducescatter", str "reduce_scatter");
    (str "recvanysource", str "recv") ].

(** Lines 430-436: the name after the alias table. *)
Definition alias_name (name : pystr) : pystr :=
  let new_name := str_lower name in
  let new_name := filter str_isalpha new_name in
  match dict_get name_aliases new_name with
  | Some v => v
  | None => name
  end.

Definition paramToCommName (name : pystr) (supported_comms : option (list pystr))
  : M pystr :=
  let new_name := alias_name name in
  (match supported_comms with
   | Some sc =>
       if negb (str_in new_name sc)
       then gracefulExit (ExitMsg (msg_not_supported_comm name sc))
       else ret tt
   | None => ret tt
   end) ;;;
  ret new_name.

(** *** backendFunctions.getBusBW (lines 694-736) *)

Definition getBusBW (collective : pystr) (algBW : float)
    (collectiveArgs : collectiveArgsHolder.t) : M float :=
  let busBW := algBW in
  let mulFactor := 1%float in
  if pystr_eqb collective (str "all_reduce") then
    mulFactor <-
      (if negb (collectiveArgsHolder.world_size collectiveArgs =? 0)
       then py_int_truediv (2 * (collectiveArgsHolder.world_size collectiveArgs - 1))
                           (collectiveArgsHolder.world_size collectiveArgs)
       else ret mulFactor) ;;
    ret (algBW * mulFactor)%float
  else if str_in collective
            (map str ["all_to_all"; "all_to_allv"; "gather"; "all_gather";
                      "reduce_scatter"; "reduce_scatter_base"; "scatter";
                      "all_gather_base"]%string) then
    mulFactor <-
      (if negb (collectiveArgsHolder.world_size collectiveArgs =? 0)
       then py_int_truediv (collectiveArgsHolder.world_size collectiveArgs - 1)
                           (collectiveArgsHolder.world_size collectiveArgs)
       else ret mulFactor) ;;
    ret (algBW * mulFactor)%float
  else if str_in collective
            (map str ["reduce"; "broadcast"; "incast"; "multicast"]%string) then
    ret algBW
  else
    emit (LogError (msg_busbw_unsupported collective)) ;;;
    ret busBW.

(** *** paramCommsBench.dcheck (lines 1128-1186) *)

Definition tensor_dtype (tensor : tensor_arg) : M torch_dtype :=
  match tensor with
  | ATensor t => ret (t_dtype t)
  | AList _ => raise AttributeError
  end.

(** [torch.all(torch.eq(t, expRes))]. *)
Definition torch_all_eq (t : Tensor) (expRes : Z) : bool :=
  forallb (fun v => torch_eq (t_dtype t) v expRes) (t_data t).

(** [for (index, val) in enumerate(t): if val != expRes: raise ...], from
    position [index] on; [mk index val] builds the message.  On one element
    torch's [!=] is the negation of its [==]. *)
Fixpoint check_values (dt : torch_dtype) (expRes : Z)
    (mk : nat -> scalar -> message) (index : nat) (vals : list scalar)
  : M unit :=
  match vals with
  | [] => ret tt
  | val :: rest =>
      if negb (torch_eq dt val expRes)
      then raise (ValueError (mk index val))
      else check_values dt expRes mk (S index) rest
  end.

(** [for (rank, t) in enumerate(tensor): ...], from position [rank] on. *)
Fixpoint check_tensors (curSize : Z) (collective : pystr) (expRes : Z)
    (tensor : tensor_arg) (rank : nat) (ts : list Tensor) : M unit :=
  match ts with
  | [] => ret tt
  | t :: rest =>
      (if negb (torch_all_eq t expRes)
       then check_values (t_dtype t) expRes
              (fun index val =>
                 msg_wrong_value curSize collective (Some rank) index val
                   expRes tensor)
              0%nat (t_data t)
       else ret tt) ;;;
      check_tensors curSize collective expRes tensor (S rank) rest
  end.

Definition dcheck (self : paramCommsBench.t)
    (commsParams : commsParamsHolder.t) (curSize : Z) (tensor : tensor_arg)
  : M unit :=
  let collective := commsParamsHolder.collective commsParams in
  let global_rank :=
    backendFunctions.get_global_rank (paramCommsBench.backendFuncs self) in
  let expRes := paramCommsBench.initVal self in
  expRes <-
    (if str_in collective
          (map str ["all_reduce"; "reduce_scatter"; "reduce_scatter_base"]%string)
        || ((global_rank =? commsParamsHolder.srcOrDst commsParams)
            && pystr_eqb collective (str "reduce"))
     then
       dt <- tensor_dtype tensor ;;
       ret (if dtype_eqb dt torch_bool
            then paramCommsBench.initVal self
            else collectiveArgsHolder.world_size
                   (paramCommsBench.collectiveArgs self)
                 * paramCommsBench.initVal self)
     else ret expRes) ;;
  if (str_in collective (map str ["incast"; "reduce"; "gather"]%string)
      && negb (global_rank =? commsParamsHolder.srcOrDst commsParams))
     || (str_in collective (map str ["multicast"; "pt2pt"]%string)
         && negb (existsb (Z.eqb global_rank)
                    (commsParamsHolder.dst_ranks commsParams)))
  then ret tt
  else
    match tensor with
    | AList ts => check_tensors curSize collective expRes tensor 0%nat ts
    | ATensor t =>
        if negb (torch_all_eq t expRes)
        then check_values (t_dtype t) expRes
               (fun index val =>
                  msg_wrong_value curSize collective None index val
                    expRes tensor)
               0%nat (t_data t)
        else ret tt
    end.

(** *** The staging strategies (lines 1222-1499)

    Every strategy has the signature of the source: [ipTensor], [curComm],
    [commsParams], [numElementsIn], [numElementsOut], [world_size],
    [curDevice], [dtype], [scaleFactor], [allocate]. *)

Definition strategy : Type :=
  loc -> commsArgs.t -> commsParamsHolder.t -> Z -> Z -> Z -> pystr ->
  torch_dtype -> Z -> bool -> M (loc * loc).

(** [[(n // world_size) for _ in range(world_size)]]: the division is only
    evaluated when the range is not empty, so with a positive divisor. *)
Definition even_split (n world_size : Z) : list Z :=
  repeat (n / world_size) (range_len world_size).

Definition _prep_all_to_allv (self : paramCommsBench.t) : strategy :=
  fun ipTensor curComm commsParams numElementsIn numElementsOut world_size
      curDevice dtype scaleFactor allocate =>
    opTensor <- new_list ;;
    opTensor <-
      (if allocate
       then alloc_random (SizeList numElementsOut) curDevice dtype scaleFactor
       else ret opTensor) ;;
    set_opTensor_split
      (match commsArgs.outSplit curComm with
       | Some l => l
       | None => even_split numElementsOut world_size
       end) ;;;
    set_ipTensor_split
      (match commsArgs.inSplit curComm with
       | Some l => l
       | None => even_split numElementsIn world_size
       end) ;;;
    ret (ipTensor, opTensor).

Definition _prep_all_to_all (self : paramCommsBench.t) : strategy :=
  fun ipTensor curComm commsParams numElementsIn numElementsOut world_size
      curDevice dtype scaleFactor allocate =>
    ipTensor <- new_list ;;
    opTensor <- new_list ;;
    (if allocate then
       (if commsParamsHolder.dcheck commsParams =? 1 then
          for_range (range_len world_size)
            (q <- py_floordiv numElementsIn world_size ;;
             t <- alloc_ones (SizeList q) curDevice
                    (commsParamsHolder.dtype commsParams)
                    (paramCommsBench.initVal self) ;;
             list_append ipTensor t)
        else
          for_range (range_len world_size)
            (q <- py_floordiv numElementsIn world_size ;;
             t <- alloc_random (SizeList q) curDevice
                    (commsParamsHolder.dtype commsParams) scaleFactor ;;
             list_append ipTensor t)) ;;;
       for_range (range_len world_size)
         (q <- py_floordiv numElementsOut world_size ;;
          t <- alloc_random (SizeList q) curDevice dtype scaleFactor ;;
          list_append opTensor t)
     else ret tt) ;;;
    ret (ipTensor, opTensor).

Definition _prep_all_gather (self : paramCommsBench.t) : strategy :=
  fun ipTensor curComm commsParams numElementsIn numElementsOut world_size
      curDevice dtype scaleFactor allocate =>
    opTensor <- new_list ;;
    ipTensor <-
      (if allocate then
         ipTensor <-
           (if commsParamsHolder.dcheck commsParams =? 1 then
              q <- py_floordiv numElementsIn world_size ;;
              alloc_ones (SizeList q) curDevice dtype
                (paramCommsBench.initVal self)
            else
              q <- py_floordiv numElementsIn world_size ;;
              alloc_random (SizeList q) curDevice dtype scaleFactor) ;;
         for_range (range_len world_size)
           (q <- py_floordiv numElementsIn world_size ;;
            t <- alloc_random (SizeList q) curDevice dtype scaleFactor ;;
            list_append opTensor t) ;;;
         ret ipTensor
       else ret ipTensor) ;;
    ret (ipTensor, opTensor).

Definition _prep_all_gather_base (self : paramCommsBench.t) : strategy :=
  fun ipTensor curComm commsParams numElementsIn numElementsOut world_size
      curDevice dtype scaleFactor allocate =>
    opTensor <- new_list ;;
    if allocate then
      ipTensor <-
        (if commsParamsHolder.dcheck commsParams =? 1 then
           q <- py_floordiv numElementsIn world_size ;;
           alloc_ones (SizeList q) curDevice dtype
             (paramCommsBench.initVal self)
         else
           q <- py_floordiv numElementsIn world_size ;;
           alloc_random (SizeList q) curDevice dtype scaleFactor) ;;
      opTensor <- alloc_random (SizeInt numElementsIn) curDevice dtype scaleFactor ;;
      ret (ipTensor, opTensor)
    else ret (ipTensor, opTensor).

(** [for _ in src_ranks: body]. *)
Fixpoint for_each {A : Type} (l : list A) (body : M unit) : M unit :=
  match l with
  | [] => ret tt
  | _ :: l' => body ;;; for_each l' body
  end.

Definition _prep_incast (self : paramCommsBench.t) : strategy :=
  fun ipTensor curComm commsParams numElementsIn numElementsOut world_size
      curDevice dtype scaleFactor allocate =>
    opTensor <- new_list ;;
    (if allocate then
       match collectiveArgsHolder.src_ranks
               (paramCommsBench.collectiveArgs self) with
       | Some src_ranks =>
           for_each src_ranks
             (t <- alloc_random (SizeList numElementsOut) curDevice dtype
                     scaleFactor ;;
              list_append opTensor t)
       | None => raise AttributeError
       end
     else ret tt) ;;;
    ret (ipTensor, opTensor).

Definition _prep_reduce_scatter (self : paramCommsBench.t) : strategy :=
  fun ipTensor curComm commsParams numElementsIn numElementsOut world_size
      curDevice dtype scaleFactor allocate =>
    ipTensor <- new_list ;;
    opTensor <- new_list ;;
    if allocate then
      (if commsParamsHolder.dcheck commsParams =? 1 then
         for_range (range_len world_size)
           (q <- py_floordiv numElementsOut world_size ;;
            t <- alloc_ones (SizeList q) curDevice
                   (commsParamsHolder.dtype commsParams)
                   (paramCommsBench.initVal self) ;;
            list_append ipTensor t)
       else
         for_range (range_len world_size)
           (q <- py_floordiv numElementsOut world_size ;;
            t <- alloc_random (SizeList q) curDevice
                   (commsParamsHolder.dtype commsParams) scaleFactor ;;
            list_append ipTensor t)) ;;;
      q <- py_floordiv numElementsOut world_size ;;
      opTensor <- alloc_random (SizeList q) curDevice dtype scaleFactor ;;
      ret (ipTensor, opTensor)
    else ret (ipTensor, opTensor).

Definition _prep_reduce_scatter_base (self : paramCommsBench.t) : strategy :=
  fun ipTensor curComm commsParams numElementsIn numElementsOut world_size
      curDevice dtype scaleFactor allocate =>
    ipTensor <- new_list ;;
    opTensor <- new_list ;;
    if allocate then
      ipTensor <-
        (if commsParamsHolder.dcheck commsParams =? 1 then
           alloc_ones (SizeInt numElementsOut) curDevice
             (commsParamsHolder.dtype commsParams)
             (paramCommsBench.initVal self)
         else
           alloc_random (SizeInt numElementsOut) curDevice
             (commsParamsHolder.dtype commsParams) scaleFactor) ;;
      q <- py_floordiv numElementsOut world_size ;;
      opTensor <- alloc_random (SizeList q) curDevice dtype scaleFactor ;;
      ret (ipTensor, opTensor)
    else ret (ipTensor, opTensor).

Definition _prep_pt2pt (self : paramCommsBench.t) : strategy :=
  fun ipTensor curComm commsParams numElementsIn numElementsOut world_size
      curDevice dtype scaleFactor allocate =>
    opTensor <- new_list ;;
    opTensor <-
      (if allocate
       then alloc_random (SizeList numElementsOut) curDevice dtype scaleFactor
       else ret opTensor) ;;
    ret (ipTensor, opTensor).

(** *** paramCommsBench.prepComm (lines 1501-1579) *)

Definition dispatchDict (self : paramCommsBench.t) : list (pystr * strategy) :=
  [ (str "all_to_allv", _prep_all_to_allv self);
    (str "all_to_all", _prep_all_to_all self);
    (str "all_gather", _prep_all_gather self);
    (str "gather", _prep_all_gather self);
    (str "all_gather_base", _prep_all_gather_base self);
    (str "incast", _prep_incast self);
    (str "reduce_scatter", _prep_reduce_scatter self);
    (str "reduce_scatter_base", _prep_reduce_scatter_base self);
    (str "scatter", _prep_reduce_scatter self);
    (str "pt2pt", _prep_pt2pt self) ].

(** Line 1517: [curComm.comms if (curComm.comms is not None) else
    commsParams.collective]. *)
Definition requested_name (curComm : commsArgs.t)
    (commsParams : commsParamsHolder.t) : pystr :=
  match commsArgs.comms curComm with
  | Some c => c
  | None => commsParamsHolder.collective commsParams
  end.

Definition prepComm (self : paramCommsBench.t) (curComm : commsArgs.t)
    (commsParams : commsParamsHolder.t) (allocate : bool) : M (loc * loc) :=
  commOp <-
    paramToCommName
      (requested_name curComm commsParams)
      (Some (backendFunctions.collectiveFunc (paramCommsBench.backendFuncs self))) ;;
  if str_in commOp (map str ["wait"; "barrier"]%string) then
    ip <- new_list ;;
    op <- new_list ;;
    ret (ip, op)
  else
    let numElementsIn := commsArgs.inMsgSize curComm in
    let numElementsOut := commsArgs.outMsgSize curComm in
    let world_size :=
      collectiveArgsHolder.world_size (paramCommsBench.collectiveArgs self) in
    let dtype := commsParamsHolder.dtype commsParams in
    let curDevice := commsParamsHolder.device commsParams in
    let scaleFactor := numElementsOut * numElementsOut in
    opTensor <- new_list ;;
    ipTensor <-
      (if allocate then
         if commsParamsHolder.dcheck commsParams =? 1
         then alloc_ones (SizeList numElementsIn) curDevice dtype
                (paramCommsBench.initVal self)
         else alloc_random (SizeList numElementsIn) curDevice dtype scaleFactor
       else new_list) ;;
    match dict_get (dispatchDict self) commOp with
    | Some function_to_call =>
        function_to_call ipTensor curComm commsParams numElementsIn
          numElementsOut world_size curDevice dtype scaleFactor allocate
    | None =>
        let opTensor := ipTensor in
        ret (ipTensor, opTensor)
    end.

End Embedding.

(** ** Reference instances

    The ASCII restriction of the Unicode tables, and the numeric and torch
    primitives on machine-sized operands; they let the embedding run on
    concrete inputs. *)

Definition ascii_str_lower (s : pystr) : pystr := map ascii_lower s.

Definition small_int_truediv (a b : Z) : option float :=
  match float_of_int a, float_of_int b with
  | Some x, Some y => Some (x / y)%float
  | _, _ => None
  end.

Definition small_float_lt_int (x : float) (n : Z) : bool :=
  match float_of_int n with
  | Some y => (x <? y)%float
  | None => false
  end.

Definition scalar_eq_int (dt : torch_dtype) (v : scalar) (expRes : Z) : bool :=
  match v with
  | ScalarInt z => z =? expRes
  | ScalarBool b => (if b then 1 else 0) =? expRes
  | ScalarFloat f =>
      match float_of_int expRes with
      | Some y => (f =? y)%float
      | None => false
      end
  end.

Definition empty_state : state :=
  {| heap := []; trace := []; ipTensor_split := []; opTensor_split := [] |}.

Definition base_backend (rank : Z) : backendFunctions.t :=
  {| backendFunctions.collectiveFunc := base_collectiveFunc;
     backendFunctions.get_global_rank := rank |}.

Definition bench (rank world_size : Z) : paramCommsBench.t :=
  {| paramCommsBench.backendFuncs := base_backend rank;
     paramCommsBench.collectiveArgs :=
       {| collectiveArgsHolder.world_size := world_size;
          collectiveArgsHolder.src_ranks := None |};
     paramCommsBench.initVal := 1 |}.

Definition params (collective : string) (dcheck : Z) : commsParamsHolder.t :=
  {| commsParamsHolder.collective := str collective;
     commsParamsHolder.dtype := torch_float32;
     commsParamsHolder.device := str "cpu";
     commsParamsHolder.dcheck := dcheck;
     commsParamsHolder.srcOrDst := 0;
     commsParamsHolder.dst_ranks := [];
     commsParamsHolder.beginSize := 0;
     commsParamsHolder.element_size := 4;
     commsParamsHolder.bitwidth := 32;
     commsParamsHolder.quant_a2a_embedding_dim := 32 |}.

Definition comm (inMsgSize outMsgSize : Z) : commsArgs.t :=
  {| commsArgs.comms := None;
     commsArgs.inMsgSize := inMsgSize;
     commsArgs.outMsgSize := outMsgSize;
     commsArgs.inSplit := None;
     commsArgs.outSplit := None |}.

(** ** Vocabulary of the statements *)

(** [l] holds a Python list. *)
Definition is_list (h : list object) (l : loc) : Prop :=
  exists items, nth_error h l = Some (OList items).

(** The state after one backend allocation, and after one [[]]. *)
Definition after_alloc (call : event) (s : state) : state :=
  {| heap := heap s ++ [OTensor call]; trace := trace s ++ [call];
     ipTensor_split := ipTensor_split s; opTensor_split := opTensor_split s |}.

Definition after_new_list (s : state) : state :=
  {| heap := heap s ++ [OList []]; trace := trace s;
     ipTensor_split := ipTensor_split s; opTensor_split := opTensor_split s |}.

(** The call behind [if commsParams.dcheck == 1: alloc_ones(..., initVal)
    else: alloc_random(..., scaleFactor)]. *)
Definition input_call (self : paramCommsBench.t) (commsParams : commsParamsHolder.t)
    (curDevice : pystr) (dt : torch_dtype) (scaleFactor : Z) (size : sizeArr)
  : event :=
  if commsParamsHolder.dcheck commsParams =? 1
  then AllocOnes size curDevice dt (paramCommsBench.initVal self)
  else AllocRandom size curDevice dt scaleFactor.

(** [m], run from [s], returns a buffer pair, and what it added to the trace
    is exactly [calls]. *)
Definition stages (m : M (loc * loc)) (s : state) (calls : list event) : Prop :=
  exists ip op s', m s = (Ret (ip, op), s') /\ trace s' = trace s ++ calls.

(** What the strategies of the split and flat collectives allocate when
    [allocate] is set, read off lines 1222-1475: every per-rank size is a
    floor quotient by the world size. *)
Definition floor_staging_calls (self : paramCommsBench.t)
    (curComm : commsArgs.t) (commsParams : commsParamsHolder.t)
  : list (pystr * list event) :=
  let numElementsIn := commsArgs.inMsgSize curComm in
  let numElementsOut := commsArgs.outMsgSize curComm in
  let world_size :=
    collectiveArgsHolder.world_size (paramCommsBench.collectiveArgs self) in
  let dtype := commsParamsHolder.dtype commsParams in
  let curDevice := commsParamsHolder.device commsParams in
  let scaleFactor := numElementsOut * numElementsOut in
  let n := range_len world_size in
  let input := input_call self commsParams curDevice dtype scaleFactor in
  let random size := AllocRandom size curDevice dtype scaleFactor in
  let q_in := SizeList (numElementsIn / world_size) in
  let q_out := SizeList (numElementsOut / world_size) in
  [ (str "all_to_all", repeat (input q_in) n ++ repeat (random q_out) n);
    (str "all_to_allv", [random (SizeList numElementsOut)]);
    (str "all_gather", input q_in :: repeat (random q_in) n);
    (str "all_gather_base", [input q_in; random (SizeInt numElementsIn)]);
    (str "reduce_scatter", repeat (input q_out) n ++ [random q_out]);
    (str "reduce_scatter_base", [input (SizeInt numElementsOut); random q_out]);
    (str "gather", input q_in :: repeat (random q_in) n);
    (str "scatter", repeat (input q_out) n ++ [random q_out]) ].


(** ** Further vocabulary *)

(** Line 176: the size that follows [curSize]. *)
Definition next_size (stepFactor stepBytes curSize : Z) : Z :=
  if stepBytes =? 0 then curSize * stepFactor else curSize + stepBytes.

(** The size of round [i], counted from zero. *)
Definition size_at (beginSize stepFactor stepBytes : Z) (i : nat) : Z :=
  if stepBytes =? 0 then beginSize * stepFactor ^ Z.of_nat i
  else beginSize + Z.of_nat i * stepBytes.

(** The two guards of [dcheck]: lines 1142-1152 (the expected value is the
    reduced one) and lines 1160-1168 (this rank has nothing to check). *)
Definition reduction_guard (self : paramCommsBench.t)
    (commsParams : commsParamsHolder.t) : bool :=
  str_in (commsParamsHolder.collective commsParams)
    (map str ["all_reduce"; "reduce_scatter"; "reduce_scatter_base"]%string)
  || ((backendFunctions.get_global_rank (paramCommsBench.backendFuncs self)
       =? commsParamsHolder.srcOrDst commsParams)
      && pystr_eqb (commsParamsHolder.collective commsParams) (str "reduce")).

Definition skip_guard (self : paramCommsBench.t)
    (commsParams : commsParamsHolder.t) : bool :=
  (str_in (commsParamsHolder.collective commsParams)
     (map str ["incast"; "reduce"; "gather"]%string)
   && negb (backendFunctions.get_global_rank (paramCommsBench.backendFuncs self)
            =? commsParamsHolder.srcOrDst commsParams))
  || (str_in (commsParamsHolder.collective commsParams)
        (map str ["multicast"; "pt2pt"]%string)
      && negb (existsb
                 (Z.eqb (backendFunctions.get_global_rank
                           (paramCommsBench.backendFuncs self)))
                 (commsParamsHolder.dst_ranks commsParams))).

(** ** Command line and environment

    [parsesize], [parseRankList], [env2int], [read_comms_env_vars] and
    [paramCommsBench.checkArgs] read strings, the process environment and the
    logging module.  They log and fail with messages of their own, so they
    run in a second monad of the same shape, whose state is [os.environ] and
    the trace of log records. *)

Inductive cli_message : Type :=
| msg_could_not_parse_size (ipValue : pystr)
| msg_could_not_parse_ranks (ipName ipStr : pystr)
| msg_backend_not_supported (nw_stack : pystr) (supportedNwstacks : list pystr)
| msg_tpu_cores_not_supported (num_tpu_cores : Z) (supported : list Z)
| msg_master_ip_differs (master_ip MASTER_ADDR : pystr)
| msg_master_port_differs (master_port MASTER_PORT : pystr)
| msg_using_master_addr (MASTER_ADDR : pystr)
| msg_using_master_port (MASTER_PORT : pystr).

Inductive cli_exn : Type :=
| IntValueError (text : pystr)         (* int(text): invalid literal *)
| InvalidLogLevel (level : pystr)      (* ValueError(f"Invalid log level: ...") *)
| IndexError.

Inductive cli_event : Type :=
| CliLogError (m : cli_message)
| CliLogWarning (m : cli_message)
| CliLogInfo (m : cli_message)
| BasicConfig (level global_rank : Z).

Inductive cli_outcome (A : Type) : Type :=
| CliRet (a : A)
| CliRaise (e : cli_exn)
| CliExit (status : Z).
Arguments CliRet {A} a.
Arguments CliRaise {A} e.
Arguments CliExit {A} status.

Record cli_state : Type := {
  environ : pystr -> option pystr;
  cli_trace : list cli_event
}.

Definition Cli (A : Type) : Type := cli_state -> cli_outcome A * cli_state.

Definition cli_ret {A} (a : A) : Cli A := fun s => (CliRet a, s).

Definition cli_bind {A B} (m : Cli A) (k : A -> Cli B) : Cli B :=
  fun s =>
    match m s with
    | (CliRet a, s') => k a s'
    | (CliRaise e, s') => (CliRaise e, s')
    | (CliExit n, s') => (CliExit n, s')
    end.

Definition cli_raise {A} (e : cli_exn) : Cli A := fun s => (CliRaise e, s).

(** A computation that only reads: it leaves the environment and the log as
    they were, and it never exits. *)
Definition reads_only {A} (m : Cli A) : Prop :=
  forall s, snd (m s) = s /\ forall status, fst (m s) <> CliExit status.

Declare Scope cli_scope.
Delimit Scope cli_scope with cli.
Notation "x <- m ;; k" := (cli_bind m (fun x => k))
  (at level 100, m at next level, right associativity) : cli_scope.
Notation "m ;;; k" := (cli_bind m (fun _ => k))
  (at level 100, right associativity) : cli_scope.

Definition cli_emit (e : cli_event) : Cli unit :=
  fun s => (CliRet tt, {| environ := environ s; cli_trace := cli_trace s ++ [e] |}).

(** [os.environ.get(name)] and [os.environ[name] = value]. *)
Definition getenv (name : pystr) : Cli (option pystr) :=
  fun s => (CliRet (environ s name), s).

Definition setenv (name value : pystr) : Cli unit :=
  fun s => (CliRet tt,
            {| environ := fun k => if pystr_eqb k name then Some value
                                   else environ s k;
               cli_trace := cli_trace s |}).

(** [gracefulExit()] with its default argument: [args] is [0], so nothing
    more is logged, and the process exits with status 0. *)
Definition gracefulExit_default {A} : Cli A := fun s => (CliExit 0, s).

(** [s.find(c)] for a one-character [c]: the first index, or [-1]. *)
Fixpoint str_find (c : N) (s : pystr) : Z :=
  match s with
  | [] => -1
  | x :: s' =>
      if N.eqb x c then 0
      else let r := str_find c s' in if r =? -1 then -1 else r + 1
  end.

(** [s[0:i]] for [i >= 0]. *)
Definition str_prefix (s : pystr) (i : Z) : pystr := firstn (Z.to_nat i) s.

(** [s.split(c)] for a one-character separator. *)
Fixpoint str_split (c : N) (s : pystr) : list pystr :=
  match s with
  | [] => [[]]
  | x :: s' =>
      if N.eqb x c then [] :: str_split c s'
      else match str_split c s' with
           | p :: ps => (x :: p) :: ps
           | [] => [[x]]
           end
  end.

(** [list(OrderedDict.fromkeys(l))]: first occurrences, in order. *)
Fixpoint ordered_unique (seen l : list Z) : list Z :=
  match l with
  | [] => []
  | x :: l' =>
      if existsb (Z.eqb x) seen then ordered_unique seen l'
      else x :: ordered_unique (x :: seen) l'
  end.

(** [[*range(a, b)]]. *)
Definition range_list (a b : Z) : list Z :=
  map (fun i => a + Z.of_nat i) (seq 0 (Z.to_nat (b - a))).

Definition code (c : string) : N :=
  match c with
  | String a _ => N_of_ascii a
  | EmptyString => 0%N
  end.

Inductive ip_value : Type :=
| IpInt (n : Z)
| IpStr (s : pystr).

Module comms_world_info_holder.
Record t : Type := {
  global_rank : Z;
  local_rank : Z;
  world_size : Z
}.
End comms_world_info_holder.

Module Namespace.
Record t : Type := {
  nw_stack : pystr;
  num_tpu_cores : Z;
  log : pystr;
  master_ip : pystr;
  master_port : pystr
}.
End Namespace.

Module comms_env_params.
Record t : Type := {
  world_size : Z;
  local_size : Z;
  global_rank : Z;
  local_rank : Z
}.
End comms_env_params.

Definition default_master_ip : pystr := str "127.0.0.1".
Definition default_master_port : pystr := str "29500".

Section CommandLine.

Local Open Scope cli_scope.

(** [str.isnumeric], [str.strip], [str.upper] and [int] on a string ([None]
    for its [ValueError]) follow the Unicode tables; [logging_level name] is
    the attribute [name] of the logging module when it is an [int]. *)
Variable str_isnumeric : pystr -> bool.
Variable str_strip : pystr -> pystr.
Variable str_upper : pystr -> pystr.
Variable int_of_str : pystr -> option Z.
Variable logging_level : pystr -> option Z.

Definition py_int (text : pystr) : Cli Z :=
  match int_of_str text with
  | Some n => cli_ret n
  | None => cli_raise (IntValueError text)
  end.

(** [list(map(int, texts))]. *)
Fixpoint map_int (texts : list pystr) : Cli (list Z) :=
  match texts with
  | [] => cli_ret []
  | t :: rest =>
      n <- py_int t ;;
      ns <- map_int rest ;;
      cli_ret (n :: ns)
  end.

(** [l[i]]. *)
Definition index (l : list Z) (i : nat) : Cli Z :=
  match nth_error l i with
  | Some x => cli_ret x
  | None => cli_raise IndexError
  end.

(** *** parsesize (lines 55-95) *)

Definition parsesize (ipValue : ip_value) : Cli Z :=
  match ipValue with
  | IpInt n =>
      let units := 1 in
      cli_ret (n * units)
  | IpStr s =>
      if str_isnumeric s then
        let units := 1 in
        value <- py_int s ;;
        cli_ret (value * units)
      else if negb (str_find (code "G") s =? -1) then
        let units := 1024 * 1024 * 1024 in
        value <- py_int (str_prefix s (str_find (code "G") s)) ;;
        cli_ret (value * units)
      else if negb (str_find (code "M") s =? -1) then
        let units := 1024 * 1024 in
        value <- py_int (str_prefix s (str_find (code "M") s)) ;;
        cli_ret (value * units)
      else if negb (str_find (code "K") s =? -1) then
        let units := 1024 in
        value <- py_int (str_prefix s (str_find (code "K") s)) ;;
        cli_ret (value * units)
      else
        cli_emit (CliLogError (msg_could_not_parse_size s)) ;;;
        gracefulExit_default
  end.

(** *** parseRankList (lines 98-133) *)

Definition parseRankList (ipStr ipName : pystr)
    (comms_world_info : comms_world_info_holder.t) : Cli (list Z) :=
  let rankList := [] in
  match ipStr with
  | [] => cli_ret rankList
  | _ :: _ =>
      rankList <-
        (if str_isnumeric ipStr then
           r <- py_int ipStr ;;
           cli_ret [r]
         else if negb (str_find (code ",") ipStr =? -1) then
           rankList <- map_int (map str_strip (str_split (code ",") ipStr)) ;;
           cli_ret (ordered_unique [] rankList)
         else if negb (str_find (code ":") ipStr =? -1) then
           pos <- map_int (map str_strip (str_split (code ":") ipStr)) ;;
           first <- index pos 0 ;;
           last <- index pos 1 ;;
           cli_ret (range_list first (last + 1))
         else cli_ret rankList) ;;
      (if (List.length rankList =? 0)%nat
          || existsb
               (fun r => (r <? 0)
                         || (comms_world_info_holder.world_size comms_world_info
                             <=? r))
               rankList
       then
         (if comms_world_info_holder.global_rank comms_world_info =? 0
          then cli_emit (CliLogError (msg_could_not_parse_ranks ipName ipStr))
          else cli_ret tt) ;;;
         gracefulExit_default
       else cli_ret tt) ;;;
      cli_ret rankList
  end.

(** *** env2int (lines 246-260) *)

Fixpoint env2int (env_list : list pystr) (default : Z) : Cli Z :=
  match env_list with
  | [] => cli_ret default
  | e :: rest =>
      text <- getenv e ;;
      val <- (match text with
              | Some t => py_int t
              | None => cli_ret (-1)
              end) ;;
      if 0 <=? val then cli_ret val else env2int rest default
  end.

(** The variables [env2int] passes over: unset, or set to the text of a
    negative integer. *)
Definition env_skipped (s : cli_state) (e : pystr) : bool :=
  match environ s e with
  | None => true
  | Some t =>
      match int_of_str t with
      | Some v => v <? 0
      | None => false
      end
  end.

(** *** read_comms_env_vars (lines 263-305) *)

Definition read_comms_env_vars : Cli comms_env_params.t :=
  world_size <-
    env2int (map str ["MV2_COMM_WORLD_SIZE"; "OMPI_COMM_WORLD_SIZE"; "PMI_SIZE";
                      "WORLD_SIZE"]%string) (-1) ;;
  local_size <-
    env2int (map str ["LOCAL_SIZE"; "MPI_LOCALNRANKS";
                      "MV2_COMM_WORLD_LOCAL_SIZE";
                      "OMPI_COMM_WORLD_LOCAL_SIZE"]%string) (-1) ;;
  global_rank <-
    env2int (map str ["MV2_COMM_WORLD_RANK"; "OMPI_COMM_WORLD_RANK"; "PMI_RANK";
                      "RANK"]%string) (-1) ;;
  local_rank <-
    env2int (map str ["LOCAL_RANK"; "MPI_LOCALRANKID";
                      "MV2_COMM_WORLD_LOCAL_RANK";
                      "OMPI_COMM_WORLD_LOCAL_RANK"]%string) (-1) ;;
  cli_ret {| comms_env_params.world_size := world_size;
             comms_env_params.local_size := local_size;
             comms_env_params.global_rank := global_rank;
             comms_env_params.local_rank := local_rank |}.

(** *** paramCommsBench.checkArgs (lines 1694-1750) *)

(** Lines 1722-1735 for the address and 1737-1750 for the port: the same
    steps on [name], with the value given on the command line. *)
Definition resolve_master (name value default : pystr)
    (differs : pystr -> pystr -> cli_message) (kept : pystr -> cli_message)
  : Cli unit :=
  current <- getenv name ;;
  match current with
  | Some env =>
      if negb (str_in value [default; env]) then
        cli_emit (CliLogWarning (differs value env)) ;;;
        setenv name value
      else cli_emit (CliLogInfo (kept env))
  | None => setenv name value
  end.

Definition checkArgs (supportedNwstacks : list pystr) (args : Namespace.t)
  : Cli unit :=
  let supported_tpu_core_valuses := [1; 8] in
  (if negb (str_in (Namespace.nw_stack args) supportedNwstacks) then
     cli_emit (CliLogError
                 (msg_backend_not_supported (Namespace.nw_stack args)
                    supportedNwstacks)) ;;;
     gracefulExit_default
   else cli_ret tt) ;;;
  (if negb (existsb (Z.eqb (Namespace.num_tpu_cores args))
              supported_tpu_core_valuses) then
     cli_emit (CliLogError
                 (msg_tpu_cores_not_supported (Namespace.num_tpu_cores args)
                    supported_tpu_core_valuses)) ;;;
     gracefulExit_default
   else cli_ret tt) ;;;
  numeric_level <-
    (match logging_level (str_upper (Namespace.log args)) with
     | Some level => cli_ret level
     | None => cli_raise (InvalidLogLevel (Namespace.log args))
     end) ;;
  comms_env_params <- read_comms_env_vars ;;
  cli_emit (BasicConfig numeric_level
              (comms_env_params.global_rank comms_env_params)) ;;;
  resolve_master (str "MASTER_ADDR") (Namespace.master_ip args)
    default_master_ip msg_master_ip_differs msg_using_master_addr ;;;
  resolve_master (str "MASTER_PORT") (Namespace.master_port args)
    default_master_port msg_master_port_differs msg_using_master_port.

End CommandLine.

(** *** Reference instances for the command line *)

Definition ascii_isdigit (c : N) : bool := ((48 <=? c) && (c <=? 57))%N.

Definition ascii_isnumeric (s : pystr) : bool :=
  negb (Nat.eqb (List.length s) 0) && forallb ascii_isdigit s.

Fixpoint digits_value (acc : Z) (s : pystr) : option Z :=
  match s with
  | [] => Some acc
  | c :: s' =>
      if ascii_isdigit c then digits_value (acc * 10 + (Z.of_N c - 48)) s'
      else None
  end.

Definition ascii_int_of_str (s : pystr) : option Z :=
  match s with
  | [] => None
  | c :: s' =>
      if N.eqb c 45
      then match s' with
           | [] => None
           | _ :: _ => option_map Z.opp (digits_value 0 s')
           end
      else digits_value 0 s
  end.

Fixpoint strip_left (s : pystr) : pystr :=
  match s with
  | c :: s' => if N.eqb c 32 then strip_left s' else s
  | [] => []
  end.

Definition ascii_strip (s : pystr) : pystr :=
  rev (strip_left (rev (strip_left s))).

Definition ascii_upper (s : pystr) : pystr :=
  map (fun c => if ((97 <=? c) && (c <=? 122))%N then (c - 32)%N else c) s.

Definition std_logging_level (name : pystr) : option Z :=
  dict_get [ (str "CRITICAL", 50); (str "ERROR", 40); (str "WARNING", 30);
             (str "INFO", 20); (str "DEBUG", 10); (str "NOTSET", 0) ] name.

Definition env_of (l : list (string * string)) : pystr -> option pystr :=
  fun k => dict_get (map (fun kv => (str (fst kv), str (snd kv))) l) k.

Definition cli_start (l : list (string * string)) : cli_state :=
  {| environ := env_of l; cli_trace := [] |}.

Definition world_of_8 : comms_world_info_holder.t :=
  {| comms_world_info_holder.global_rank := 0;
     comms_world_info_holder.local_rank := 0;
     comms_world_info_holder.world_size := 8 |}.

Definition args_of (master_ip master_port : string) : Namespace.t :=
  {| Namespace.nw_stack := str "pytorch-dist";
     Namespace.num_tpu_cores := 1;
     Namespace.log := str "error";
     Namespace.master_ip := str master_ip;
     Namespace.master_port := str master_port |}.

Definition rank_3_env : cli_state :=
  cli_start [("MASTER_ADDR", "10.0.0.2"); ("RANK", "3")]%string.

(** * Properties *)

(** ** Strings and dictionaries *)

Lemma pystr_eqb_eq (a b : pystr) : pystr_eqb a b = true <-> a = b.
Proof.
  revert b; induction a as [|x a IH]; intros [|y b]; cbn [pystr_eqb];
    try (split; [discriminate | congruence]); try tauto.
  rewrite andb_true_iff, N.eqb_eq, IH. split.
  - intros [-> ->]; reflexivity.
  - intros E; injection E as -> ->; auto.
Qed.

Lemma pystr_eqb_refl (a : pystr) : pystr_eqb a a = true.
Proof. apply pystr_eqb_eq; reflexivity. Qed.

Lemma dict_get_In {V : Type} (d : list (pystr * V)) (k : pystr) (v : V) :
  dict_get d k = Some v -> In v (map snd d).
Proof.
  induction d as [|[k' v'] d IH]; cbn [dict_get map snd]; [discriminate|].
  destruct (pystr_eqb k k').
  - intros E; injection E as ->; left; reflexivity.
  - intros E; right; auto.
Qed.

Lemma ascii_lower_is_ascii (c : N) : is_ascii c -> is_ascii (ascii_lower c).
Proof.
  unfold is_ascii, ascii_lower; intros H.
  destruct ((65 <=? c)%N && (c <=? 90)%N) eqn:E; [|exact H].
  apply andb_true_iff in E as [_ E]. apply N.leb_le in E. lia.
Qed.

Section NameNormalization.

Variable str_lower : pystr -> pystr.
Variable str_isalpha : N -> bool.

(** On ASCII text the Unicode tables are the ASCII ones. *)
Hypothesis str_lower_ascii :
  forall s, Forall is_ascii s -> str_lower s = map ascii_lower s.
Hypothesis str_isalpha_ascii :
  forall c, is_ascii c -> str_isalpha c = ascii_isalpha c.

Lemma normalize_ascii (s : pystr) :
  Forall is_ascii s ->
  filter str_isalpha (str_lower s) = filter ascii_isalpha (map ascii_lower s).
Proof.
  intros H. rewrite (str_lower_ascii s H).
  apply filter_ext_in. intros c Hc.
  apply in_map_iff in Hc as (c0 & <- & Hc0).
  apply str_isalpha_ascii, ascii_lower_is_ascii.
  rewrite Forall_forall in H; auto.
Qed.

(** Every value of the alias table is a fixed point of the normalization. *)
Lemma alias_name_canonical (v : pystr) :
  In v (map snd name_aliases) -> alias_name str_lower str_isalpha v = v.
Proof.
  cbn [name_aliases map snd In].
  intros H; unfold alias_name;
    repeat (destruct H as [<- | H];
            [ rewrite normalize_ascii;
              [ reflexivity
              | repeat constructor ] | ]);
    contradiction.
Qed.

Lemma alias_name_idempotent (name : pystr) :
  alias_name str_lower str_isalpha (alias_name str_lower str_isalpha name)
  = alias_name str_lower str_isalpha name.
Proof.
  destruct (dict_get name_aliases (filter str_isalpha (str_lower name)))
    as [v|] eqn:E.
  - assert (Hv : alias_name str_lower str_isalpha name = v)
      by (unfold alias_name; rewrite E; reflexivity).
    rewrite Hv. apply alias_name_canonical. eapply dict_get_In; eauto.
  - assert (Hv : alias_name str_lower str_isalpha name = name)
      by (unfold alias_name; rewrite E; reflexivity).
    rewrite Hv. exact Hv.
Qed.

(** C7.  Alias normalization is idempotent: with no [supported_comms],
    [paramToCommName] returns a name, changes nothing, and returns that same
    name again when applied to its own result. *)
Theorem paramToCommName_idempotent (name : pystr) (s : state) :
  exists new_name,
    paramToCommName str_lower str_isalpha name None s = (Ret new_name, s)
    /\ paramToCommName str_lower str_isalpha new_name None s
       = (Ret new_name, s).
Proof.
  exists (alias_name str_lower str_isalpha name).
  unfold paramToCommName, bind, ret. cbn.
  rewrite alias_name_idempotent. split; reflexivity.
Qed.

End NameNormalization.

Lemma paramToCommName_idempotent_witness :
  exists new_name,
    paramToCommName ascii_str_lower ascii_isalpha (str "AllReduce") None
      empty_state = (Ret new_name, empty_state)
    /\ paramToCommName ascii_str_lower ascii_isalpha new_name None empty_state
       = (Ret new_name, empty_state).
Proof.
  apply (paramToCommName_idempotent ascii_str_lower ascii_isalpha).
  - intros s _. reflexivity.
  - intros c _. reflexivity.
Defined.

(** ** The heap and the monad *)

Lemma heap_set_nth_same (h : list object) (l : loc) (o x : object) :
  nth_error h l = Some x -> nth_error (heap_set h l o) l = Some o.
Proof.
  revert l; induction h as [|y h IH]; intros [|l]; cbn; try discriminate; auto.
Qed.

Lemma heap_set_nth_other (h : list object) (l l' : loc) (o : object) :
  l <> l' -> nth_error (heap_set h l o) l' = nth_error h l'.
Proof.
  revert l l'; induction h as [|y h IH]; intros [|l] [|l'] H; cbn; auto;
    try congruence.
Qed.

Lemma is_list_new (h : list object) (l : loc) (o : object) :
  is_list h l -> is_list (h ++ [o]) l.
Proof.
  intros [items H]. exists items. rewrite nth_error_app1; [exact H|].
  apply nth_error_Some. congruence.
Qed.

Lemma is_list_fresh (h : list object) : is_list (h ++ [OList []]) (List.length h).
Proof.
  exists []. rewrite nth_error_app2 by lia. rewrite Nat.sub_diag. reflexivity.
Qed.

Lemma is_list_append (h : list object) (l l' : loc) (x : object) (items : list loc) :
  nth_error h l = Some x -> is_list h l' -> is_list (heap_set h l (OList items)) l'.
Proof.
  intros Hx [its H]. destruct (Nat.eq_dec l l') as [<-|Hne].
  - exists items. eapply heap_set_nth_same; eauto.
  - exists its. rewrite heap_set_nth_other; auto.
Qed.


Lemma run_bind {A B} (m : M A) (k : A -> M B) (s s1 : state) (a : A) :
  m s = (Ret a, s1) -> bind m k s = k a s1.
Proof. intros H. unfold bind. rewrite H. reflexivity. Qed.

(** One step of a run: the first action of a sequence returns, as [t] shows. *)
Tactic Notation "step" "by" tactic3(t) := erewrite run_bind; [| t ].

Lemma run_floordiv (a b : Z) (s : state) :
  b <> 0 -> py_floordiv a b s = (Ret (a / b), s).
Proof.
  intros H. unfold py_floordiv. apply Z.eqb_neq in H. rewrite H. reflexivity.
Qed.

Lemma run_alloc (call : event) (s : state) :
  alloc call s = (Ret (List.length (heap s)), after_alloc call s).
Proof. reflexivity. Qed.

Lemma run_alloc_ones (size : sizeArr) (curRankDevice : pystr)
    (dt : torch_dtype) (scaleFactor : Z) (s : state) :
  0 <= size_of size ->
  alloc_ones size curRankDevice dt scaleFactor s
  = (Ret (List.length (heap s)),
     after_alloc (AllocOnes size curRankDevice dt scaleFactor) s).
Proof.
  intros H. unfold alloc_ones. apply Z.ltb_ge in H. rewrite H. reflexivity.
Qed.

Lemma run_new_list (s : state) :
  new_list s = (Ret (List.length (heap s)), after_new_list s).
Proof. reflexivity. Qed.

Lemma run_list_append (l x : loc) (s : state) :
  is_list (heap s) l ->
  exists s',
    list_append l x s = (Ret tt, s')
    /\ trace s' = trace s
    /\ (forall l', is_list (heap s) l' -> is_list (heap s') l').
Proof.
  intros [items H]. unfold list_append. rewrite H.
  eexists. split; [reflexivity|]. split; [reflexivity|].
  intros l' Hl'. cbn [heap]. eapply is_list_append; eauto.
Qed.

Lemma staging_loop (al : Z -> M loc) (mk : Z -> event) (a ws : Z) (l : loc)
    (n : nat) (s : state) :
  ws <> 0 ->
  (forall s0, al (a / ws) s0
              = (Ret (List.length (heap s0)), after_alloc (mk (a / ws)) s0)) ->
  is_list (heap s) l ->
  exists s',
    for_range n (q <- py_floordiv a ws ;; t <- al q ;; list_append l t) s
    = (Ret tt, s')
    /\ trace s' = trace s ++ repeat (mk (a / ws)) n
    /\ (forall l', is_list (heap s) l' -> is_list (heap s') l').
Proof.
  intros Hws Hal. revert s. induction n as [|n IH]; intros s Hl.
  - exists s. cbn. rewrite app_nil_r. auto.
  - cbn [for_range].
    destruct (run_list_append l (List.length (heap s)) (after_alloc (mk (a / ws)) s))
      as (s1 & Happ & Htr1 & Hpres1).
    { apply is_list_new. exact Hl. }
    destruct (IH s1) as (s' & Hrun & Htr & Hpres).
    { apply Hpres1. apply is_list_new. exact Hl. }
    exists s'. split; [|split].
    + erewrite run_bind; [exact Hrun|].
      erewrite run_bind; [|apply run_floordiv; exact Hws].
      step by apply Hal.
      exact Happ.
    + rewrite Htr, Htr1. cbn [after_alloc trace repeat].
      rewrite <- app_assoc. reflexivity.
    + intros l' Hl'. apply Hpres, Hpres1. apply is_list_new. exact Hl'.
Qed.

(** ** The staging strategies *)

Section Strategies.
Variables (self : paramCommsBench.t) (curComm : commsArgs.t)
          (commsParams : commsParamsHolder.t).
Variables (numElementsIn numElementsOut world_size : Z) (curDevice : pystr)
          (dt : torch_dtype) (scaleFactor : Z).
Hypothesis world_size_pos : 0 < world_size.
Hypothesis numElementsIn_nonneg : 0 <= numElementsIn.
Hypothesis numElementsOut_nonneg : 0 <= numElementsOut.

Let n := range_len world_size.
Let q_in := numElementsIn / world_size.
Let q_out := numElementsOut / world_size.
Let input := input_call self commsParams curDevice.

Lemma ws_nonzero : world_size <> 0.
Proof. lia. Qed.

Lemma _prep_all_to_allv_stages (ipTensor : loc) (s : state) :
  stages (_prep_all_to_allv self ipTensor curComm commsParams numElementsIn
            numElementsOut world_size curDevice dt scaleFactor true) s
    [AllocRandom (SizeList numElementsOut) curDevice dt scaleFactor].
Proof.
  unfold stages, _prep_all_to_allv. do 3 eexists. split; [reflexivity|].
  reflexivity.
Qed.

Lemma run_input (dt' : torch_dtype) (size : sizeArr) (s : state) :
  0 <= size_of size ->
  (if commsParamsHolder.dcheck commsParams =? 1
   then alloc_ones size curDevice dt' (paramCommsBench.initVal self)
   else alloc_random size curDevice dt' scaleFactor) s
  = (Ret (List.length (heap s)), after_alloc (input dt' scaleFactor size) s).
Proof.
  intros Hsize. unfold input, input_call.
  destruct (commsParamsHolder.dcheck commsParams =? 1);
    [apply run_alloc_ones; exact Hsize | reflexivity].
Qed.

Lemma run_input_floordiv (a : Z) (s : state) :
  0 <= a ->
  (if commsParamsHolder.dcheck commsParams =? 1
   then q <- py_floordiv a world_size ;;
        alloc_ones (SizeList q) curDevice dt (paramCommsBench.initVal self)
   else q <- py_floordiv a world_size ;;
        alloc_random (SizeList q) curDevice dt scaleFactor) s
  = (Ret (List.length (heap s)),
     after_alloc (input dt scaleFactor (SizeList (a / world_size))) s).
Proof.
  intros Ha. unfold input, input_call.
  destruct (commsParamsHolder.dcheck commsParams =? 1);
    (erewrite run_bind; [|apply run_floordiv, ws_nonzero]);
    [apply run_alloc_ones; cbn [size_of]; apply Z.div_pos; lia | reflexivity].
Qed.

(** The loop that fills the input list, under either branch of the
    [dcheck] test. *)
Lemma run_input_loop (dt' : torch_dtype) (a : Z) (l : loc) (s : state) :
  0 <= a -> is_list (heap s) l ->
  exists s',
    (if commsParamsHolder.dcheck commsParams =? 1 then
       for_range n
         (q <- py_floordiv a world_size ;;
          t <- alloc_ones (SizeList q) curDevice dt'
                 (paramCommsBench.initVal self) ;;
          list_append l t)
     else
       for_range n
         (q <- py_floordiv a world_size ;;
          t <- alloc_random (SizeList q) curDevice dt' scaleFactor ;;
          list_append l t)) s
    = (Ret tt, s')
    /\ trace s'
       = trace s ++ repeat (input dt' scaleFactor (SizeList (a / world_size))) n
    /\ (forall l', is_list (heap s) l' -> is_list (heap s') l').
Proof.
  intros Ha Hl. unfold input, input_call.
  destruct (commsParamsHolder.dcheck commsParams =? 1).
  - apply (staging_loop
             (fun q => alloc_ones (SizeList q) curDevice dt'
                         (paramCommsBench.initVal self))
             (fun q => AllocOnes (SizeList q) curDevice dt'
                         (paramCommsBench.initVal self))
             a world_size l n s ws_nonzero); [|exact Hl].
    intros s0. apply run_alloc_ones. cbn [size_of]. apply Z.div_pos; lia.
  - apply (staging_loop
             (fun q => alloc_random (SizeList q) curDevice dt' scaleFactor)
             (fun q => AllocRandom (SizeList q) curDevice dt' scaleFactor)
             a world_size l n s ws_nonzero); [|exact Hl].
    intros s0. reflexivity.
Qed.

Lemma run_random_loop (a : Z) (l : loc) (s : state) :
  is_list (heap s) l ->
  exists s',
    for_range n
      (q <- py_floordiv a world_size ;;
       t <- alloc_random (SizeList q) curDevice dt scaleFactor ;;
       list_append l t) s
    = (Ret tt, s')
    /\ trace s'
       = trace s
         ++ repeat (AllocRandom (SizeList (a / world_size)) curDevice dt
                      scaleFactor) n
    /\ (forall l', is_list (heap s) l' -> is_list (heap s') l').
Proof.
  intros Hl.
  apply (staging_loop
           (fun q => alloc_random (SizeList q) curDevice dt scaleFactor)
           (fun q => AllocRandom (SizeList q) curDevice dt scaleFactor)
           a world_size l n s ws_nonzero); [|exact Hl].
  intros s0. reflexivity.
Qed.

Lemma _prep_all_to_all_stages (ipTensor : loc) (s : state) :
  stages (_prep_all_to_all self ipTensor curComm commsParams numElementsIn
            numElementsOut world_size curDevice dt scaleFactor true) s
    (repeat (input (commsParamsHolder.dtype commsParams) scaleFactor (SizeList q_in)) n
     ++ repeat (AllocRandom (SizeList q_out) curDevice dt scaleFactor) n).
Proof.
  unfold stages, _prep_all_to_all.
  set (s1 := after_new_list s). set (s2 := after_new_list s1).
  assert (Hip : is_list (heap s2) (List.length (heap s)))
    by (apply is_list_new, is_list_fresh).
  assert (Hop : is_list (heap s2) (List.length (heap s1)))
    by apply is_list_fresh.
  destruct (run_input_loop (commsParamsHolder.dtype commsParams) numElementsIn
              (List.length (heap s)) s2 numElementsIn_nonneg Hip)
    as (s3 & Hrun3 & Htr3 & Hpres3).
  destruct (run_random_loop numElementsOut (List.length (heap s1)) s3
              (Hpres3 _ Hop))
    as (s4 & Hrun4 & Htr4 & Hpres4).
  exists (List.length (heap s)), (List.length (heap s1)), s4. split.
  - step by apply run_new_list.
    step by apply run_new_list.
    erewrite run_bind; [reflexivity|].
    erewrite run_bind; [exact Hrun4|].
    exact Hrun3.
  - rewrite Htr4, Htr3. rewrite <- app_assoc. reflexivity.
Qed.

Lemma _prep_all_gather_stages (ipTensor : loc) (s : state) :
  stages (_prep_all_gather self ipTensor curComm commsParams numElementsIn
            numElementsOut world_size curDevice dt scaleFactor true) s
    (input dt scaleFactor (SizeList q_in)
     :: repeat (AllocRandom (SizeList q_in) curDevice dt scaleFactor) n).
Proof.
  unfold stages, _prep_all_gather.
  set (s1 := after_new_list s).
  set (s2 := after_alloc (input dt scaleFactor (SizeList q_in)) s1).
  assert (Hop : is_list (heap s2) (List.length (heap s)))
    by (apply is_list_new, is_list_fresh).
  destruct (run_random_loop numElementsIn (List.length (heap s)) s2 Hop)
    as (s3 & Hrun3 & Htr3 & _).
  exists (List.length (heap s1)), (List.length (heap s)), s3. split.
  - step by apply run_new_list.
    erewrite run_bind; [reflexivity|].
    step by (apply run_input_floordiv; exact numElementsIn_nonneg).
    erewrite run_bind; [reflexivity|exact Hrun3].
  - rewrite Htr3. cbn [s2 after_alloc trace s1 after_new_list].
    rewrite <- app_assoc. reflexivity.
Qed.

Lemma _prep_all_gather_base_stages (ipTensor : loc) (s : state) :
  stages (_prep_all_gather_base self ipTensor curComm commsParams numElementsIn
            numElementsOut world_size curDevice dt scaleFactor true) s
    [input dt scaleFactor (SizeList q_in);
     AllocRandom (SizeInt numElementsIn) curDevice dt scaleFactor].
Proof.
  unfold stages, _prep_all_gather_base. do 3 eexists. split.
  - step by apply run_new_list.
    step by (apply run_input_floordiv; exact numElementsIn_nonneg).
    step by apply run_alloc. reflexivity.
  - cbn [after_alloc trace after_new_list]. rewrite <- app_assoc. reflexivity.
Qed.

Lemma _prep_reduce_scatter_stages (ipTensor : loc) (s : state) :
  stages (_prep_reduce_scatter self ipTensor curComm commsParams numElementsIn
            numElementsOut world_size curDevice dt scaleFactor true) s
    (repeat (input (commsParamsHolder.dtype commsParams) scaleFactor (SizeList q_out)) n
     ++ [AllocRandom (SizeList q_out) curDevice dt scaleFactor]).
Proof.
  unfold stages, _prep_reduce_scatter.
  set (s1 := after_new_list s). set (s2 := after_new_list s1).
  assert (Hip : is_list (heap s2) (List.length (heap s)))
    by (apply is_list_new, is_list_fresh).
  destruct (run_input_loop (commsParamsHolder.dtype commsParams) numElementsOut
              (List.length (heap s)) s2 numElementsOut_nonneg Hip)
    as (s3 & Hrun3 & Htr3 & _).
  do 3 eexists. split.
  - step by apply run_new_list.
    step by apply run_new_list.
    erewrite run_bind; [|exact Hrun3].
    step by apply run_floordiv, ws_nonzero.
    step by apply run_alloc. reflexivity.
  - cbn [after_alloc trace]. rewrite Htr3. rewrite <- app_assoc. reflexivity.
Qed.

Lemma _prep_reduce_scatter_base_stages (ipTensor : loc) (s : state) :
  stages (_prep_reduce_scatter_base self ipTensor curComm commsParams numElementsIn
            numElementsOut world_size curDevice dt scaleFactor true) s
    [input (commsParamsHolder.dtype commsParams) scaleFactor (SizeInt numElementsOut);
     AllocRandom (SizeList q_out) curDevice dt scaleFactor].
Proof.
  unfold stages, _prep_reduce_scatter_base. do 3 eexists. split.
  - step by apply run_new_list.
    step by apply run_new_list.
    step by (apply run_input; exact numElementsOut_nonneg).
    step by apply run_floordiv, ws_nonzero.
    step by apply run_alloc. reflexivity.
  - cbn [after_alloc trace after_new_list]. rewrite <- app_assoc. reflexivity.
Qed.
End Strategies.

Lemma input_call_is_alloc (self : paramCommsBench.t)
    (commsParams : commsParamsHolder.t) (curDevice : pystr) (dt : torch_dtype)
    (scaleFactor : Z) (size : sizeArr) :
  is_alloc (input_call self commsParams curDevice dt scaleFactor size) = true.
Proof.
  unfold input_call. destruct (commsParamsHolder.dcheck commsParams =? 1);
    reflexivity.
Qed.

Lemma forallb_repeat {A : Type} (f : A -> bool) (x : A) (n : nat) :
  f x = true -> forallb f (repeat x n) = true.
Proof.
  intros H. induction n as [|n IH]; cbn [repeat forallb]; [reflexivity|].
  rewrite H, IH. reflexivity.
Qed.

Lemma floor_staging_calls_are_allocs (self : paramCommsBench.t)
    (curComm : commsArgs.t) (commsParams : commsParamsHolder.t)
    (commOp : pystr) (calls : list event) :
  dict_get (floor_staging_calls self curComm commsParams) commOp = Some calls ->
  forallb is_alloc calls = true.
Proof.
  unfold floor_staging_calls. cbn [dict_get]. intros H.
  repeat match type of H with
    | (if ?c then _ else _) = _ =>
        destruct c; [injection H as <- | ]
    end; try discriminate;
    rewrite ?forallb_app; cbn [forallb];
    rewrite ?forallb_repeat, ?input_call_is_alloc;
    auto using input_call_is_alloc.
Qed.

(** ** Staging: prepComm *)

Section Staging.
Variable str_lower : pystr -> pystr.
Variable str_isalpha : N -> bool.

Lemma run_paramToCommName (name : pystr) (sc : list pystr) (s : state) :
  str_in (alias_name str_lower str_isalpha name) sc = true ->
  paramToCommName str_lower str_isalpha name (Some sc) s
  = (Ret (alias_name str_lower str_isalpha name), s).
Proof.
  intros H. unfold paramToCommName, bind. rewrite H. reflexivity.
Qed.

(** C1.  When the requested operation, once normalized, is not among the
    collectives the backend declares, [prepComm] logs the error message and
    exits the process with it; the heap is untouched and the trace gains
    nothing but that log record, so no buffer was allocated. *)
Theorem prepComm_unsupported_exits (self : paramCommsBench.t)
    (curComm : commsArgs.t) (commsParams : commsParamsHolder.t)
    (allocate : bool) (s : state) :
  let name := requested_name curComm commsParams in
  let supported :=
    backendFunctions.collectiveFunc (paramCommsBench.backendFuncs self) in
  str_in (alias_name str_lower str_isalpha name) supported = false ->
  prepComm str_lower str_isalpha self curComm commsParams allocate s
  = (Exit (ExitMsg (msg_not_supported_comm name supported)),
     {| heap := heap s;
        trace := trace s ++ [LogError (msg_not_supported_comm name supported)];
        ipTensor_split := ipTensor_split s;
        opTensor_split := opTensor_split s |})
  /\ allocs (trace s ++ [LogError (msg_not_supported_comm name supported)])
     = allocs (trace s).
Proof.
  intros name supported H. split.
  - unfold prepComm, paramToCommName, bind.
    fold name. fold supported. rewrite H. reflexivity.
  - unfold allocs. rewrite filter_app. cbn. apply app_nil_r.
Qed.

(** C6 (amended).  For a supported operation that is neither [wait] nor
    [barrier] and has no entry in the dispatch table, and an element count
    that is not negative when [allocate] is set, [prepComm] returns the
    input buffer twice: both components are the same location.  The only
    objects it creates are the discarded [[]] of line 1532 and the input
    itself, and the only allocation call is the one for the input (none at
    all when [allocate] is off, where the input is a fresh [[]]). *)
Theorem prepComm_in_place (self : paramCommsBench.t)
    (curComm : commsArgs.t) (commsParams : commsParamsHolder.t)
    (allocate : bool) (s : state) :
  let commOp :=
    alias_name str_lower str_isalpha (requested_name curComm commsParams) in
  let numElementsOut := commsArgs.outMsgSize curComm in
  let call :=
    input_call self commsParams (commsParamsHolder.device commsParams)
      (commsParamsHolder.dtype commsParams) (numElementsOut * numElementsOut)
      (SizeList (commsArgs.inMsgSize curComm)) in
  let ipTensor := S (List.length (heap s)) in
  str_in commOp
    (backendFunctions.collectiveFunc (paramCommsBench.backendFuncs self)) = true ->
  str_in commOp (map str ["wait"; "barrier"]%string) = false ->
  dict_get (dispatchDict self) commOp = None ->
  (allocate = true -> 0 <= commsArgs.inMsgSize curComm) ->
  prepComm str_lower str_isalpha self curComm commsParams allocate s
  = (Ret (ipTensor, ipTensor),
     {| heap := heap s ++ [OList []; if allocate then OTensor call else OList []];
        trace := trace s ++ (if allocate then [call] else []);
        ipTensor_split := ipTensor_split s;
        opTensor_split := opTensor_split s |}).
Proof.
  intros commOp nOut call ipTensor Hsup Hwb Hd Hin.
  unfold prepComm.
  step by (apply run_paramToCommName; exact Hsup).
  fold commOp. rewrite Hwb.
  step by apply run_new_list.
  destruct allocate.
  - step by (apply run_input; exact (Hin eq_refl)).
    rewrite Hd. unfold ret, after_alloc, after_new_list. cbn.
    rewrite <- app_assoc, length_app, Nat.add_comm. reflexivity.
  - step by apply run_new_list.
    rewrite Hd. unfold ret, after_new_list. cbn.
    rewrite <- app_assoc, length_app, Nat.add_comm, app_nil_r. reflexivity.
Qed.

(** [wait] and [barrier] move no data: two fresh empty lists come back, two
    distinct objects, and nothing is allocated. *)
Lemma prepComm_wait_barrier (self : paramCommsBench.t)
    (curComm : commsArgs.t) (commsParams : commsParamsHolder.t)
    (allocate : bool) (s : state) :
  let commOp :=
    alias_name str_lower str_isalpha (requested_name curComm commsParams) in
  str_in commOp
    (backendFunctions.collectiveFunc (paramCommsBench.backendFuncs self)) = true ->
  str_in commOp (map str ["wait"; "barrier"]%string) = true ->
  prepComm str_lower str_isalpha self curComm commsParams allocate s
  = (Ret (List.length (heap s), S (List.length (heap s))),
     {| heap := heap s ++ [OList []; OList []];
        trace := trace s;
        ipTensor_split := ipTensor_split s;
        opTensor_split := opTensor_split s |}).
Proof.
  intros commOp Hsup Hwb. unfold prepComm.
  step by (apply run_paramToCommName; exact Hsup).
  fold commOp. rewrite Hwb.
  step by apply run_new_list. step by apply run_new_list.
  unfold ret, after_new_list. cbn.
  rewrite <- app_assoc, length_app, Nat.add_comm. reflexivity.
Qed.

Lemma prepComm_dispatch (self : paramCommsBench.t) (curComm : commsArgs.t)
    (commsParams : commsParamsHolder.t) (s : state)
    (f : strategy) (calls : list event) :
  let commOp := alias_name str_lower str_isalpha (requested_name curComm commsParams) in
  let numElementsIn := commsArgs.inMsgSize curComm in
  let numElementsOut := commsArgs.outMsgSize curComm in
  let world_size :=
    collectiveArgsHolder.world_size (paramCommsBench.collectiveArgs self) in
  let dtype := commsParamsHolder.dtype commsParams in
  let curDevice := commsParamsHolder.device commsParams in
  let scaleFactor := numElementsOut * numElementsOut in
  str_in commOp (backendFunctions.collectiveFunc (paramCommsBench.backendFuncs self)) = true ->
  str_in commOp (map str ["wait"; "barrier"]%string) = false ->
  dict_get (dispatchDict self) commOp = Some f ->
  0 <= numElementsIn ->
  (forall ip s1,
      stages (f ip curComm commsParams numElementsIn numElementsOut world_size
                curDevice dtype scaleFactor true) s1 calls) ->
  stages (prepComm str_lower str_isalpha self curComm commsParams true) s
    (input_call self commsParams curDevice dtype scaleFactor (SizeList numElementsIn)
     :: calls).
Proof.
  intros commOp nIn nOut ws dtype dev sf Hsup Hwb Hd Hin Hf.
  destruct (Hf (List.length (heap (after_new_list s)))
              (after_alloc (input_call self commsParams dev dtype sf (SizeList nIn))
                 (after_new_list s)))
    as (ip & op & s' & Hrun & Htr).
  exists ip, op, s'. split.
  - unfold prepComm.
    step by (apply run_paramToCommName; exact Hsup).
    fold commOp. rewrite Hwb.
    step by apply run_new_list.
    step by (apply run_input; exact Hin).
    rewrite Hd. exact Hrun.
  - rewrite Htr. cbn [after_alloc after_new_list trace].
    rewrite <- app_assoc. reflexivity.
Qed.

Lemma prepComm_floor_division_run (self : paramCommsBench.t)
    (curComm : commsArgs.t) (commsParams : commsParamsHolder.t) (s : state)
    (calls : list event) :
  let commOp :=
    alias_name str_lower str_isalpha (requested_name curComm commsParams) in
  let numElementsOut := commsArgs.outMsgSize curComm in
  str_in commOp
    (backendFunctions.collectiveFunc (paramCommsBench.backendFuncs self)) = true ->
  dict_get (floor_staging_calls self curComm commsParams) commOp = Some calls ->
  0 < collectiveArgsHolder.world_size (paramCommsBench.collectiveArgs self) ->
  0 <= commsArgs.inMsgSize curComm ->
  0 <= commsArgs.outMsgSize curComm ->
  stages (prepComm str_lower str_isalpha self curComm commsParams true) s
    (input_call self commsParams (commsParamsHolder.device commsParams)
       (commsParamsHolder.dtype commsParams)
       (numElementsOut * numElementsOut)
       (SizeList (commsArgs.inMsgSize curComm))
     :: calls).
Proof.
  intros commOp nOut Hsup Hcalls Hws Hin Hout.
  unfold floor_staging_calls in Hcalls. cbn [dict_get] in Hcalls.
  repeat match type of Hcalls with
    | (if pystr_eqb ?a ?b then _ else _) = _ =>
        destruct (pystr_eqb a b) eqn:E;
        [ apply pystr_eqb_eq in E; injection Hcalls as <-;
          eapply prepComm_dispatch;
          [ exact Hsup
          | fold commOp; rewrite E; reflexivity
          | fold commOp; rewrite E; reflexivity
          | exact Hin
          | intros ip s1 ]
        | clear E ]
    end; try discriminate.
  - apply _prep_all_to_all_stages; assumption.
  - apply _prep_all_to_allv_stages.
  - apply _prep_all_gather_stages; assumption.
  - apply _prep_all_gather_base_stages; assumption.
  - apply _prep_reduce_scatter_stages; assumption.
  - apply _prep_reduce_scatter_base_stages; assumption.
  - apply _prep_all_gather_stages; assumption.
  - apply _prep_reduce_scatter_stages; assumption.
Qed.

(** C2 (amended).  Staging makes no divisibility check.  For each of
    [all_to_all], [all_to_allv], [all_gather], [all_gather_base],
    [reduce_scatter], [reduce_scatter_base], [gather] and [scatter], with a
    positive world size and element counts that are not negative, divisible
    by the world size or not, [prepComm] returns a buffer pair, and what it
    added to the trace is the allocation of the input followed by the
    strategy's allocations, whose per-rank sizes are the floor quotients
    [numElements // world_size]; nothing is logged. *)
Theorem prepComm_stages_by_floor_division (self : paramCommsBench.t)
    (curComm : commsArgs.t) (commsParams : commsParamsHolder.t) (s : state)
    (calls : list event) :
  let commOp :=
    alias_name str_lower str_isalpha (requested_name curComm commsParams) in
  let numElementsOut := commsArgs.outMsgSize curComm in
  let input :=
    input_call self commsParams (commsParamsHolder.device commsParams)
      (commsParamsHolder.dtype commsParams)
      (numElementsOut * numElementsOut)
      (SizeList (commsArgs.inMsgSize curComm)) in
  str_in commOp
    (backendFunctions.collectiveFunc (paramCommsBench.backendFuncs self)) = true ->
  dict_get (floor_staging_calls self curComm commsParams) commOp = Some calls ->
  0 < collectiveArgsHolder.world_size (paramCommsBench.collectiveArgs self) ->
  0 <= commsArgs.inMsgSize curComm ->
  0 <= commsArgs.outMsgSize curComm ->
  exists ip op s',
    prepComm str_lower str_isalpha self curComm commsParams true s
    = (Ret (ip, op), s')
    /\ trace s' = trace s ++ input :: calls
    /\ forallb is_alloc (input :: calls) = true.
Proof.
  intros commOp nOut input Hsup Hcalls Hws Hin Hout.
  destruct (prepComm_floor_division_run self curComm commsParams s calls
              Hsup Hcalls Hws Hin Hout) as (ip & op & s' & Hrun & Htr).
  exists ip, op, s'. split; [exact Hrun|]. split; [exact Htr|].
  subst input. cbn [forallb]. rewrite input_call_is_alloc. cbn [andb].
  eapply floor_staging_calls_are_allocs; eauto.
Qed.

End Staging.

Lemma prepComm_unsupported_exits_witness :
  str_in
    (alias_name ascii_str_lower ascii_isalpha
       (requested_name (comm 8 8) (params "all_sum" 0)))
    base_collectiveFunc = false
  /\ prepComm ascii_str_lower ascii_isalpha (bench 0 2) (comm 8 8)
       (params "all_sum" 0) true empty_state
     = (Exit (ExitMsg (msg_not_supported_comm (str "all_sum") base_collectiveFunc)),
        {| heap := [];
           trace := [LogError (msg_not_supported_comm (str "all_sum")
                                 base_collectiveFunc)];
           ipTensor_split := [];
           opTensor_split := [] |})
  /\ allocs [LogError (msg_not_supported_comm (str "all_sum") base_collectiveFunc)]
     = [].
Proof.
  split; [reflexivity|].
  apply (prepComm_unsupported_exits ascii_str_lower ascii_isalpha (bench 0 2)
           (comm 8 8) (params "all_sum" 0) true empty_state).
  reflexivity.
Defined.

(** The membership test is made on the normalized name: the alias
    [allreduce] stands for the supported [all_reduce], and staging goes
    ahead. *)
Example prepComm_alias_is_supported :
  str_in (str "allreduce") base_collectiveFunc = false
  /\ prepComm ascii_str_lower ascii_isalpha (bench 0 2) (comm 8 8)
       (params "allreduce" 1) true empty_state
     = (Ret (1%nat, 1%nat),
        {| heap := [OList [];
                    OTensor (AllocOnes (SizeList 8) (str "cpu") torch_float32 1)];
           trace := [AllocOnes (SizeList 8) (str "cpu") torch_float32 1];
           ipTensor_split := [];
           opTensor_split := [] |}).
Proof. split; reflexivity. Qed.

Lemma prepComm_in_place_witness :
  prepComm ascii_str_lower ascii_isalpha (bench 0 2) (comm 8 8)
    (params "all_reduce" 1) true empty_state
  = (Ret (1%nat, 1%nat),
     {| heap := [OList [];
                 OTensor (AllocOnes (SizeList 8) (str "cpu") torch_float32 1)];
        trace := [AllocOnes (SizeList 8) (str "cpu") torch_float32 1];
        ipTensor_split := [];
        opTensor_split := [] |}).
Proof.
  apply (prepComm_in_place ascii_str_lower ascii_isalpha (bench 0 2) (comm 8 8)
           (params "all_reduce" 1) true empty_state);
    [reflexivity | reflexivity | reflexivity | intros _; cbn; lia].
Defined.

(** A negative element count is refused by [alloc_ones]: with
    [dcheck = 1] staging stops with [RuntimeError] after the first [[]],
    and no buffer is allocated. *)
Example prepComm_negative_count_raises :
  prepComm ascii_str_lower ascii_isalpha (bench 0 2) (comm (-1) (-1))
    (params "all_reduce" 1) true empty_state
  = (Raise RuntimeError,
     {| heap := [OList []]; trace := [];
        ipTensor_split := []; opTensor_split := [] |}).
Proof. reflexivity. Qed.

(** [barrier] is supported and has no entry in the dispatch table, yet the two
    buffers returned for it are two distinct empty lists. *)
Lemma prepComm_barrier_counterexample :
  str_in
    (alias_name ascii_str_lower ascii_isalpha
       (requested_name (comm 8 8) (params "barrier" 0)))
    base_collectiveFunc = true
  /\ dict_get (dispatchDict (bench 0 2))
       (alias_name ascii_str_lower ascii_isalpha
          (requested_name (comm 8 8) (params "barrier" 0))) = None
  /\ exists ip op s',
       prepComm ascii_str_lower ascii_isalpha (bench 0 2) (comm 8 8)
         (params "barrier" 0) true empty_state = (Ret (ip, op), s')
       /\ ip <> op
       /\ heap s' = [OList []; OList []].
Proof.
  split; [reflexivity|]. split; [reflexivity|].
  exists 0%nat, 1%nat. eexists. split; [reflexivity|].
  split; [discriminate | reflexivity].
Qed.

Lemma prepComm_stages_by_floor_division_witness :
  exists ip op s',
    prepComm ascii_str_lower ascii_isalpha (bench 0 2) (comm 5 5)
      (params "all_gather" 0) true empty_state = (Ret (ip, op), s')
    /\ trace s'
       = [AllocRandom (SizeList 5) (str "cpu") torch_float32 25;
          AllocRandom (SizeList 2) (str "cpu") torch_float32 25;
          AllocRandom (SizeList 2) (str "cpu") torch_float32 25;
          AllocRandom (SizeList 2) (str "cpu") torch_float32 25]
    /\ forallb is_alloc
         [AllocRandom (SizeList 5) (str "cpu") torch_float32 25;
          AllocRandom (SizeList 2) (str "cpu") torch_float32 25;
          AllocRandom (SizeList 2) (str "cpu") torch_float32 25;
          AllocRandom (SizeList 2) (str "cpu") torch_float32 25] = true.
Proof.
  apply (prepComm_stages_by_floor_division ascii_str_lower ascii_isalpha
           (bench 0 2) (comm 5 5) (params "all_gather" 0) empty_state
           [AllocRandom (SizeList 2) (str "cpu") torch_float32 25;
            AllocRandom (SizeList 2) (str "cpu") torch_float32 25;
            AllocRandom (SizeList 2) (str "cpu") torch_float32 25]).
  - reflexivity.
  - reflexivity.
  - reflexivity.
  - cbn. lia.
  - cbn. lia.
Defined.

(** Five elements over two ranks: nothing is reported, and buffers of
    [5 // 2 = 2] elements are allocated. *)
Lemma prepComm_non_divisible_counterexample :
  5 mod 2 <> 0
  /\ prepComm ascii_str_lower ascii_isalpha (bench 0 2) (comm 5 5)
       (params "all_gather" 0) true empty_state
     = (Ret (3%nat, 2%nat),
        {| heap :=
             [OList [];
              OTensor (AllocRandom (SizeList 5) (str "cpu") torch_float32 25);
              OList [4%nat; 5%nat];
              OTensor (AllocRandom (SizeList 2) (str "cpu") torch_float32 25);
              OTensor (AllocRandom (SizeList 2) (str "cpu") torch_float32 25);
              OTensor (AllocRandom (SizeList 2) (str "cpu") torch_float32 25)];
           trace :=
             [AllocRandom (SizeList 5) (str "cpu") torch_float32 25;
              AllocRandom (SizeList 2) (str "cpu") torch_float32 25;
              AllocRandom (SizeList 2) (str "cpu") torch_float32 25;
              AllocRandom (SizeList 2) (str "cpu") torch_float32 25];
           ipTensor_split := [];
           opTensor_split := [] |}).
Proof. split; [discriminate | reflexivity]. Qed.

(** ** Bandwidth: getAlgBW and getBusBW *)

Lemma run_ret {A B} (a : A) (k : A -> M B) (s : state) :
  bind (ret a) k s = k a s.
Proof. reflexivity. Qed.

(** C3.  With [numIters = 0] [getAlgBW] returns [(0.0, 0.0)] and raises
    nothing, whatever the elapsed time and the data size.  With
    [numIters != 0] and a nonzero average [elapsedTimeNS / numIters], it
    returns that average and [dataSize] divided by it (the two [int]s being
    convertible to [float]). *)
Theorem getAlgBW_spec :
  (forall (elapsedTimeNS : float) (dataSize : Z) (s : state),
      getAlgBW elapsedTimeNS dataSize 0 s = (Ret (0%float, 0%float), s))
  /\ (forall (elapsedTimeNS : float) (dataSize numIters : Z) (fIters fSize : float)
             (s : state),
         numIters <> 0 ->
         float_of_int numIters = Some fIters ->
         float_of_int dataSize = Some fSize ->
         (elapsedTimeNS / fIters =? 0)%float = false ->
         getAlgBW elapsedTimeNS dataSize numIters s
         = (Ret ((elapsedTimeNS / fIters)%float,
                 (fSize / (elapsedTimeNS / fIters))%float), s)).
Proof.
  split.
  - intros elapsedTimeNS dataSize s. reflexivity.
  - intros elapsedTimeNS dataSize numIters fIters fSize s Hn HfI HfS Havg.
    unfold getAlgBW.
    apply Z.eqb_neq in Hn. rewrite Hn. cbn [negb].
    erewrite run_bind;
      [|unfold float_div_int; rewrite HfI, Hn; reflexivity].
    rewrite Havg. cbn [negb].
    erewrite run_bind;
      [|unfold int_div_float; rewrite HfS, Havg; reflexivity].
    reflexivity.
Qed.

Lemma getAlgBW_spec_witness :
  getAlgBW 1000%float 4096 10 empty_state
  = (Ret ((1000 / 10)%float, (4096 / (1000 / 10))%float), empty_state).
Proof.
  apply (proj2 getAlgBW_spec 1000%float 4096 10 10%float 4096%float empty_state).
  - lia.
  - reflexivity.
  - reflexivity.
  - reflexivity.
Defined.

(** A run that took no measurable time reports zero bandwidth as well. *)
Lemma getAlgBW_zero_average (elapsedTimeNS : float) (dataSize numIters : Z)
    (fIters : float) (s : state) :
  numIters <> 0 ->
  float_of_int numIters = Some fIters ->
  (elapsedTimeNS / fIters =? 0)%float = true ->
  getAlgBW elapsedTimeNS dataSize numIters s
  = (Ret ((elapsedTimeNS / fIters)%float, 0%float), s).
Proof.
  intros Hn HfI Havg. unfold getAlgBW.
  apply Z.eqb_neq in Hn. rewrite Hn. cbn [negb].
  erewrite run_bind; [|unfold float_div_int; rewrite HfI, Hn; reflexivity].
  rewrite Havg. reflexivity.
Qed.

(** Multiplying a binary64 number by [1.0] gives it back, bit for bit. *)
Lemma digits2_pos_shift52 (m : positive) :
  Z.pos (digits2_pos (Pos.iter xO m 52)) = Z.pos (digits2_pos m) + 52.
Proof. cbn [Pos.iter digits2_pos]. lia. Qed.

Lemma shr_shift52 (m : positive) :
  iter_pos shr_1 52 (Build_shr_record (Z.pos (Pos.iter xO m 52)) false false)
  = Build_shr_record (Z.pos m) false false.
Proof. reflexivity. Qed.

Lemma SF64mul_one_r (x : spec_float) :
  valid_binary x = true ->
  SF64mul x (S754_finite false 4503599627370496 (-52)) = x.
Proof.
  destruct x as [sx | sx | | sx m e]; cbn [SpecFloat.valid_binary]; intros Hv;
    try (unfold SF64mul, SFmul; rewrite ?xorb_false_r; reflexivity).
  unfold bounded, canonical_mantissa in Hv.
  apply andb_true_iff in Hv as [Hc Hb]. apply Z.eqb_eq in Hc.
  unfold SF64mul, SFmul. rewrite xorb_false_r, Pos.mul_comm.
  change (4503599627370496 * m)%positive with (Pos.iter xO m 52%positive).
  unfold binary_round_aux, shr_fexp. cbn [Zdigits2].
  rewrite digits2_pos_shift52.
  replace (Z.pos (digits2_pos m) + 52 + (e + -52))
    with (Z.pos (digits2_pos m) + e) by lia.
  rewrite Hc. replace (e - (e + -52)) with 52 by lia.
  cbn [shr shr_record_of_loc]. rewrite shr_shift52.
  cbn [shr_m loc_of_shr_record round_nearest_even Zdigits2 shr_record_of_loc].
  replace (e + -52 + 52) with e by lia.
  rewrite Hc, Z.sub_diag. cbn [shr shr_m]. rewrite Hb. reflexivity.
Qed.

Lemma float_mul_one_r (x : float) : (x * 1)%float = x.
Proof.
  apply Prim2SF_inj. rewrite mul_spec.
  change (Prim2SF 1) with (S754_finite false 4503599627370496 (-52)).
  apply SF64mul_one_r, Prim2SF_valid.
Qed.

Section BusBandwidth.

Variable int_truediv : Z -> Z -> option float.

(** C10.  With [world_size = 0] [getBusBW] divides nothing: the multiplier
    stays [1.0] and the algorithmic bandwidth comes back unchanged, for
    every collective name; for the names the function knows, nothing is
    logged either. *)
Theorem getBusBW_world_size_zero (collective : pystr) (algBW : float)
    (collectiveArgs : collectiveArgsHolder.t) (s : state) :
  collectiveArgsHolder.world_size collectiveArgs = 0 ->
  fst (getBusBW int_truediv collective algBW collectiveArgs s) = Ret algBW
  /\ (str_in collective
        (map str ["all_reduce"; "all_to_all"; "all_to_allv"; "gather";
                  "all_gather"; "reduce_scatter"; "reduce_scatter_base";
                  "scatter"; "all_gather_base"; "reduce"; "broadcast";
                  "incast"; "multicast"]%string) = true ->
      getBusBW int_truediv collective algBW collectiveArgs s = (Ret algBW, s)).
Proof.
  intros Hws. unfold getBusBW. rewrite Hws. cbn [Z.eqb negb].
  assert (Hsplit :
    str_in collective
      (map str ["all_reduce"; "all_to_all"; "all_to_allv"; "gather";
                "all_gather"; "reduce_scatter"; "reduce_scatter_base";
                "scatter"; "all_gather_base"; "reduce"; "broadcast";
                "incast"; "multicast"]%string)
    = pystr_eqb collective (str "all_reduce")
      || (str_in collective
            (map str ["all_to_all"; "all_to_allv"; "gather"; "all_gather";
                      "reduce_scatter"; "reduce_scatter_base"; "scatter";
                      "all_gather_base"]%string)
          || str_in collective
               (map str ["reduce"; "broadcast"; "incast"; "multicast"]%string))).
  { unfold str_in. rewrite <- existsb_app. reflexivity. }
  rewrite Hsplit. clear Hsplit.
  destruct (pystr_eqb collective (str "all_reduce")).
  { rewrite run_ret. unfold ret. rewrite float_mul_one_r. auto. }
  destruct (str_in collective
              (map str ["all_to_all"; "all_to_allv"; "gather"; "all_gather";
                        "reduce_scatter"; "reduce_scatter_base"; "scatter";
                        "all_gather_base"]%string)).
  { rewrite run_ret. unfold ret. rewrite float_mul_one_r. auto. }
  destruct (str_in collective
              (map str ["reduce"; "broadcast"; "incast"; "multicast"]%string)).
  { auto. }
  split; [reflexivity | discriminate].
Qed.

End BusBandwidth.

Lemma getBusBW_world_size_zero_witness :
  fst (getBusBW small_int_truediv (str "all_reduce") 12.5%float
         {| collectiveArgsHolder.world_size := 0;
            collectiveArgsHolder.src_ranks := None |} empty_state)
  = Ret 12.5%float
  /\ (str_in (str "all_reduce")
        (map str ["all_reduce"; "all_to_all"; "all_to_allv"; "gather";
                  "all_gather"; "reduce_scatter"; "reduce_scatter_base";
                  "scatter"; "all_gather_base"; "reduce"; "broadcast";
                  "incast"; "multicast"]%string) = true ->
      getBusBW small_int_truediv (str "all_reduce") 12.5%float
        {| collectiveArgsHolder.world_size := 0;
           collectiveArgsHolder.src_ranks := None |} empty_state
      = (Ret 12.5%float, empty_state)).
Proof.
  apply (getBusBW_world_size_zero small_int_truediv (str "all_reduce")
           12.5%float
           {| collectiveArgsHolder.world_size := 0;
              collectiveArgsHolder.src_ranks := None |} empty_state).
  reflexivity.
Defined.

(** ** Validation: dcheck *)

Section Validation.

Variable torch_eq : torch_dtype -> scalar -> Z -> bool.

Lemma check_values_ok (dt : torch_dtype) (expRes : Z)
    (mk : nat -> scalar -> message) (vals : list scalar) (index : nat)
    (s : state) :
  forallb (fun v => torch_eq dt v expRes) vals = true ->
  check_values torch_eq dt expRes mk index vals s = (Ret tt, s).
Proof.
  revert index. induction vals as [|v vals IH]; intros index H;
    cbn [check_values]; [reflexivity|].
  cbn [forallb] in H. apply andb_true_iff in H as [Hv Hrest].
  rewrite Hv. cbn [negb]. apply IH, Hrest.
Qed.

(** The loop stops at the first element that differs from [expRes]. *)
Lemma check_values_raise (dt : torch_dtype) (expRes : Z)
    (mk : nat -> scalar -> message) (vals : list scalar) (index : nat)
    (s : state) :
  forallb (fun v => torch_eq dt v expRes) vals = false ->
  exists k val,
    nth_error vals k = Some val
    /\ torch_eq dt val expRes = false
    /\ (forall j v, (j < k)%nat -> nth_error vals j = Some v ->
                    torch_eq dt v expRes = true)
    /\ check_values torch_eq dt expRes mk index vals s
       = (Raise (ValueError (mk (index + k)%nat val)), s).
Proof.
  revert index. induction vals as [|v vals IH]; intros index H;
    cbn [forallb] in H; [discriminate|].
  destruct (torch_eq dt v expRes) eqn:Hv.
  - cbn [andb] in H. destruct (IH (S index) H) as (k & val & Hk & Hval & Hlt & Hrun).
    exists (S k), val. split; [exact Hk|]. split; [exact Hval|]. split.
    + intros [|j] v' Hj Hnth; cbn [nth_error] in Hnth.
      * injection Hnth as <-. exact Hv.
      * apply (Hlt j v'); [lia | exact Hnth].
    + cbn [check_values]. rewrite Hv. cbn [negb]. rewrite Hrun.
      replace (S index + k)%nat with (index + S k)%nat by lia. reflexivity.
  - exists 0%nat, v. split; [reflexivity|]. split; [exact Hv|]. split.
    + intros j v' Hj. lia.
    + cbn [check_values]. rewrite Hv. cbn [negb].
      rewrite Nat.add_0_r. reflexivity.
Qed.

(** The guard of lines 1142-1152 for the reduction-style collectives. *)
Lemma reduction_style_guards (self : paramCommsBench.t)
    (commsParams : commsParamsHolder.t) :
  let collective := commsParamsHolder.collective commsParams in
  let global_rank :=
    backendFunctions.get_global_rank (paramCommsBench.backendFuncs self) in
  str_in collective
    (map str ["all_reduce"; "reduce_scatter"; "reduce_scatter_base"]%string) = true
  \/ (collective = str "reduce"
      /\ global_rank = commsParamsHolder.srcOrDst commsParams) ->
  str_in collective
    (map str ["all_reduce"; "reduce_scatter"; "reduce_scatter_base"]%string)
  || ((global_rank =? commsParamsHolder.srcOrDst commsParams)
      && pystr_eqb collective (str "reduce")) = true
  /\ (str_in collective (map str ["incast"; "reduce"; "gather"]%string)
      && negb (global_rank =? commsParamsHolder.srcOrDst commsParams))
     || (str_in collective (map str ["multicast"; "pt2pt"]%string)
         && negb (existsb (Z.eqb global_rank)
                    (commsParamsHolder.dst_ranks commsParams))) = false.
Proof.
  intros collective global_rank [H | [Hc Hr]].
  - split; [rewrite H; reflexivity|].
    unfold str_in in H. cbn [map existsb] in H.
    repeat (apply orb_true_iff in H as [H | H];
            [apply pystr_eqb_eq in H; rewrite H; reflexivity|]).
    discriminate.
  - rewrite Hc, Hr, Z.eqb_refl. split; reflexivity.
Qed.

(** C4.  For a reduction-style collective ([all_reduce], [reduce_scatter],
    [reduce_scatter_base], or [reduce] on the root rank) and a tensor,
    the expected value is [world_size * initVal], or [initVal] for the
    boolean dtype.  [dcheck] returns normally exactly when every element
    equals it; otherwise it raises a [ValueError] that carries the index of
    the first element that differs, that element and the expected value. *)
Theorem dcheck_reduction (self : paramCommsBench.t)
    (commsParams : commsParamsHolder.t) (curSize : Z) (t : Tensor)
    (s : state) :
  let collective := commsParamsHolder.collective commsParams in
  let global_rank :=
    backendFunctions.get_global_rank (paramCommsBench.backendFuncs self) in
  let initVal := paramCommsBench.initVal self in
  let expRes :=
    if dtype_eqb (t_dtype t) torch_bool then initVal
    else collectiveArgsHolder.world_size (paramCommsBench.collectiveArgs self)
         * initVal in
  let equal v := torch_eq (t_dtype t) v expRes in
  str_in collective
    (map str ["all_reduce"; "reduce_scatter"; "reduce_scatter_base"]%string) = true
  \/ (collective = str "reduce"
      /\ global_rank = commsParamsHolder.srcOrDst commsParams) ->
  (dcheck torch_eq self commsParams curSize (ATensor t) s = (Ret tt, s)
   <-> forallb equal (t_data t) = true)
  /\ (forallb equal (t_data t) = false ->
      exists index val,
        nth_error (t_data t) index = Some val
        /\ equal val = false
        /\ (forall j v, (j < index)%nat -> nth_error (t_data t) j = Some v ->
                        equal v = true)
        /\ dcheck torch_eq self commsParams curSize (ATensor t) s
           = (Raise (ValueError
                       (msg_wrong_value curSize collective None index val
                          expRes (ATensor t))), s)).
Proof.
  intros collective global_rank initVal expRes equal H.
  destruct (reduction_style_guards self commsParams H) as [Hred Hskip].
  assert (Hrun :
    dcheck torch_eq self commsParams curSize (ATensor t) s
    = if negb (forallb equal (t_data t))
      then check_values torch_eq (t_dtype t) expRes
             (fun index val =>
                msg_wrong_value curSize collective None index val expRes
                  (ATensor t))
             0%nat (t_data t) s
      else (Ret tt, s)).
  { unfold dcheck. cbv zeta.
    rewrite Hred. step by reflexivity.
    rewrite Hskip. unfold torch_all_eq.
    subst equal expRes initVal collective. cbv beta.
    destruct (forallb _ (t_data t)); reflexivity. }
  split.
  - rewrite Hrun. destruct (forallb equal (t_data t)) eqn:E; cbn [negb].
    + tauto.
    + destruct (check_values_raise (t_dtype t) expRes
                  (fun index val =>
                     msg_wrong_value curSize collective None index val expRes
                       (ATensor t)) (t_data t) 0%nat s E)
        as (k & val & _ & _ & _ & Hraise).
      rewrite Hraise. split; discriminate.
  - intros E. rewrite Hrun, E. cbn [negb].
    destruct (check_values_raise (t_dtype t) expRes
                (fun index val =>
                   msg_wrong_value curSize collective None index val expRes
                     (ATensor t)) (t_data t) 0%nat s E)
      as (k & val & Hk & Hval & Hlt & Hraise).
    exists k, val. repeat split; auto.
Qed.

(** C5.  For [incast] and [gather] away from the root rank, and for
    [multicast] on a rank that is not a destination, [dcheck] returns at
    once: the result is the same for every argument, tensor or list, and
    nothing is raised. *)
Theorem dcheck_skips_other_ranks (self : paramCommsBench.t)
    (commsParams : commsParamsHolder.t) (curSize : Z) (tensor : tensor_arg)
    (s : state) :
  let collective := commsParamsHolder.collective commsParams in
  let global_rank :=
    backendFunctions.get_global_rank (paramCommsBench.backendFuncs self) in
  (str_in collective (map str ["incast"; "gather"]%string) = true
   /\ global_rank <> commsParamsHolder.srcOrDst commsParams)
  \/ (collective = str "multicast"
      /\ ~ In global_rank (commsParamsHolder.dst_ranks commsParams)) ->
  dcheck torch_eq self commsParams curSize tensor s = (Ret tt, s).
Proof.
  intros collective global_rank H. unfold dcheck.
  fold collective. fold global_rank.
  destruct H as [[Hc Hr] | [Hc Hr]].
  - apply Z.eqb_neq in Hr. rewrite Hr.
    unfold str_in in Hc. cbn [map existsb] in Hc.
    repeat (apply orb_true_iff in Hc as [Hc | Hc];
            [apply pystr_eqb_eq in Hc; rewrite Hc; reflexivity|]).
    discriminate.
  - assert (Hd : existsb (Z.eqb global_rank)
                   (commsParamsHolder.dst_ranks commsParams) = false).
    { destruct (existsb _ _) eqn:E; [|reflexivity].
      apply existsb_exists in E as (x & Hin & Hx).
      apply Z.eqb_eq in Hx. subst x. contradiction. }
    rewrite Hc, Hd.
    destruct (global_rank =? commsParamsHolder.srcOrDst commsParams);
      reflexivity.
Qed.

End Validation.

Lemma dcheck_reduction_witness :
  (dcheck scalar_eq_int (bench 0 4) (params "all_reduce" 1) 16
     (ATensor {| t_dtype := torch_int32;
                 t_data := [ScalarInt 4; ScalarInt 3; ScalarInt 5] |})
     empty_state = (Ret tt, empty_state)
   <-> forallb (fun v => scalar_eq_int torch_int32 v 4)
         [ScalarInt 4; ScalarInt 3; ScalarInt 5] = true)
  /\ (forallb (fun v => scalar_eq_int torch_int32 v 4)
        [ScalarInt 4; ScalarInt 3; ScalarInt 5] = false ->
      exists index val,
        nth_error [ScalarInt 4; ScalarInt 3; ScalarInt 5] index = Some val
        /\ scalar_eq_int torch_int32 val 4 = false
        /\ (forall j v, (j < index)%nat ->
                        nth_error [ScalarInt 4; ScalarInt 3; ScalarInt 5] j = Some v ->
                        scalar_eq_int torch_int32 v 4 = true)
        /\ dcheck scalar_eq_int (bench 0 4) (params "all_reduce" 1) 16
             (ATensor {| t_dtype := torch_int32;
                         t_data := [ScalarInt 4; ScalarInt 3; ScalarInt 5] |})
             empty_state
           = (Raise (ValueError
                       (msg_wrong_value 16 (str "all_reduce") None index val 4
                          (ATensor {| t_dtype := torch_int32;
                                      t_data := [ScalarInt 4; ScalarInt 3;
                                                 ScalarInt 5] |}))),
              empty_state)).
Proof.
  apply (dcheck_reduction scalar_eq_int (bench 0 4) (params "all_reduce" 1) 16
           {| t_dtype := torch_int32;
              t_data := [ScalarInt 4; ScalarInt 3; ScalarInt 5] |} empty_state).
  left. reflexivity.
Defined.

(** The first wrong element is the one reported. *)
Example dcheck_reports_first_mismatch :
  dcheck scalar_eq_int (bench 0 4) (params "all_reduce" 1) 16
    (ATensor {| t_dtype := torch_int32;
                t_data := [ScalarInt 4; ScalarInt 3; ScalarInt 5] |})
    empty_state
  = (Raise (ValueError
              (msg_wrong_value 16 (str "all_reduce") None 1 (ScalarInt 3) 4
                 (ATensor {| t_dtype := torch_int32;
                             t_data := [ScalarInt 4; ScalarInt 3;
                                        ScalarInt 5] |}))),
     empty_state).
Proof. reflexivity. Qed.

(** On the boolean dtype the world size does not enter the expected value. *)
Example dcheck_bool_expects_initVal :
  dcheck scalar_eq_int (bench 0 4) (params "all_reduce" 1) 16
    (ATensor {| t_dtype := torch_bool; t_data := [ScalarBool true; ScalarBool true] |})
    empty_state
  = (Ret tt, empty_state).
Proof. reflexivity. Qed.

Lemma dcheck_skips_other_ranks_witness :
  dcheck scalar_eq_int (bench 1 4) (params "gather" 1) 16
    (AList [{| t_dtype := torch_int32; t_data := [ScalarInt 7] |}])
    empty_state
  = (Ret tt, empty_state).
Proof.
  apply (dcheck_skips_other_ranks scalar_eq_int (bench 1 4) (params "gather" 1) 16
           (AList [{| t_dtype := torch_int32; t_data := [ScalarInt 7] |}])
           empty_state).
  left. split; [reflexivity | discriminate].
Defined.

(** ** Quantization arguments: checkQuantArgs *)

Lemma allocs_app_log (tr : list event) (m : message) :
  allocs (tr ++ [LogWarning m]) = allocs tr.
Proof. unfold allocs. rewrite filter_app. cbn. apply app_nil_r. Qed.

(** C8.  With a nonzero embedding dimension (the parser admits 32, 64, 128
    and 256), [checkQuantArgs] raises [NotImplementedError] exactly when the
    collective is outside [all_to_all], [all_to_allv], [reduce], [all_reduce],
    or is [all_to_all]/[all_to_allv] with [blockingFlag != 1], or the dtype is
    not float32; otherwise it returns.  Either way the heap is untouched and
    the trace gains no allocation. *)
Theorem checkQuantArgs_rejects_unsupported (collective : pystr)
    (dt : torch_dtype) (beginSize quant_a2a_embedding_dim blockingFlag : Z)
    (s : state) :
  quant_a2a_embedding_dim <> 0 ->
  let unsupported :=
    negb (str_in collective
            (map str ["all_to_all"; "all_to_allv"; "reduce"; "all_reduce"]%string))
    || (str_in collective (map str ["all_to_all"; "all_to_allv"]%string)
        && negb (blockingFlag =? 1))
    || negb (dtype_eqb dt torch_float32) in
  exists out s',
    checkQuantArgs collective dt beginSize quant_a2a_embedding_dim blockingFlag s
    = (out, s')
    /\ heap s' = heap s
    /\ allocs (trace s') = allocs (trace s)
    /\ ((exists m, out = Raise (NotImplementedError m)) <-> unsupported = true)
    /\ (unsupported = false -> out = Ret tt).
Proof.
  intros Hq unsupported. subst unsupported.
  apply Z.eqb_neq in Hq.
  unfold checkQuantArgs, py_floordiv, py_mod. rewrite Hq. cbn [Z.eqb].
  unfold bind, raise, ret, emit.
  destruct (str_in collective
              (map str ["all_to_all"; "all_to_allv"; "reduce"; "all_reduce"]%string));
    destruct (str_in collective (map str ["all_to_all"; "all_to_allv"]%string));
    destruct ((beginSize / 4) mod quant_a2a_embedding_dim =? 0);
    destruct (blockingFlag =? 1);
    destruct (dtype_eqb dt torch_float32);
    cbn [negb andb orb]; cbv beta iota;
    (do 2 eexists; split; [reflexivity|];
     cbn [heap trace]; rewrite ?allocs_app_log;
     split; [reflexivity|]; split; [reflexivity|]; split;
     [ split;
       [ first [ reflexivity | intros [m Hm]; discriminate Hm ]
       | first [ discriminate | intros _; eexists; reflexivity ] ]
     | first [ reflexivity | discriminate ] ]).
Qed.

Lemma checkQuantArgs_rejects_unsupported_witness :
  exists out s',
    checkQuantArgs (str "all_to_all") torch_float32 128 32 0 empty_state = (out, s')
    /\ heap s' = heap empty_state
    /\ allocs (trace s') = allocs (trace empty_state)
    /\ ((exists m, out = Raise (NotImplementedError m))
        <-> negb (str_in (str "all_to_all")
                    (map str ["all_to_all"; "all_to_allv"; "reduce";
                              "all_reduce"]%string))
            || (str_in (str "all_to_all")
                  (map str ["all_to_all"; "all_to_allv"]%string)
                && negb (0 =? 1))
            || negb (dtype_eqb torch_float32 torch_float32) = true)
    /\ (negb (str_in (str "all_to_all")
                (map str ["all_to_all"; "all_to_allv"; "reduce";
                          "all_reduce"]%string))
        || (str_in (str "all_to_all")
              (map str ["all_to_all"; "all_to_allv"]%string)
            && negb (0 =? 1))
        || negb (dtype_eqb torch_float32 torch_float32) = false ->
        out = Ret tt).
Proof.
  apply (checkQuantArgs_rejects_unsupported (str "all_to_all") torch_float32
           128 32 0 empty_state).
  lia.
Defined.

(** The three rejections, one each. *)
Example checkQuantArgs_wrong_collective :
  checkQuantArgs (str "all_gather") torch_float32 128 32 1 empty_state
  = (Raise (NotImplementedError
              (msg_quant_collective_unsupported (str "all_gather"))),
     empty_state).
Proof. reflexivity. Qed.

Example checkQuantArgs_not_synchronous :
  checkQuantArgs (str "all_to_all") torch_float32 128 32 0 empty_state
  = (Raise (NotImplementedError msg_quant_must_be_synchronous), empty_state).
Proof. reflexivity. Qed.

Example checkQuantArgs_wrong_dtype :
  checkQuantArgs (str "all_reduce") torch_half 128 32 1 empty_state
  = (Raise (NotImplementedError (msg_quant_dtype_unsupported torch_half)),
     empty_state).
Proof. reflexivity. Qed.

(** An embedding dimension of zero, which the parser never produces, fails in
    the modulo before any of the three checks on the all-to-all path. *)
Example checkQuantArgs_zero_dim :
  checkQuantArgs (str "all_to_all") torch_float32 128 0 0 empty_state
  = (Raise ZeroDivisionError, empty_state).
Proof. reflexivity. Qed.

(** ** Sizes: getSizes *)

Lemma getSizes_loop_length (endSize stepFactor stepBytes curSize numIters : Z)
    (allSizes : list Z) :
  numIters <= 100 ->
  (List.length
     (fst (getSizes_loop endSize stepFactor stepBytes curSize numIters allSizes))
   <= List.length allSizes + Z.to_nat (101 - numIters))%nat.
Proof.
  funelim (getSizes_loop endSize stepFactor stepBytes curSize numIters allSizes);
    intros Hle; cbn [fst].
  - lia.
  - rewrite length_app. cbn [List.length]. lia.
  - pose proof Hn as Hn'. rewrite Z.gtb_ltb in Hn'. apply Z.ltb_ge in Hn'.
    specialize (H ltac:(lia)). rewrite length_app in H. cbn [List.length] in H.
    lia.
Qed.

(** With a factor of one and no byte step the size never grows: the loop is
    left by the [break], after [101 - numIters] more rounds. *)
Lemma getSizes_loop_stuck (endSize stepFactor stepBytes curSize numIters : Z)
    (allSizes : list Z) :
  stepFactor = 1 -> stepBytes = 0 -> curSize <= endSize ->
  numIters <= 100 ->
  getSizes_loop endSize stepFactor stepBytes curSize numIters allSizes
  = (allSizes ++ repeat curSize (Z.to_nat (101 - numIters)),
     [LogError (msg_max_iters 101 100)]).
Proof.
  funelim (getSizes_loop endSize stepFactor stepBytes curSize numIters allSizes);
    intros Hf Hb Hcur Hle.
  - pose proof e as e'. apply Z.leb_gt in e'. lia.
  - pose proof e0 as e0'. rewrite Z.gtb_ltb in e0'. apply Z.ltb_lt in e0'.
    assert (numIters = 100) by lia. subst numIters. reflexivity.
  - pose proof Hn as Hn'. rewrite Z.gtb_ltb in Hn'. apply Z.ltb_ge in Hn'.
    subst stepFactor stepBytes.
    cbn [Z.eqb] in H |- *. rewrite Z.mul_1_r in H |- *.
    rewrite H by (auto; lia).
    replace (Z.to_nat (101 - numIters))
      with (S (Z.to_nat (101 - (numIters + 1)))) by lia.
    cbn [repeat]. rewrite <- app_assoc. reflexivity.
Qed.

(** C9.  [getSizes] returns on every input, with at most 101 sizes.  When
    the size cannot grow ([stepFactor = 1], [stepBytes = 0]) and does not
    exceed [endSize], the loop is left by the [break]: 101 copies of
    [beginSize] come back and the error is logged. *)
Theorem getSizes_bounded :
  (forall (beginSize endSize stepFactor stepBytes : Z) (s : state),
      exists allSizes s',
        getSizes beginSize endSize stepFactor stepBytes s = (Ret allSizes, s')
        /\ (List.length allSizes <= 101)%nat)
  /\ (forall (beginSize endSize : Z) (s : state),
         beginSize <= endSize ->
         getSizes beginSize endSize 1 0 s
         = (Ret (repeat beginSize 101),
            {| heap := heap s;
               trace := trace s ++ [LogError (msg_max_iters 101 100)];
               ipTensor_split := ipTensor_split s;
               opTensor_split := opTensor_split s |})).
Proof.
  split.
  - intros beginSize endSize stepFactor stepBytes s.
    unfold getSizes. do 2 eexists. split; [reflexivity|].
    pose proof (getSizes_loop_length endSize stepFactor stepBytes beginSize 0 [])
      as H.
    cbn [List.length] in H. specialize (H ltac:(lia)).
    change (Z.to_nat (101 - 0)) with 101%nat in H. exact H.
  - intros beginSize endSize s Hle. unfold getSizes.
    rewrite (getSizes_loop_stuck endSize 1 0 beginSize 0 [])
      by (auto; lia).
    reflexivity.
Qed.

Lemma getSizes_bounded_witness :
  getSizes 8 64 1 0 empty_state
  = (Ret (repeat 8 101),
     {| heap := [];
        trace := [LogError (msg_max_iters 101 100)];
        ipTensor_split := [];
        opTensor_split := [] |}).
Proof.
  apply (proj2 getSizes_bounded 8 64 empty_state). lia.
Defined.

Example getSizes_doubling :
  getSizes 1 1024 2 0 empty_state
  = (Ret [1; 2; 4; 8; 16; 32; 64; 128; 256; 512; 1024], empty_state).
Proof. reflexivity. Qed.

(** ** Begin size: fixBeginSize *)

(** [fixBeginSize] only ever raises the begin size: it never exits, logs or
    allocates, whatever the sizes are. *)
Lemma fixBeginSize_reports_nothing (int_truediv : Z -> Z -> option float)
    (float_lt_int : float -> Z -> bool) (commsParams : commsParamsHolder.t)
    (world_size : Z) (s : state) :
  snd (fixBeginSize int_truediv float_lt_int commsParams world_size s) = s
  /\ forall a,
       fst (fixBeginSize int_truediv float_lt_int commsParams world_size s)
       <> Exit a.
Proof.
  unfold fixBeginSize, py_int_truediv, float_div_int, bind, raise, ret.
  repeat match goal with
         | |- context [if ?c then _ else _] => destruct c
         | |- context [match ?x with Some _ => _ | None => _ end] => destruct x
         end;
    cbn [fst snd]; (split; [reflexivity | discriminate]).
Qed.

(** Twenty bytes of four-byte elements over two ranks: five elements, left
    as they are. *)
Example fixBeginSize_keeps_non_divisible :
  fixBeginSize small_int_truediv small_float_lt_int
    (commsParamsHolder.set_beginSize (params "all_gather" 0) 20) 2 empty_state
  = (Ret (commsParamsHolder.set_beginSize (params "all_gather" 0) 20),
     empty_state).
Proof. reflexivity. Qed.

Example fixBeginSize_raises_small_size :
  fixBeginSize small_int_truediv small_float_lt_int
    (commsParamsHolder.set_beginSize (params "all_gather" 0) 4) 8 empty_state
  = (Ret (commsParamsHolder.set_beginSize (params "all_gather" 0) 32),
     empty_state).
Proof. reflexivity. Qed.

(** * Further properties *)

(** ** getSizes: what the list holds *)

Lemma iter_next_size (stepFactor stepBytes beginSize : Z) (i : nat) :
  Nat.iter i (next_size stepFactor stepBytes) beginSize
  = size_at beginSize stepFactor stepBytes i.
Proof.
  induction i as [|i IH].
  - unfold size_at. cbn. destruct (stepBytes =? 0); lia.
  - rewrite Nat.iter_succ, IH. unfold next_size, size_at. destruct (stepBytes =? 0).
    + rewrite Nat2Z.inj_succ, Z.pow_succ_r by lia. ring.
    + lia.
Qed.

(** The loop, entered in round [numIters], appends a run of consecutive
    sizes, all within [endSize]; it stops either because the next size is
    beyond [endSize], with nothing logged, or at the cap, with the error. *)
Lemma getSizes_loop_shape (endSize stepFactor stepBytes curSize numIters : Z)
    (allSizes : list Z) :
  numIters <= 100 ->
  exists n : nat,
    fst (getSizes_loop endSize stepFactor stepBytes curSize numIters allSizes)
    = allSizes
      ++ map (fun i => Nat.iter i (next_size stepFactor stepBytes) curSize)
           (seq 0 n)
    /\ (forall i, (i < n)%nat ->
                  Nat.iter i (next_size stepFactor stepBytes) curSize <= endSize)
    /\ ((snd (getSizes_loop endSize stepFactor stepBytes curSize numIters allSizes)
         = []
         /\ Z.of_nat n <= 100 - numIters
         /\ endSize < Nat.iter n (next_size stepFactor stepBytes) curSize)
        \/ (snd (getSizes_loop endSize stepFactor stepBytes curSize numIters allSizes)
            = [LogError (msg_max_iters 101 100)]
            /\ Z.of_nat n = 101 - numIters)).
Proof.
  funelim (getSizes_loop endSize stepFactor stepBytes curSize numIters allSizes);
    intros Hle.
  - exists 0%nat. cbn [fst snd seq map Nat.iter]. rewrite app_nil_r.
    pose proof e as e'. apply Z.leb_gt in e'.
    split; [reflexivity|]. split; [intros i Hi; lia|].
    left. split; [reflexivity|]. split; [lia | exact e'].
  - exists 1%nat. cbn [fst snd seq map Nat.iter].
    pose proof e as e'. apply Z.leb_le in e'.
    pose proof e0 as e0'. rewrite Z.gtb_ltb in e0'. apply Z.ltb_lt in e0'.
    assert (numIters = 100) by lia. subst numIters.
    split; [reflexivity|]. split.
    + intros [|i] Hi; [exact e' | lia].
    + right. split; [reflexivity | lia].
  - pose proof e as e'. apply Z.leb_le in e'.
    pose proof Hn as Hn'. rewrite Z.gtb_ltb in Hn'. apply Z.ltb_ge in Hn'.
    destruct (H ltac:(lia)) as (n & Hfst & Hall & Hend).
    fold (next_size stepFactor stepBytes curSize) in Hfst, Hall, Hend |- *.
    exists (S n). split; [|split].
    + rewrite Hfst, <- app_assoc. cbn [app seq map Nat.iter].
      rewrite <- seq_shift, map_map.
      do 2 f_equal. apply map_ext. intros i. symmetry. apply Nat.iter_succ_r.
    + intros [|i] Hi; [exact e'|].
      rewrite Nat.iter_succ_r. apply Hall. lia.
    + rewrite Nat.iter_succ_r.
      destruct Hend as [(Hs & Hn1 & Hgt) | (Hs & Hn1)]; [left | right];
        repeat split; auto; lia.
Qed.

Lemma getSizes_run (beginSize endSize stepFactor stepBytes : Z) (s : state) :
  exists (n : nat) (log : list event),
    getSizes beginSize endSize stepFactor stepBytes s
    = (Ret (map (size_at beginSize stepFactor stepBytes) (seq 0 n)),
       {| heap := heap s; trace := trace s ++ log;
          ipTensor_split := ipTensor_split s;
          opTensor_split := opTensor_split s |})
    /\ (forall i, (i < n)%nat ->
                  size_at beginSize stepFactor stepBytes i <= endSize)
    /\ ((log = [] /\ (n <= 100)%nat
         /\ endSize < size_at beginSize stepFactor stepBytes n)
        \/ (log = [LogError (msg_max_iters 101 100)] /\ n = 101%nat)).
Proof.
  destruct (getSizes_loop_shape endSize stepFactor stepBytes beginSize 0 [])
    as (n & Hfst & Hall & Hend); [lia|].
  cbn [app] in Hfst.
  exists n,
    (snd (getSizes_loop endSize stepFactor stepBytes beginSize 0 [])).
  split; [|split].
  - unfold getSizes, bind, emit_all, ret. rewrite Hfst.
    do 2 f_equal. apply map_ext. intros i. apply iter_next_size.
  - intros i Hi. rewrite <- iter_next_size. apply Hall, Hi.
  - rewrite <- iter_next_size.
    destruct Hend as [(Hs & Hn & Hgt) | (Hs & Hn)]; [left | right];
      repeat split; auto; lia.
Qed.

Lemma map_seq_nil {A : Type} (f : nat -> A) (n : nat) :
  map f (seq 0 n) = [] <-> n = 0%nat.
Proof. destruct n; cbn; split; intros H; congruence. Qed.

(** X1.  The sizes [getSizes] returns are, in order, the terms
    [beginSize * stepFactor^i] (or [beginSize + i * stepBytes] when a byte
    step is given), every one of them within [endSize]; the list is empty
    exactly when [beginSize] is already beyond [endSize]. *)
Theorem getSizes_terms (beginSize endSize stepFactor stepBytes : Z) (s : state) :
  exists allSizes s',
    getSizes beginSize endSize stepFactor stepBytes s = (Ret allSizes, s')
    /\ allSizes
       = map (size_at beginSize stepFactor stepBytes)
           (seq 0 (List.length allSizes))
    /\ Forall (fun size => size <= endSize) allSizes
    /\ (allSizes = [] <-> endSize < beginSize).
Proof.
  destruct (getSizes_run beginSize endSize stepFactor stepBytes s)
    as (n & log & Hrun & Hall & Hend).
  do 2 eexists. split; [exact Hrun|].
  rewrite length_map, length_seq. split; [reflexivity|]. split.
  - apply Forall_forall. intros x Hx.
    apply in_map_iff in Hx as (i & <- & Hi). apply in_seq in Hi.
    apply Hall. lia.
  - rewrite map_seq_nil.
    assert (H0 : size_at beginSize stepFactor stepBytes 0 = beginSize).
    { unfold size_at. cbn. destruct (stepBytes =? 0); lia. }
    split.
    + intros ->. destruct Hend as [(_ & _ & Hgt) | (_ & Hn)]; [|discriminate].
      rewrite H0 in Hgt. exact Hgt.
    + intros Hlt. destruct n as [|n]; [reflexivity|].
      specialize (Hall 0%nat ltac:(lia)). rewrite H0 in Hall. lia.
Qed.

(** X2.  Short of the cap of 101 rounds nothing is left out: when fewer than
    101 sizes come back, the term that would follow the last one is beyond
    [endSize]. *)
Theorem getSizes_stops_beyond_endSize (beginSize endSize stepFactor stepBytes : Z)
    (s : state) :
  exists allSizes s',
    getSizes beginSize endSize stepFactor stepBytes s = (Ret allSizes, s')
    /\ ((List.length allSizes < 101)%nat ->
        endSize
        < size_at beginSize stepFactor stepBytes (List.length allSizes)).
Proof.
  destruct (getSizes_run beginSize endSize stepFactor stepBytes s)
    as (n & log & Hrun & Hall & Hend).
  do 2 eexists. split; [exact Hrun|].
  rewrite length_map, length_seq. intros Hlt.
  destruct Hend as [(_ & _ & Hgt) | (_ & Hn)]; [exact Hgt | lia].
Qed.

(** X3.  The error is logged exactly when the cap is hit, that is when 101
    sizes come back; otherwise the trace is as it was.  The heap is never
    touched. *)
Theorem getSizes_logs_at_cap (beginSize endSize stepFactor stepBytes : Z)
    (s : state) :
  exists allSizes s',
    getSizes beginSize endSize stepFactor stepBytes s = (Ret allSizes, s')
    /\ heap s' = heap s
    /\ trace s'
       = trace s
         ++ (if (List.length allSizes =? 101)%nat
             then [LogError (msg_max_iters 101 100)]
             else []).
Proof.
  destruct (getSizes_run beginSize endSize stepFactor stepBytes s)
    as (n & log & Hrun & Hall & Hend).
  do 2 eexists. split; [exact Hrun|]. split; [reflexivity|].
  rewrite length_map, length_seq. cbn [trace]. f_equal.
  destruct Hend as [(-> & Hn & _) | (-> & ->)].
  - destruct (Nat.eqb_spec n 101); [lia | reflexivity].
  - reflexivity.
Qed.

Example getSizes_byte_steps :
  getSizes 4 20 2 8 empty_state = (Ret [4; 12; 20], empty_state).
Proof. reflexivity. Qed.

(** ** paramToCommName: what a validated name is *)

Section NameValidation.

Variable str_lower : pystr -> pystr.
Variable str_isalpha : N -> bool.

(** X4.  Whatever [paramToCommName] returns under a list of supported names
    is a member of that list, and is either the name as it was given or a
    value of the alias table; the state is left as it was. *)
Theorem paramToCommName_validated (name new_name : pystr)
    (supported_comms : list pystr) (s s' : state) :
  paramToCommName str_lower str_isalpha name (Some supported_comms) s
  = (Ret new_name, s') ->
  str_in new_name supported_comms = true
  /\ (new_name = name \/ In new_name (map snd name_aliases))
  /\ s' = s.
Proof.
  unfold paramToCommName, bind, gracefulExit, sys_exit, emit, ret.
  destruct (str_in (alias_name str_lower str_isalpha name) supported_comms)
    eqn:Hin; cbn [negb]; intros H; [|discriminate].
  injection H as <- <-. split; [exact Hin|]. split; [|reflexivity].
  unfold alias_name.
  destruct (dict_get name_aliases (filter str_isalpha (str_lower name)))
    as [v|] eqn:E; [right | left; reflexivity].
  eapply dict_get_In; eauto.
Qed.

Hypothesis str_lower_ascii :
  forall s, Forall is_ascii s -> str_lower s = map ascii_lower s.
Hypothesis str_isalpha_ascii :
  forall c, is_ascii c -> str_isalpha c = ascii_isalpha c.

(** X5.  Aliases are matched without regard to case, digits or punctuation:
    any ASCII spelling whose letters, lowered, make up a key of the alias
    table is mapped to that key's value. *)
Theorem alias_name_ignores_case_and_punctuation (name key value : pystr) :
  Forall is_ascii name ->
  In (key, value) name_aliases ->
  filter ascii_isalpha (map ascii_lower name) = key ->
  alias_name str_lower str_isalpha name = value.
Proof.
  intros Hascii Hin Hkey. unfold alias_name.
  rewrite (normalize_ascii str_lower str_isalpha str_lower_ascii
             str_isalpha_ascii name Hascii), Hkey.
  cbn [name_aliases In] in Hin.
  repeat (destruct Hin as [Hin | Hin];
          [injection Hin as <- <-; reflexivity|]).
  contradiction.
Qed.

End NameValidation.

Lemma paramToCommName_validated_witness :
  str_in (str "all_to_all") base_collectiveFunc = true
  /\ (str "all_to_all" = str "AllToAll"
      \/ In (str "all_to_all") (map snd name_aliases))
  /\ empty_state = empty_state.
Proof.
  apply (paramToCommName_validated ascii_str_lower ascii_isalpha
           (str "AllToAll") (str "all_to_all") base_collectiveFunc
           empty_state empty_state).
  reflexivity.
Defined.

Lemma alias_name_ignores_case_and_punctuation_witness :
  alias_name ascii_str_lower ascii_isalpha (str "All-Gather_Base 2")
  = str "all_gather_base".
Proof.
  apply (alias_name_ignores_case_and_punctuation ascii_str_lower ascii_isalpha
           (fun s _ => eq_refl) (fun c _ => eq_refl)
           (str "All-Gather_Base 2") (str "allgatherbase")
           (str "all_gather_base")).
  - repeat constructor.
  - cbn. tauto.
  - reflexivity.
Defined.

(** ** prepComm: dry runs, empty worlds, splits, fan-in *)

Lemma run_raise_floordiv (a : Z) (s : state) :
  py_floordiv a 0 s = (Raise ZeroDivisionError, s).
Proof. reflexivity. Qed.

Lemma staging_for_each {A : Type} (call : event) (l : loc) (items : list A)
    (s : state) :
  is_list (heap s) l ->
  exists s',
    for_each items (t <- alloc call ;; list_append l t) s = (Ret tt, s')
    /\ trace s' = trace s ++ repeat call (List.length items)
    /\ (forall l', is_list (heap s) l' -> is_list (heap s') l').
Proof.
  revert s. induction items as [|x items IH]; intros s Hl.
  - exists s. cbn. rewrite app_nil_r. auto.
  - cbn [for_each].
    destruct (run_list_append l (List.length (heap s)) (after_alloc call s))
      as (s1 & Happ & Htr1 & Hpres1).
    { apply is_list_new. exact Hl. }
    destruct (IH s1) as (s' & Hrun & Htr & Hpres).
    { apply Hpres1. apply is_list_new. exact Hl. }
    exists s'. split; [|split].
    + erewrite run_bind; [exact Hrun|].
      step by apply run_alloc. exact Happ.
    + rewrite Htr, Htr1. cbn [after_alloc trace repeat List.length].
      rewrite <- app_assoc. reflexivity.
    + intros l' Hl'. apply Hpres, Hpres1. apply is_list_new. exact Hl'.
Qed.

Lemma bind_inv {A B} (m : M A) (k : A -> M B) (s s' : state) (b : B) :
  bind m k s = (Ret b, s') ->
  exists a s1, m s = (Ret a, s1) /\ k a s1 = (Ret b, s').
Proof.
  unfold bind. destruct (m s) as [[a | e | x] s1]; intros H;
    [eauto | discriminate | discriminate].
Qed.

Lemma heap_set_length (h : list object) (l : loc) (o : object) :
  List.length (heap_set h l o) = List.length h.
Proof.
  revert l; induction h as [|x h IH]; intros [|l]; cbn; auto.
Qed.

Lemma new_list_inv (s s1 : state) (l : loc) :
  new_list s = (Ret l, s1) -> l = List.length (heap s) /\ s1 = after_new_list s.
Proof. intros H. injection H as <- <-. auto. Qed.

Lemma alloc_inv (call : event) (s s1 : state) (l : loc) :
  alloc call s = (Ret l, s1) -> l = List.length (heap s) /\ s1 = after_alloc call s.
Proof. intros H. injection H as <- <-. auto. Qed.

Lemma alloc_ones_inv (size : sizeArr) (curRankDevice : pystr)
    (dt : torch_dtype) (scaleFactor : Z) (s s1 : state) (l : loc) :
  alloc_ones size curRankDevice dt scaleFactor s = (Ret l, s1) ->
  l = List.length (heap s)
  /\ s1 = after_alloc (AllocOnes size curRankDevice dt scaleFactor) s.
Proof.
  unfold alloc_ones. destruct (size_of size <? 0); intros H;
    [discriminate | apply alloc_inv; exact H].
Qed.

Lemma floordiv_inv (a b q : Z) (s s1 : state) :
  py_floordiv a b s = (Ret q, s1) -> s1 = s.
Proof.
  unfold py_floordiv. destruct (b =? 0); intros H; [discriminate|].
  injection H as _ <-. reflexivity.
Qed.

Lemma list_append_heap (l x : loc) (s s1 : state) :
  list_append l x s = (Ret tt, s1) ->
  List.length (heap s1) = List.length (heap s).
Proof.
  unfold list_append. destruct (nth_error (heap s) l) as [[c | items]|];
    intros H; try discriminate.
  injection H as <-. cbn [heap]. apply heap_set_length.
Qed.

(** A staging loop only ever adds objects. *)
Lemma for_range_heap_grows (al : Z -> M loc) (a ws : Z) (l : loc) (n : nat)
    (s s' : state) :
  (forall q s0 s1 t, al q s0 = (Ret t, s1) ->
                     (List.length (heap s0) <= List.length (heap s1))%nat) ->
  for_range n (q <- py_floordiv a ws ;; t <- al q ;; list_append l t) s
  = (Ret tt, s') ->
  (List.length (heap s) <= List.length (heap s'))%nat.
Proof.
  intros Hal. revert s. induction n as [|n IH]; intros s H.
  - injection H as <-. lia.
  - cbn [for_range] in H.
    apply bind_inv in H as ([] & s1 & Hbody & Hrest).
    apply bind_inv in Hbody as (q & s2 & Hq & Hbody).
    apply floordiv_inv in Hq. subst s2.
    apply bind_inv in Hbody as (t & s3 & Ht & Happ).
    apply Hal in Ht.
    apply list_append_heap in Happ.
    apply IH in Hrest. lia.
Qed.

(** In every strategy the output is an object made after the input. *)
Section Distinct.
Variables (self : paramCommsBench.t) (curComm : commsArgs.t)
          (commsParams : commsParamsHolder.t).
Variables (numElementsIn numElementsOut world_size : Z) (curDevice : pystr)
          (dt : torch_dtype) (scaleFactor : Z) (allocate : bool).
Variables (ipTensor : loc) (s : state).
Hypothesis ipTensor_old : (ipTensor < List.length (heap s))%nat.

Ltac inv_new H l s1 :=
  let Hn := fresh "Hn" in
  apply bind_inv in H as (l & s1 & Hn & H);
  apply new_list_inv in Hn as [-> ->].

Lemma _prep_all_to_all_distinct (ip op : loc) (s' : state) :
  _prep_all_to_all self ipTensor curComm commsParams numElementsIn
    numElementsOut world_size curDevice dt scaleFactor allocate s
  = (Ret (ip, op), s') -> ip <> op.
Proof.
  unfold _prep_all_to_all. intros H.
  inv_new H ip0 s1. inv_new H op0 s2.
  apply bind_inv in H as (u & s3 & _ & H). injection H as <- <- _.
  cbn [after_new_list heap]. rewrite length_app. cbn. lia.
Qed.

Lemma _prep_all_to_allv_distinct (ip op : loc) (s' : state) :
  _prep_all_to_allv self ipTensor curComm commsParams numElementsIn
    numElementsOut world_size curDevice dt scaleFactor allocate s
  = (Ret (ip, op), s') -> ip <> op.
Proof.
  unfold _prep_all_to_allv. intros H.
  inv_new H op0 s1.
  apply bind_inv in H as (op1 & s2 & Hop & H).
  apply bind_inv in H as (u1 & s3 & _ & H).
  apply bind_inv in H as (u2 & s4 & _ & H). injection H as <- <- _.
  destruct allocate.
  - apply alloc_inv in Hop as [-> _].
    cbn [after_new_list heap]. rewrite length_app. lia.
  - injection Hop as <- _. lia.
Qed.

Lemma input_floordiv_inv (a : Z) (s0 s1 : state) (l : loc) :
  (if commsParamsHolder.dcheck commsParams =? 1
   then q <- py_floordiv a world_size ;;
        alloc_ones (SizeList q) curDevice dt (paramCommsBench.initVal self)
   else q <- py_floordiv a world_size ;;
        alloc_random (SizeList q) curDevice dt scaleFactor) s0
  = (Ret l, s1) ->
  l = List.length (heap s0)
  /\ List.length (heap s1) = S (List.length (heap s0)).
Proof.
  destruct (commsParamsHolder.dcheck commsParams =? 1); intros H;
    apply bind_inv in H as (q & s2 & Hq & H);
    apply floordiv_inv in Hq; subst s2;
    [apply alloc_ones_inv in H as [-> ->] | apply alloc_inv in H as [-> ->]];
    cbn [after_alloc heap]; rewrite length_app; cbn; split; lia.
Qed.

Lemma input_inv (dt' : torch_dtype) (size : sizeArr) (s0 s1 : state) (l : loc) :
  (if commsParamsHolder.dcheck commsParams =? 1
   then alloc_ones size curDevice dt' (paramCommsBench.initVal self)
   else alloc_random size curDevice dt' scaleFactor) s0
  = (Ret l, s1) ->
  l = List.length (heap s0)
  /\ List.length (heap s1) = S (List.length (heap s0)).
Proof.
  clear ipTensor_old.
  destruct (commsParamsHolder.dcheck commsParams =? 1); intros H;
    [apply alloc_ones_inv in H as [-> ->] | apply alloc_inv in H as [-> ->]];
    cbn [after_alloc heap]; rewrite length_app; cbn; split; lia.
Qed.

Lemma _prep_all_gather_distinct (ip op : loc) (s' : state) :
  _prep_all_gather self ipTensor curComm commsParams numElementsIn
    numElementsOut world_size curDevice dt scaleFactor allocate s
  = (Ret (ip, op), s') -> ip <> op.
Proof.
  unfold _prep_all_gather. intros H.
  inv_new H op0 s1.
  apply bind_inv in H as (ip1 & s2 & Hip & H). injection H as <- <- _.
  destruct allocate.
  - apply bind_inv in Hip as (ip2 & s3 & Hin & Hip).
    apply input_floordiv_inv in Hin as [-> _].
    apply bind_inv in Hip as (u & s4 & _ & Hip). injection Hip as <- _.
    cbn [after_new_list heap]. rewrite length_app. cbn. lia.
  - injection Hip as <- _. lia.
Qed.

Lemma _prep_all_gather_base_distinct (ip op : loc) (s' : state) :
  _prep_all_gather_base self ipTensor curComm commsParams numElementsIn
    numElementsOut world_size curDevice dt scaleFactor allocate s
  = (Ret (ip, op), s') -> ip <> op.
Proof.
  unfold _prep_all_gather_base. intros H.
  inv_new H op0 s1.
  destruct allocate.
  - apply bind_inv in H as (ip2 & s3 & Hin & H).
    apply input_floordiv_inv in Hin as [-> Hlen].
    apply bind_inv in H as (op2 & s4 & Hop & H).
    apply alloc_inv in Hop as [-> _]. injection H as <- <- _.
    rewrite Hlen. cbn [after_new_list heap]. lia.
  - injection H as <- <- _. lia.
Qed.

Lemma for_each_heap_grows {A : Type} (call : event) (l : loc) (items : list A)
    (s0 s1 : state) :
  for_each items (t <- alloc call ;; list_append l t) s0 = (Ret tt, s1) ->
  (List.length (heap s0) <= List.length (heap s1))%nat.
Proof.
  revert s0. induction items as [|x items IH]; intros s0 H.
  - injection H as <-. lia.
  - cbn [for_each] in H.
    apply bind_inv in H as ([] & s2 & Hbody & Hrest).
    apply bind_inv in Hbody as (t & s3 & Ht & Happ).
    apply alloc_inv in Ht as [-> ->].
    apply list_append_heap in Happ.
    apply IH in Hrest. rewrite Happ in Hrest.
    cbn [after_alloc heap] in Hrest. rewrite length_app in Hrest. lia.
Qed.

Lemma _prep_incast_distinct (ip op : loc) (s' : state) :
  _prep_incast self ipTensor curComm commsParams numElementsIn
    numElementsOut world_size curDevice dt scaleFactor allocate s
  = (Ret (ip, op), s') -> ip <> op.
Proof.
  unfold _prep_incast. intros H.
  inv_new H op0 s1.
  apply bind_inv in H as (u & s2 & _ & H). injection H as <- <- _. lia.
Qed.

Lemma input_loop_heap_grows (a : Z) (l : loc) (n : nat) (s0 s1 : state) :
  (if commsParamsHolder.dcheck commsParams =? 1
   then for_range n
          (q <- py_floordiv a world_size ;;
           t <- alloc_ones (SizeList q) curDevice
                  (commsParamsHolder.dtype commsParams)
                  (paramCommsBench.initVal self) ;;
           list_append l t)
   else for_range n
          (q <- py_floordiv a world_size ;;
           t <- alloc_random (SizeList q) curDevice
                  (commsParamsHolder.dtype commsParams) scaleFactor ;;
           list_append l t)) s0
  = (Ret tt, s1) ->
  (List.length (heap s0) <= List.length (heap s1))%nat.
Proof.
  destruct (commsParamsHolder.dcheck commsParams =? 1); intros H.
  - eapply (for_range_heap_grows
              (fun q => alloc_ones (SizeList q) curDevice
                          (commsParamsHolder.dtype commsParams)
                          (paramCommsBench.initVal self))); [|exact H].
    intros q t0 t1 t Ht. apply alloc_ones_inv in Ht as [_ ->].
    cbn [after_alloc heap]. rewrite length_app. lia.
  - eapply (for_range_heap_grows
              (fun q => alloc_random (SizeList q) curDevice
                          (commsParamsHolder.dtype commsParams) scaleFactor));
      [|exact H].
    intros q t0 t1 t Ht. apply alloc_inv in Ht as [_ ->].
    cbn [after_alloc heap]. rewrite length_app. lia.
Qed.

Lemma _prep_reduce_scatter_distinct (ip op : loc) (s' : state) :
  _prep_reduce_scatter self ipTensor curComm commsParams numElementsIn
    numElementsOut world_size curDevice dt scaleFactor allocate s
  = (Ret (ip, op), s') -> ip <> op.
Proof.
  unfold _prep_reduce_scatter. intros H.
  inv_new H ip0 s1. inv_new H op0 s2.
  destruct allocate.
  - apply bind_inv in H as ([] & s3 & Hloop & H).
    apply input_loop_heap_grows in Hloop.
    apply bind_inv in H as (q & s4 & Hq & H).
    apply floordiv_inv in Hq. subst s4.
    apply bind_inv in H as (op2 & s5 & Hop & H).
    apply alloc_inv in Hop as [-> _]. injection H as <- <- _.
    cbn [after_new_list heap] in Hloop. rewrite !length_app in Hloop.
    cbn in Hloop. lia.
  - injection H as <- <- _.
    cbn [after_new_list heap]. rewrite length_app. cbn. lia.
Qed.

Lemma _prep_reduce_scatter_base_distinct (ip op : loc) (s' : state) :
  _prep_reduce_scatter_base self ipTensor curComm commsParams numElementsIn
    numElementsOut world_size curDevice dt scaleFactor allocate s
  = (Ret (ip, op), s') -> ip <> op.
Proof.
  unfold _prep_reduce_scatter_base. intros H.
  inv_new H ip0 s1. inv_new H op0 s2.
  destruct allocate.
  - apply bind_inv in H as (ip2 & s3 & Hin & H).
    apply input_inv in Hin as [-> Hlen].
    apply bind_inv in H as (q & s4 & Hq & H).
    apply floordiv_inv in Hq. subst s4.
    apply bind_inv in H as (op2 & s5 & Hop & H).
    apply alloc_inv in Hop as [-> _]. injection H as <- <- _.
    rewrite Hlen. cbn [after_new_list heap]. rewrite !length_app. cbn. lia.
  - injection H as <- <- _.
    cbn [after_new_list heap]. rewrite length_app. cbn. lia.
Qed.

Lemma _prep_pt2pt_distinct (ip op : loc) (s' : state) :
  _prep_pt2pt self ipTensor curComm commsParams numElementsIn
    numElementsOut world_size curDevice dt scaleFactor allocate s
  = (Ret (ip, op), s') -> ip <> op.
Proof.
  unfold _prep_pt2pt. intros H.
  inv_new H op0 s1.
  apply bind_inv in H as (op1 & s2 & Hop & H). injection H as <- <- _.
  destruct allocate.
  - apply alloc_inv in Hop as [-> _].
    cbn [after_new_list heap]. rewrite length_app. lia.
  - injection Hop as <- _. lia.
Qed.
End Distinct.

Lemma sum_repeat (q : Z) (n : nat) :
  fold_right Z.add 0 (repeat q n) = Z.of_nat n * q.
Proof.
  induction n as [|n IH]; [reflexivity|].
  cbn [repeat fold_right]. rewrite IH. lia.
Qed.

Lemma even_split_sum (n world_size : Z) :
  0 < world_size ->
  fold_right Z.add 0 (even_split n world_size) = n - n mod world_size.
Proof.
  intros H. unfold even_split, range_len. rewrite sum_repeat, Z2Nat.id by lia.
  rewrite (Z.mod_eq n world_size) by lia. lia.
Qed.

Section StagingEdges.

Variable str_lower : pystr -> pystr.
Variable str_isalpha : N -> bool.

(** Past the name check and the [wait]/[barrier] shortcut, [prepComm] is its
    strategy run on the freshly made input. *)
Lemma prepComm_calls_strategy (self : paramCommsBench.t)
    (curComm : commsArgs.t) (commsParams : commsParamsHolder.t)
    (allocate : bool) (s : state) (f : strategy) :
  let commOp :=
    alias_name str_lower str_isalpha (requested_name curComm commsParams) in
  let numElementsIn := commsArgs.inMsgSize curComm in
  let numElementsOut := commsArgs.outMsgSize curComm in
  let world_size :=
    collectiveArgsHolder.world_size (paramCommsBench.collectiveArgs self) in
  let dtype := commsParamsHolder.dtype commsParams in
  let curDevice := commsParamsHolder.device commsParams in
  let scaleFactor := numElementsOut * numElementsOut in
  str_in commOp
    (backendFunctions.collectiveFunc (paramCommsBench.backendFuncs self)) = true ->
  str_in commOp (map str ["wait"; "barrier"]%string) = false ->
  dict_get (dispatchDict self) commOp = Some f ->
  (allocate = true -> 0 <= numElementsIn) ->
  prepComm str_lower str_isalpha self curComm commsParams allocate s
  = f (S (List.length (heap s))) curComm commsParams numElementsIn
      numElementsOut world_size curDevice dtype scaleFactor allocate
      (if allocate
       then after_alloc
              (input_call self commsParams curDevice dtype scaleFactor
                 (SizeList numElementsIn))
              (after_new_list s)
       else after_new_list (after_new_list s)).
Proof.
  intros commOp nIn nOut ws dtype dev sf Hsup Hwb Hd Hin.
  unfold prepComm.
  step by (apply run_paramToCommName; exact Hsup).
  fold commOp. rewrite Hwb.
  step by apply run_new_list.
  destruct allocate.
  - step by (apply run_input; exact (Hin eq_refl)). rewrite Hd.
    cbn [after_new_list heap]. rewrite length_app, Nat.add_comm. reflexivity.
  - step by apply run_new_list. rewrite Hd.
    cbn [after_new_list heap]. rewrite length_app, Nat.add_comm. reflexivity.
Qed.

(** A run of [prepComm] that returns through the dispatch table is a run of
    the strategy that returns, on an input made after the first [[]]. *)
Lemma prepComm_returns_strategy (self : paramCommsBench.t)
    (curComm : commsArgs.t) (commsParams : commsParamsHolder.t)
    (allocate : bool) (s s' : state) (f : strategy) (r : loc * loc) :
  let commOp :=
    alias_name str_lower str_isalpha (requested_name curComm commsParams) in
  str_in commOp
    (backendFunctions.collectiveFunc (paramCommsBench.backendFuncs self)) = true ->
  str_in commOp (map str ["wait"; "barrier"]%string) = false ->
  dict_get (dispatchDict self) commOp = Some f ->
  prepComm str_lower str_isalpha self curComm commsParams allocate s
  = (Ret r, s') ->
  exists s1,
    List.length (heap s1) = S (S (List.length (heap s)))
    /\ f (S (List.length (heap s))) curComm commsParams
         (commsArgs.inMsgSize curComm) (commsArgs.outMsgSize curComm)
         (collectiveArgsHolder.world_size (paramCommsBench.collectiveArgs self))
         (commsParamsHolder.device commsParams)
         (commsParamsHolder.dtype commsParams)
         (commsArgs.outMsgSize curComm * commsArgs.outMsgSize curComm)
         allocate s1
       = (Ret r, s').
Proof.
  intros commOp Hsup Hwb Hd H. unfold prepComm in H.
  erewrite run_bind in H by (apply run_paramToCommName; exact Hsup).
  fold commOp in H. rewrite Hwb in H.
  erewrite run_bind in H by apply run_new_list.
  apply bind_inv in H as (ip & s1 & Hin & H). rewrite Hd in H.
  assert (Hip : ip = S (List.length (heap s))
                /\ List.length (heap s1) = S (S (List.length (heap s)))).
  { destruct allocate.
    - apply input_inv in Hin as [-> Hlen]. rewrite Hlen.
      cbn [after_new_list heap]. rewrite length_app. cbn. split; lia.
    - apply new_list_inv in Hin as [-> ->].
      cbn [after_new_list heap]. rewrite !length_app. cbn. split; lia. }
  destruct Hip as [-> Hlen]. exists s1. split; [exact Hlen | exact H].
Qed.

Lemma prepComm_no_entry_dry (self : paramCommsBench.t)
    (curComm : commsArgs.t) (commsParams : commsParamsHolder.t) (s : state) :
  let commOp :=
    alias_name str_lower str_isalpha (requested_name curComm commsParams) in
  str_in commOp
    (backendFunctions.collectiveFunc (paramCommsBench.backendFuncs self)) = true ->
  str_in commOp (map str ["wait"; "barrier"]%string) = false ->
  dict_get (dispatchDict self) commOp = None ->
  prepComm str_lower str_isalpha self curComm commsParams false s
  = (Ret (S (List.length (heap s)), S (List.length (heap s))),
     after_new_list (after_new_list s)).
Proof.
  intros commOp Hsup Hwb Hd. unfold prepComm.
  step by (apply run_paramToCommName; exact Hsup).
  fold commOp. rewrite Hwb.
  step by apply run_new_list. step by apply run_new_list.
  rewrite Hd. unfold ret. cbn [after_new_list heap].
  rewrite length_app, Nat.add_comm. reflexivity.
Qed.

(** X6.  With [allocate] off, staging never calls the backend: for every
    supported operation [prepComm] returns a buffer pair and the trace is
    as it was, whatever the world size and the element counts. *)
Theorem prepComm_dry_run (self : paramCommsBench.t)
    (curComm : commsArgs.t) (commsParams : commsParamsHolder.t) (s : state) :
  let commOp :=
    alias_name str_lower str_isalpha (requested_name curComm commsParams) in
  str_in commOp
    (backendFunctions.collectiveFunc (paramCommsBench.backendFuncs self)) = true ->
  exists ip op s',
    prepComm str_lower str_isalpha self curComm commsParams false s
    = (Ret (ip, op), s')
    /\ trace s' = trace s.
Proof.
  intros commOp Hsup.
  destruct (str_in commOp (map str ["wait"; "barrier"]%string)) eqn:Hwb.
  { do 3 eexists. split.
    - apply prepComm_wait_barrier; assumption.
    - reflexivity. }
  destruct (dict_get (dispatchDict self) commOp) as [f|] eqn:Hd.
  - rewrite (prepComm_calls_strategy self curComm commsParams false s f
               Hsup Hwb Hd) by discriminate.
    unfold dispatchDict in Hd. cbn [dict_get] in Hd.
    repeat match type of Hd with
      | (if ?c then _ else _) = _ =>
          destruct c;
          [ injection Hd as <-; do 3 eexists; split; reflexivity | ]
      end.
    discriminate.
  - do 3 eexists. split.
    + apply prepComm_no_entry_dry; assumption.
    + reflexivity.
Qed.

(** X7.  An empty world fails late.  With [world_size = 0], [allocate] set
    and element counts that are not negative, the strategies of
    [all_gather], [gather], [all_gather_base], [reduce_scatter], [scatter]
    and [reduce_scatter_base] raise [ZeroDivisionError], and by then the
    first input buffer has already been allocated; [all_to_all] and
    [all_to_allv] divide only inside their world-sized loops and return
    normally. *)
Theorem prepComm_world_size_zero (self : paramCommsBench.t)
    (curComm : commsArgs.t) (commsParams : commsParamsHolder.t) (s : state) :
  let commOp :=
    alias_name str_lower str_isalpha (requested_name curComm commsParams) in
  let numElementsOut := commsArgs.outMsgSize curComm in
  let input :=
    input_call self commsParams (commsParamsHolder.device commsParams)
      (commsParamsHolder.dtype commsParams)
      (numElementsOut * numElementsOut)
      (SizeList (commsArgs.inMsgSize curComm)) in
  collectiveArgsHolder.world_size (paramCommsBench.collectiveArgs self) = 0 ->
  0 <= commsArgs.inMsgSize curComm ->
  0 <= commsArgs.outMsgSize curComm ->
  str_in commOp
    (backendFunctions.collectiveFunc (paramCommsBench.backendFuncs self)) = true ->
  (str_in commOp
     (map str ["all_gather"; "gather"; "all_gather_base"; "reduce_scatter";
               "scatter"; "reduce_scatter_base"]%string) = true ->
   exists s' later,
     prepComm str_lower str_isalpha self curComm commsParams true s
     = (Raise ZeroDivisionError, s')
     /\ trace s' = trace s ++ input :: later)
  /\ (str_in commOp (map str ["all_to_all"; "all_to_allv"]%string) = true ->
      exists ip op s',
        prepComm str_lower str_isalpha self curComm commsParams true s
        = (Ret (ip, op), s')).
Proof.
  intros commOp nOut input Hws Hin Hout Hsup. split; intros Hc;
    unfold str_in in Hc; cbn [map existsb] in Hc;
    repeat (apply orb_true_iff in Hc as [Hc | Hc];
            [ apply pystr_eqb_eq in Hc;
              erewrite prepComm_calls_strategy;
              [ | exact Hsup
                | fold commOp; rewrite Hc; reflexivity
                | fold commOp; rewrite Hc; reflexivity
                | intros _; exact Hin ];
              rewrite Hws |]);
    try discriminate.
  - unfold _prep_all_gather.
    step by apply run_new_list.
    destruct (commsParamsHolder.dcheck commsParams =? 1);
      do 2 eexists; (split; [reflexivity|]);
      cbn [trace after_new_list after_alloc]; fold nOut; fold input;
      rewrite <- ?app_assoc; reflexivity.
  - unfold _prep_all_gather.
    step by apply run_new_list.
    destruct (commsParamsHolder.dcheck commsParams =? 1);
      do 2 eexists; (split; [reflexivity|]);
      cbn [trace after_new_list after_alloc]; fold nOut; fold input;
      rewrite <- ?app_assoc; reflexivity.
  - unfold _prep_all_gather_base.
    step by apply run_new_list.
    destruct (commsParamsHolder.dcheck commsParams =? 1);
      do 2 eexists; (split; [reflexivity|]);
      cbn [trace after_new_list after_alloc]; fold nOut; fold input;
      rewrite <- ?app_assoc; reflexivity.
  - unfold _prep_reduce_scatter.
    step by apply run_new_list. step by apply run_new_list.
    destruct (commsParamsHolder.dcheck commsParams =? 1);
      do 2 eexists; (split; [reflexivity|]);
      cbn [trace after_new_list after_alloc]; fold nOut; fold input;
      rewrite <- ?app_assoc; reflexivity.
  - unfold _prep_reduce_scatter.
    step by apply run_new_list. step by apply run_new_list.
    destruct (commsParamsHolder.dcheck commsParams =? 1);
      do 2 eexists; (split; [reflexivity|]);
      cbn [trace after_new_list after_alloc]; fold nOut; fold input;
      rewrite <- ?app_assoc; reflexivity.
  - unfold _prep_reduce_scatter_base.
    step by apply run_new_list. step by apply run_new_list.
    step by (apply run_input; exact Hout).
    do 2 eexists. split; [reflexivity|].
    cbn [trace after_new_list after_alloc]. fold nOut. fold input.
    rewrite <- ?app_assoc. reflexivity.
  - unfold _prep_all_to_all.
    destruct (commsParamsHolder.dcheck commsParams =? 1);
      do 3 eexists; reflexivity.
  - do 3 eexists. reflexivity.
Qed.


(** X8.  [all_to_allv] records the split sizes, for element counts that are
    not negative when [allocate] is set.  Splits given with the operation
    are taken as they are; without them each of the [world_size] ranks gets
    the floor quotient, so that the recorded split adds up to the element
    count less its remainder by the world size. *)
Theorem prepComm_all_to_allv_splits (self : paramCommsBench.t)
    (curComm : commsArgs.t) (commsParams : commsParamsHolder.t)
    (allocate : bool) (s : state) :
  let commOp :=
    alias_name str_lower str_isalpha (requested_name curComm commsParams) in
  let numElementsIn := commsArgs.inMsgSize curComm in
  let numElementsOut := commsArgs.outMsgSize curComm in
  let world_size :=
    collectiveArgsHolder.world_size (paramCommsBench.collectiveArgs self) in
  commOp = str "all_to_allv" ->
  str_in commOp
    (backendFunctions.collectiveFunc (paramCommsBench.backendFuncs self)) = true ->
  (allocate = true -> 0 <= numElementsIn /\ 0 <= numElementsOut) ->
  exists ip op s',
    prepComm str_lower str_isalpha self curComm commsParams allocate s
    = (Ret (ip, op), s')
    /\ ipTensor_split s'
       = match commsArgs.inSplit curComm with
         | Some given => given
         | None => repeat (numElementsIn / world_size) (Z.to_nat world_size)
         end
    /\ opTensor_split s'
       = match commsArgs.outSplit curComm with
         | Some given => given
         | None => repeat (numElementsOut / world_size) (Z.to_nat world_size)
         end
    /\ (0 < world_size ->
        fold_right Z.add 0
          (repeat (numElementsIn / world_size) (Z.to_nat world_size))
        = numElementsIn - numElementsIn mod world_size
        /\ fold_right Z.add 0
             (repeat (numElementsOut / world_size) (Z.to_nat world_size))
           = numElementsOut - numElementsOut mod world_size).
Proof.
  intros commOp nIn nOut ws Hc Hsup Hcounts.
  erewrite prepComm_calls_strategy;
    [ | exact Hsup
      | fold commOp; rewrite Hc; reflexivity
      | fold commOp; rewrite Hc; reflexivity
      | intros Ha; apply Hcounts, Ha ].
  unfold _prep_all_to_allv.
  destruct allocate;
    (do 3 eexists; split; [reflexivity|]; split; [reflexivity|];
     split; [reflexivity|];
     intros Hws; split; apply even_split_sum; exact Hws).
Qed.


(** X9.  [incast] fans in from the source ranks.  Once the caller has set
    [src_ranks], and for element counts that are not negative, [prepComm]
    allocates, besides the input, one buffer of [numElementsOut] elements
    per entry of [src_ranks], whatever the world size. *)
Theorem prepComm_incast_fan_in (self : paramCommsBench.t)
    (curComm : commsArgs.t) (commsParams : commsParamsHolder.t)
    (src_ranks : list Z) (s : state) :
  let commOp :=
    alias_name str_lower str_isalpha (requested_name curComm commsParams) in
  let numElementsOut := commsArgs.outMsgSize curComm in
  let curDevice := commsParamsHolder.device commsParams in
  let dtype := commsParamsHolder.dtype commsParams in
  let scaleFactor := numElementsOut * numElementsOut in
  commOp = str "incast" ->
  str_in commOp
    (backendFunctions.collectiveFunc (paramCommsBench.backendFuncs self)) = true ->
  collectiveArgsHolder.src_ranks (paramCommsBench.collectiveArgs self)
  = Some src_ranks ->
  0 <= commsArgs.inMsgSize curComm ->
  0 <= numElementsOut ->
  exists ip op s',
    prepComm str_lower str_isalpha self curComm commsParams true s
    = (Ret (ip, op), s')
    /\ trace s'
       = trace s
         ++ input_call self commsParams curDevice dtype scaleFactor
              (SizeList (commsArgs.inMsgSize curComm))
            :: repeat (AllocRandom (SizeList numElementsOut) curDevice dtype
                         scaleFactor)
                 (List.length src_ranks).
Proof.
  intros commOp nOut dev dtype sf Hc Hsup Hranks Hin Hout.
  erewrite prepComm_calls_strategy;
    [ | exact Hsup
      | fold commOp; rewrite Hc; reflexivity
      | fold commOp; rewrite Hc; reflexivity
      | intros _; exact Hin ].
  unfold _prep_incast. rewrite Hranks.
  set (s1 := after_alloc
               (input_call self commsParams dev dtype sf
                  (SizeList (commsArgs.inMsgSize curComm)))
               (after_new_list s)).
  destruct (staging_for_each
              (AllocRandom (SizeList nOut) dev dtype sf)
              (List.length (heap s1))
              src_ranks
              (after_new_list s1))
    as (s2 & Hrun & Htr & _); [apply is_list_fresh|].
  do 3 eexists. split.
  - step by apply run_new_list. step by exact Hrun. reflexivity.
  - rewrite Htr. subst s1. cbn [after_new_list after_alloc trace].
    rewrite <- app_assoc. reflexivity.
Qed.

(** X10.  Out of place means two objects.  Whenever the operation has an
    entry in the dispatch table and [prepComm] returns, the output buffer is
    an object other than the input buffer, with [allocate] on or off. *)
Theorem prepComm_out_of_place (self : paramCommsBench.t)
    (curComm : commsArgs.t) (commsParams : commsParamsHolder.t)
    (allocate : bool) (s s' : state) (f : strategy) (ip op : loc) :
  let commOp :=
    alias_name str_lower str_isalpha (requested_name curComm commsParams) in
  str_in commOp
    (backendFunctions.collectiveFunc (paramCommsBench.backendFuncs self)) = true ->
  str_in commOp (map str ["wait"; "barrier"]%string) = false ->
  dict_get (dispatchDict self) commOp = Some f ->
  prepComm str_lower str_isalpha self curComm commsParams allocate s
  = (Ret (ip, op), s') ->
  ip <> op.
Proof.
  intros commOp Hsup Hwb Hd H.
  apply (prepComm_returns_strategy self curComm commsParams allocate s s' f
           (ip, op) Hsup Hwb Hd) in H.
  destruct H as (st & Hlen & H).
  assert (Hold : (S (List.length (heap s)) < List.length (heap st))%nat)
    by (rewrite Hlen; lia).
  unfold dispatchDict in Hd. cbn [dict_get] in Hd.
  repeat match type of Hd with
    | (if ?c then _ else _) = _ =>
        destruct c; [injection Hd as <- | ]
    end; try discriminate.
  - eapply _prep_all_to_allv_distinct; eauto.
  - eapply _prep_all_to_all_distinct; eauto.
  - eapply _prep_all_gather_distinct; eauto.
  - eapply _prep_all_gather_distinct; eauto.
  - eapply _prep_all_gather_base_distinct; eauto.
  - eapply _prep_incast_distinct; eauto.
  - eapply _prep_reduce_scatter_distinct; eauto.
  - eapply _prep_reduce_scatter_base_distinct; eauto.
  - eapply _prep_reduce_scatter_distinct; eauto.
  - eapply _prep_pt2pt_distinct; eauto.
Qed.


End StagingEdges.

Lemma prepComm_dry_run_witness :
  exists ip op s',
    prepComm ascii_str_lower ascii_isalpha (bench 0 0) (comm 5 5)
      (params "all_gather" 1) false empty_state = (Ret (ip, op), s')
    /\ trace s' = trace empty_state.
Proof.
  apply (prepComm_dry_run ascii_str_lower ascii_isalpha (bench 0 0) (comm 5 5)
           (params "all_gather" 1) empty_state).
  reflexivity.
Defined.

Lemma prepComm_world_size_zero_witness :
  (str_in (str "all_gather")
     (map str ["all_gather"; "gather"; "all_gather_base"; "reduce_scatter";
               "scatter"; "reduce_scatter_base"]%string) = true ->
   exists s' later,
     prepComm ascii_str_lower ascii_isalpha (bench 0 0) (comm 5 5)
       (params "all_gather" 0) true empty_state
     = (Raise ZeroDivisionError, s')
     /\ trace s'
        = trace empty_state
          ++ AllocRandom (SizeList 5) (str "cpu") torch_float32 25 :: later)
  /\ (str_in (str "all_gather")
        (map str ["all_to_all"; "all_to_allv"]%string) = true ->
      exists ip op s',
        prepComm ascii_str_lower ascii_isalpha (bench 0 0) (comm 5 5)
          (params "all_gather" 0) true empty_state
        = (Ret (ip, op), s')).
Proof.
  apply (prepComm_world_size_zero ascii_str_lower ascii_isalpha (bench 0 0)
           (comm 5 5) (params "all_gather" 0) empty_state).
  - reflexivity.
  - cbn. lia.
  - cbn. lia.
  - reflexivity.
Defined.

Example prepComm_all_to_all_empty_world :
  prepComm ascii_str_lower ascii_isalpha (bench 0 0) (comm 5 5)
    (params "all_to_all" 0) true empty_state
  = (Ret (2%nat, 3%nat),
     {| heap := [OList [];
                 OTensor (AllocRandom (SizeList 5) (str "cpu") torch_float32 25);
                 OList []; OList []];
        trace := [AllocRandom (SizeList 5) (str "cpu") torch_float32 25];
        ipTensor_split := [];
        opTensor_split := [] |}).
Proof. reflexivity. Qed.

Lemma prepComm_all_to_allv_splits_witness :
  exists ip op s',
    prepComm ascii_str_lower ascii_isalpha (bench 0 4) (comm 10 7)
      (params "all_to_allv" 0) true empty_state = (Ret (ip, op), s')
    /\ ipTensor_split s' = repeat (10 / 4) (Z.to_nat 4)
    /\ opTensor_split s' = repeat (7 / 4) (Z.to_nat 4)
    /\ (0 < 4 ->
        fold_right Z.add 0 (repeat (10 / 4) (Z.to_nat 4)) = 10 - 10 mod 4
        /\ fold_right Z.add 0 (repeat (7 / 4) (Z.to_nat 4)) = 7 - 7 mod 4).
Proof.
  apply (prepComm_all_to_allv_splits ascii_str_lower ascii_isalpha (bench 0 4)
           (comm 10 7) (params "all_to_allv" 0) true empty_state).
  - reflexivity.
  - reflexivity.
  - intros _. cbn. lia.
Defined.

Lemma prepComm_incast_fan_in_witness :
  exists ip op s',
    prepComm ascii_str_lower ascii_isalpha
      {| paramCommsBench.backendFuncs := base_backend 0;
         paramCommsBench.collectiveArgs :=
           {| collectiveArgsHolder.world_size := 4;
              collectiveArgsHolder.src_ranks := Some [1; 2; 3] |};
         paramCommsBench.initVal := 1 |}
      (comm 8 8) (params "incast" 0) true empty_state = (Ret (ip, op), s')
    /\ trace s'
       = trace empty_state
         ++ AllocRandom (SizeList 8) (str "cpu") torch_float32 64
            :: repeat (AllocRandom (SizeList 8) (str "cpu") torch_float32 64) 3.
Proof.
  apply (prepComm_incast_fan_in ascii_str_lower ascii_isalpha
           {| paramCommsBench.backendFuncs := base_backend 0;
              paramCommsBench.collectiveArgs :=
                {| collectiveArgsHolder.world_size := 4;
                   collectiveArgsHolder.src_ranks := Some [1; 2; 3] |};
              paramCommsBench.initVal := 1 |}
           (comm 8 8) (params "incast" 0) [1; 2; 3] empty_state).
  - reflexivity.
  - reflexivity.
  - reflexivity.
  - cbn. lia.
  - cbn. lia.
Defined.

(** On a holder whose [src_ranks] was never assigned, [incast] staging
    fails on reading the attribute. *)
Example prepComm_incast_unset_src_ranks :
  fst (prepComm ascii_str_lower ascii_isalpha (bench 0 4) (comm 8 8)
         (params "incast" 0) true empty_state)
  = Raise AttributeError.
Proof. reflexivity. Qed.

Lemma prepComm_out_of_place_witness : 3%nat <> 2%nat.
Proof.
  apply (prepComm_out_of_place ascii_str_lower ascii_isalpha (bench 0 2)
           (comm 5 5) (params "all_gather" 0) true empty_state
           (snd (prepComm ascii_str_lower ascii_isalpha (bench 0 2) (comm 5 5)
                   (params "all_gather" 0) true empty_state))
           (_prep_all_gather (bench 0 2)) 3%nat 2%nat).
  - reflexivity.
  - reflexivity.
  - reflexivity.
  - reflexivity.
Defined.

(** ** dcheck: lists, plain collectives, skipped ranks *)

Section ValidationCases.

Variable torch_eq : torch_dtype -> scalar -> Z -> bool.

Lemma check_tensors_ok (curSize : Z) (collective : pystr) (expRes : Z)
    (tensor : tensor_arg) (ts : list Tensor) (rank : nat) (s : state) :
  forallb (fun t => torch_all_eq torch_eq t expRes) ts = true ->
  check_tensors torch_eq curSize collective expRes tensor rank ts s
  = (Ret tt, s).
Proof.
  revert rank. induction ts as [|t ts IH]; intros rank H;
    cbn [check_tensors]; [reflexivity|].
  cbn [forallb] in H. apply andb_true_iff in H as [Ht Hrest].
  rewrite Ht. cbn [negb]. rewrite run_ret. apply IH, Hrest.
Qed.

(** The first tensor with a wrong element stops the loop, at that tensor's
    first wrong element. *)
Lemma check_tensors_raise (curSize : Z) (collective : pystr) (expRes : Z)
    (tensor : tensor_arg) (ts : list Tensor) (rank : nat) (s : state) :
  forallb (fun t => torch_all_eq torch_eq t expRes) ts = false ->
  exists r t index val,
    nth_error ts r = Some t
    /\ (forall j t', (j < r)%nat -> nth_error ts j = Some t' ->
                     torch_all_eq torch_eq t' expRes = true)
    /\ nth_error (t_data t) index = Some val
    /\ torch_eq (t_dtype t) val expRes = false
    /\ (forall j v, (j < index)%nat -> nth_error (t_data t) j = Some v ->
                    torch_eq (t_dtype t) v expRes = true)
    /\ check_tensors torch_eq curSize collective expRes tensor rank ts s
       = (Raise (ValueError
                   (msg_wrong_value curSize collective (Some (rank + r)%nat)
                      index val expRes tensor)), s).
Proof.
  revert rank. induction ts as [|t ts IH]; intros rank H;
    cbn [forallb] in H; [discriminate|].
  destruct (torch_all_eq torch_eq t expRes) eqn:Ht.
  - cbn [andb] in H.
    destruct (IH (S rank) H)
      as (r & t0 & index & val & Hr & Hbefore & Hidx & Hval & Hlt & Hrun).
    exists (S r), t0, index, val.
    split; [exact Hr|]. split; [|split; [exact Hidx|split; [exact Hval|split;
      [exact Hlt|]]]].
    + intros [|j] t' Hj Hnth; cbn [nth_error] in Hnth.
      * injection Hnth as <-. exact Ht.
      * apply (Hbefore j t'); [lia | exact Hnth].
    + cbn [check_tensors]. rewrite Ht. cbn [negb]. rewrite run_ret, Hrun.
      replace (S rank + r)%nat with (rank + S r)%nat by lia. reflexivity.
  - unfold torch_all_eq in Ht.
    destruct (check_values_raise torch_eq (t_dtype t) expRes
                (fun index val =>
                   msg_wrong_value curSize collective (Some rank) index val
                     expRes tensor) (t_data t) 0%nat s Ht)
      as (index & val & Hidx & Hval & Hlt & Hrun).
    exists 0%nat, t, index, val.
    split; [reflexivity|]. split; [intros j t' Hj; lia|].
    split; [exact Hidx|]. split; [exact Hval|]. split; [exact Hlt|].
    cbn [check_tensors]. unfold torch_all_eq. rewrite Ht. cbn [negb].
    unfold bind. rewrite Hrun. rewrite Nat.add_0_r. reflexivity.
Qed.

(** Outside the reduction guard the expected value is [initVal]; outside the
    skip guard the tensor is looked at. *)
Lemma dcheck_checked_run (self : paramCommsBench.t)
    (commsParams : commsParamsHolder.t) (curSize : Z) (tensor : tensor_arg)
    (s : state) :
  reduction_guard self commsParams = false ->
  skip_guard self commsParams = false ->
  dcheck torch_eq self commsParams curSize tensor s
  = match tensor with
    | AList ts =>
        check_tensors torch_eq curSize
          (commsParamsHolder.collective commsParams)
          (paramCommsBench.initVal self) tensor 0%nat ts s
    | ATensor t =>
        if negb (torch_all_eq torch_eq t (paramCommsBench.initVal self))
        then check_values torch_eq (t_dtype t) (paramCommsBench.initVal self)
               (fun index val =>
                  msg_wrong_value curSize
                    (commsParamsHolder.collective commsParams) None index val
                    (paramCommsBench.initVal self) tensor)
               0%nat (t_data t) s
        else (Ret tt, s)
    end.
Proof.
  unfold reduction_guard, skip_guard, dcheck. cbv zeta. intros Hred Hskip.
  rewrite Hred, run_ret, Hskip.
  destruct tensor as [t | ts]; [|reflexivity].
  destruct (negb (torch_all_eq torch_eq t (paramCommsBench.initVal self)));
    reflexivity.
Qed.

(** X11.  Lists of tensors (the outputs of [all_gather], or of [gather] and
    [incast] on the root).  Where neither guard applies, [dcheck] accepts a
    list exactly when every element of every tensor equals [initVal];
    otherwise the [ValueError] names the first tensor that has a wrong
    element, by its position in the list, and that tensor's first wrong
    element. *)
Theorem dcheck_list (self : paramCommsBench.t)
    (commsParams : commsParamsHolder.t) (curSize : Z) (ts : list Tensor)
    (s : state) :
  let expRes := paramCommsBench.initVal self in
  let good t := torch_all_eq torch_eq t expRes in
  reduction_guard self commsParams = false ->
  skip_guard self commsParams = false ->
  (dcheck torch_eq self commsParams curSize (AList ts) s = (Ret tt, s)
   <-> forallb good ts = true)
  /\ (forallb good ts = false ->
      exists rank t index val,
        nth_error ts rank = Some t
        /\ (forall j t', (j < rank)%nat -> nth_error ts j = Some t' ->
                         good t' = true)
        /\ nth_error (t_data t) index = Some val
        /\ torch_eq (t_dtype t) val expRes = false
        /\ (forall j v, (j < index)%nat -> nth_error (t_data t) j = Some v ->
                        torch_eq (t_dtype t) v expRes = true)
        /\ dcheck torch_eq self commsParams curSize (AList ts) s
           = (Raise (ValueError
                       (msg_wrong_value curSize
                          (commsParamsHolder.collective commsParams)
                          (Some rank) index val expRes (AList ts))), s)).
Proof.
  intros expRes good Hred Hskip.
  rewrite (dcheck_checked_run self commsParams curSize (AList ts) s Hred Hskip).
  fold expRes. split.
  - destruct (forallb good ts) eqn:E.
    + rewrite check_tensors_ok by exact E. tauto.
    + destruct (check_tensors_raise curSize
                  (commsParamsHolder.collective commsParams) expRes
                  (AList ts) ts 0%nat s E)
        as (r & t & index & val & _ & _ & _ & _ & _ & Hrun).
      rewrite Hrun. split; discriminate.
  - intros E.
    destruct (check_tensors_raise curSize
                (commsParamsHolder.collective commsParams) expRes
                (AList ts) ts 0%nat s E)
      as (r & t & index & val & Hr & Hbefore & Hidx & Hval & Hlt & Hrun).
    exists r, t, index, val. repeat split; auto.
Qed.

(** X12.  For the collectives that neither guard covers (broadcast,
    all_to_all, all_gather, and the rooted ones on their root) the expected
    value of a tensor is [initVal] itself, whatever the world size and the
    dtype: [dcheck] accepts exactly when every element equals it, and
    otherwise reports the first element that does not. *)
Theorem dcheck_plain_tensor (self : paramCommsBench.t)
    (commsParams : commsParamsHolder.t) (curSize : Z) (t : Tensor)
    (s : state) :
  let expRes := paramCommsBench.initVal self in
  let equal v := torch_eq (t_dtype t) v expRes in
  reduction_guard self commsParams = false ->
  skip_guard self commsParams = false ->
  (dcheck torch_eq self commsParams curSize (ATensor t) s = (Ret tt, s)
   <-> forallb equal (t_data t) = true)
  /\ (forallb equal (t_data t) = false ->
      exists index val,
        nth_error (t_data t) index = Some val
        /\ equal val = false
        /\ (forall j v, (j < index)%nat -> nth_error (t_data t) j = Some v ->
                        equal v = true)
        /\ dcheck torch_eq self commsParams curSize (ATensor t) s
           = (Raise (ValueError
                       (msg_wrong_value curSize
                          (commsParamsHolder.collective commsParams)
                          None index val expRes (ATensor t))), s)).
Proof.
  intros expRes equal Hred Hskip.
  rewrite (dcheck_checked_run self commsParams curSize (ATensor t) s Hred Hskip).
  fold expRes. unfold torch_all_eq. fold equal. split.
  - destruct (forallb equal (t_data t)) eqn:E; cbn [negb]; [tauto|].
    destruct (check_values_raise torch_eq (t_dtype t) expRes
                (fun index val =>
                   msg_wrong_value curSize
                     (commsParamsHolder.collective commsParams) None index val
                     expRes (ATensor t)) (t_data t) 0%nat s E)
      as (k & val & _ & _ & _ & Hraise).
    rewrite Hraise. split; discriminate.
  - intros E. rewrite E. cbn [negb].
    destruct (check_values_raise torch_eq (t_dtype t) expRes
                (fun index val =>
                   msg_wrong_value curSize
                     (commsParamsHolder.collective commsParams) None index val
                     expRes (ATensor t)) (t_data t) 0%nat s E)
      as (k & val & Hk & Hval & Hlt & Hraise).
    exists k, val. repeat split; auto.
Qed.

(** X13.  A list under the reduction guard is never validated: reading its
    [dtype] fails with [AttributeError] before any element is compared. *)
Theorem dcheck_reduction_list (self : paramCommsBench.t)
    (commsParams : commsParamsHolder.t) (curSize : Z) (ts : list Tensor)
    (s : state) :
  reduction_guard self commsParams = true ->
  dcheck torch_eq self commsParams curSize (AList ts) s
  = (Raise AttributeError, s).
Proof.
  unfold reduction_guard, dcheck. cbv zeta. intros Hred.
  rewrite Hred. reflexivity.
Qed.

(** X14.  The skip guard is the whole of the early return: it also covers
    [reduce] away from the root and [pt2pt] outside the destination ranks,
    and under it [dcheck] returns for any argument, without raising. *)
Theorem dcheck_skip_guard (self : paramCommsBench.t)
    (commsParams : commsParamsHolder.t) (curSize : Z) (tensor : tensor_arg)
    (s : state) :
  skip_guard self commsParams = true ->
  reduction_guard self commsParams = false
  /\ dcheck torch_eq self commsParams curSize tensor s = (Ret tt, s).
Proof.
  intros Hskip.
  assert (Hred : reduction_guard self commsParams = false).
  { unfold skip_guard in Hskip. unfold reduction_guard.
    apply orb_true_iff in Hskip as [Hskip | Hskip];
      apply andb_true_iff in Hskip as [Hc Hrank].
    - apply negb_true_iff in Hrank. rewrite Hrank. cbn [andb].
      rewrite orb_false_r. unfold str_in in Hc. cbn [map existsb] in Hc.
      repeat (apply orb_true_iff in Hc as [Hc | Hc];
              [apply pystr_eqb_eq in Hc; rewrite Hc; reflexivity|]).
      discriminate.
    - unfold str_in in Hc. cbn [map existsb] in Hc.
      repeat (apply orb_true_iff in Hc as [Hc | Hc];
              [apply pystr_eqb_eq in Hc; rewrite Hc; cbn;
               apply andb_false_r|]).
      discriminate. }
  split; [exact Hred|].
  unfold reduction_guard in Hred. unfold skip_guard in Hskip.
  unfold dcheck. cbv zeta. rewrite Hred, run_ret, Hskip. reflexivity.
Qed.

End ValidationCases.

Lemma dcheck_list_witness :
  (dcheck scalar_eq_int (bench 0 2) (params "all_gather" 1) 8
     (AList [{| t_dtype := torch_int32; t_data := [ScalarInt 1; ScalarInt 1] |};
             {| t_dtype := torch_int32; t_data := [ScalarInt 1; ScalarInt 2] |}])
     empty_state = (Ret tt, empty_state)
   <-> forallb (fun t => torch_all_eq scalar_eq_int t 1)
         [{| t_dtype := torch_int32; t_data := [ScalarInt 1; ScalarInt 1] |};
          {| t_dtype := torch_int32; t_data := [ScalarInt 1; ScalarInt 2] |}]
       = true)
  /\ (forallb (fun t => torch_all_eq scalar_eq_int t 1)
        [{| t_dtype := torch_int32; t_data := [ScalarInt 1; ScalarInt 1] |};
         {| t_dtype := torch_int32; t_data := [ScalarInt 1; ScalarInt 2] |}]
      = false ->
      exists rank t index val,
        nth_error
          [{| t_dtype := torch_int32; t_data := [ScalarInt 1; ScalarInt 1] |};
           {| t_dtype := torch_int32; t_data := [ScalarInt 1; ScalarInt 2] |}]
          rank = Some t
        /\ (forall j t', (j < rank)%nat ->
              nth_error
                [{| t_dtype := torch_int32;
                    t_data := [ScalarInt 1; ScalarInt 1] |};
                 {| t_dtype := torch_int32;
                    t_data := [ScalarInt 1; ScalarInt 2] |}] j = Some t' ->
              torch_all_eq scalar_eq_int t' 1 = true)
        /\ nth_error (t_data t) index = Some val
        /\ scalar_eq_int (t_dtype t) val 1 = false
        /\ (forall j v, (j < index)%nat -> nth_error (t_data t) j = Some v ->
                        scalar_eq_int (t_dtype t) v 1 = true)
        /\ dcheck scalar_eq_int (bench 0 2) (params "all_gather" 1) 8
             (AList [{| t_dtype := torch_int32;
                        t_data := [ScalarInt 1; ScalarInt 1] |};
                     {| t_dtype := torch_int32;
                        t_data := [ScalarInt 1; ScalarInt 2] |}])
             empty_state
           = (Raise (ValueError
                       (msg_wrong_value 8 (str "all_gather") (Some rank) index
                          val 1
                          (AList [{| t_dtype := torch_int32;
                                     t_data := [ScalarInt 1; ScalarInt 1] |};
                                  {| t_dtype := torch_int32;
                                     t_data := [ScalarInt 1; ScalarInt 2] |}]))),
              empty_state)).
Proof.
  apply (dcheck_list scalar_eq_int (bench 0 2) (params "all_gather" 1) 8
           [{| t_dtype := torch_int32; t_data := [ScalarInt 1; ScalarInt 1] |};
            {| t_dtype := torch_int32; t_data := [ScalarInt 1; ScalarInt 2] |}]
           empty_state).
  - reflexivity.
  - reflexivity.
Defined.

Example dcheck_list_reports_rank_and_index :
  dcheck scalar_eq_int (bench 0 2) (params "all_gather" 1) 8
    (AList [{| t_dtype := torch_int32; t_data := [ScalarInt 1; ScalarInt 1] |};
            {| t_dtype := torch_int32; t_data := [ScalarInt 1; ScalarInt 2] |}])
    empty_state
  = (Raise (ValueError
              (msg_wrong_value 8 (str "all_gather") (Some 1%nat) 1
                 (ScalarInt 2) 1
                 (AList [{| t_dtype := torch_int32;
                            t_data := [ScalarInt 1; ScalarInt 1] |};
                         {| t_dtype := torch_int32;
                            t_data := [ScalarInt 1; ScalarInt 2] |}]))),
     empty_state).
Proof. reflexivity. Qed.

Lemma dcheck_plain_tensor_witness :
  (dcheck scalar_eq_int (bench 3 8) (params "broadcast" 1) 8
     (ATensor {| t_dtype := torch_int32; t_data := [ScalarInt 1; ScalarInt 1] |})
     empty_state = (Ret tt, empty_state)
   <-> forallb (fun v => scalar_eq_int torch_int32 v 1)
         [ScalarInt 1; ScalarInt 1] = true)
  /\ (forallb (fun v => scalar_eq_int torch_int32 v 1)
        [ScalarInt 1; ScalarInt 1] = false ->
      exists index val,
        nth_error [ScalarInt 1; ScalarInt 1] index = Some val
        /\ scalar_eq_int torch_int32 val 1 = false
        /\ (forall j v, (j < index)%nat ->
                        nth_error [ScalarInt 1; ScalarInt 1] j = Some v ->
                        scalar_eq_int torch_int32 v 1 = true)
        /\ dcheck scalar_eq_int (bench 3 8) (params "broadcast" 1) 8
             (ATensor {| t_dtype := torch_int32;
                         t_data := [ScalarInt 1; ScalarInt 1] |})
             empty_state
           = (Raise (ValueError
                       (msg_wrong_value 8 (str "broadcast") None index val 1
                          (ATensor {| t_dtype := torch_int32;
                                      t_data := [ScalarInt 1; ScalarInt 1] |}))),
              empty_state)).
Proof.
  apply (dcheck_plain_tensor scalar_eq_int (bench 3 8) (params "broadcast" 1) 8
           {| t_dtype := torch_int32; t_data := [ScalarInt 1; ScalarInt 1] |}
           empty_state).
  - reflexivity.
  - reflexivity.
Defined.

Lemma dcheck_reduction_list_witness :
  dcheck scalar_eq_int (bench 0 2) (params "reduce_scatter" 1) 8
    (AList [{| t_dtype := torch_int32; t_data := [ScalarInt 2] |}])
    empty_state
  = (Raise AttributeError, empty_state).
Proof.
  apply (dcheck_reduction_list scalar_eq_int (bench 0 2)
           (params "reduce_scatter" 1) 8
           [{| t_dtype := torch_int32; t_data := [ScalarInt 2] |}] empty_state).
  reflexivity.
Defined.

Lemma dcheck_skip_guard_witness :
  reduction_guard (bench 1 4) (params "reduce" 1) = false
  /\ dcheck scalar_eq_int (bench 1 4) (params "reduce" 1) 8
       (ATensor {| t_dtype := torch_int32; t_data := [ScalarInt 9] |})
       empty_state
     = (Ret tt, empty_state).
Proof.
  apply (dcheck_skip_guard scalar_eq_int (bench 1 4) (params "reduce" 1) 8
           (ATensor {| t_dtype := torch_int32; t_data := [ScalarInt 9] |})
           empty_state).
  reflexivity.
Defined.

(** ** Bandwidth: no division by zero anywhere *)

(** X15.  [getAlgBW] never raises [ZeroDivisionError] and never exits: for
    every elapsed time, data size and iteration count it returns a pair, or
    fails with [OverflowError] when an [int] is too large for a [float]; the
    state is left as it was. *)
Theorem getAlgBW_never_divides_by_zero (elapsedTimeNS : float)
    (dataSize numIters : Z) (s : state) :
  exists out,
    getAlgBW elapsedTimeNS dataSize numIters s = (out, s)
    /\ ((exists avgIterNS algBW, out = Ret (avgIterNS, algBW))
        \/ out = Raise OverflowError).
Proof.
  unfold getAlgBW, float_div_int, int_div_float.
  destruct (numIters =? 0) eqn:Hn; cbn [negb].
  - eexists. split; [reflexivity|]. left. eauto.
  - destruct (float_of_int numIters) as [fIters|].
    + rewrite run_ret.
      destruct ((elapsedTimeNS / fIters =? 0)%float) eqn:Havg; cbn [negb].
      * eexists. split; [reflexivity|]. left. eauto.
      * destruct (float_of_int dataSize) as [fSize|].
        -- eexists. split; [reflexivity|]. left. eauto.
        -- eexists. split; [reflexivity|]. right. reflexivity.
    + eexists. split; [reflexivity|]. right. reflexivity.
Qed.

Section BusBandwidthSafety.

Variable int_truediv : Z -> Z -> option float.

(** X16.  [getBusBW] never raises [ZeroDivisionError] and never exits, at
    any world size and for any name: it returns a bandwidth or fails with
    [OverflowError]; the heap is untouched and nothing is allocated.  A name
    it does not know gets the algorithmic bandwidth back, with an error
    logged. *)
Theorem getBusBW_never_divides_by_zero (collective : pystr) (algBW : float)
    (collectiveArgs : collectiveArgsHolder.t) (s : state) :
  exists out s',
    getBusBW int_truediv collective algBW collectiveArgs s = (out, s')
    /\ ((exists busBW, out = Ret busBW) \/ out = Raise OverflowError)
    /\ heap s' = heap s
    /\ allocs (trace s') = allocs (trace s)
    /\ (str_in collective
          (map str ["all_reduce"; "all_to_all"; "all_to_allv"; "gather";
                    "all_gather"; "reduce_scatter"; "reduce_scatter_base";
                    "scatter"; "all_gather_base"; "reduce"; "broadcast";
                    "incast"; "multicast"]%string) = false ->
        out = Ret algBW
        /\ trace s' = trace s ++ [LogError (msg_busbw_unsupported collective)]).
Proof.
  assert (Hsplit :
    str_in collective
      (map str ["all_reduce"; "all_to_all"; "all_to_allv"; "gather";
                "all_gather"; "reduce_scatter"; "reduce_scatter_base";
                "scatter"; "all_gather_base"; "reduce"; "broadcast";
                "incast"; "multicast"]%string)
    = pystr_eqb collective (str "all_reduce")
      || (str_in collective
            (map str ["all_to_all"; "all_to_allv"; "gather"; "all_gather";
                      "reduce_scatter"; "reduce_scatter_base"; "scatter";
                      "all_gather_base"]%string)
          || str_in collective
               (map str ["reduce"; "broadcast"; "incast"; "multicast"]%string))).
  { unfold str_in. rewrite <- existsb_app. reflexivity. }
  rewrite Hsplit. clear Hsplit.
  unfold getBusBW, py_int_truediv.
  destruct (pystr_eqb collective (str "all_reduce")).
  { destruct (collectiveArgsHolder.world_size collectiveArgs =? 0);
      cbn [negb];
      [| destruct (int_truediv _ _) ];
      do 2 eexists; (split; [reflexivity|]);
      (split; [first [left; eexists; reflexivity | right; reflexivity]|]);
      repeat split; discriminate. }
  destruct (str_in collective
              (map str ["all_to_all"; "all_to_allv"; "gather"; "all_gather";
                        "reduce_scatter"; "reduce_scatter_base"; "scatter";
                        "all_gather_base"]%string)).
  { destruct (collectiveArgsHolder.world_size collectiveArgs =? 0);
      cbn [negb];
      [| destruct (int_truediv _ _) ];
      do 2 eexists; (split; [reflexivity|]);
      (split; [first [left; eexists; reflexivity | right; reflexivity]|]);
      repeat split; discriminate. }
  destruct (str_in collective
              (map str ["reduce"; "broadcast"; "incast"; "multicast"]%string)).
  { do 2 eexists. split; [reflexivity|]. split; [left; eauto|].
    repeat split; discriminate. }
  do 2 eexists. split; [reflexivity|]. split; [left; eauto|].
  split; [reflexivity|]. split.
  - cbn [trace]. unfold allocs. rewrite filter_app. cbn. apply app_nil_r.
  - intros _. split; reflexivity.
Qed.

End BusBandwidthSafety.

(** ** checkQuantArgs: the begin size only warns *)

(** X17.  The begin size never decides the outcome of [checkQuantArgs]: with
    a nonzero embedding dimension two calls that differ only in it end the
    same way.  For [all_to_all] and [all_to_allv] a warning is logged exactly
    when a quarter of the begin size is not a multiple of the embedding
    dimension, and that is all the trace gains. *)
Theorem checkQuantArgs_beginSize_only_warns (collective : pystr)
    (dt : torch_dtype) (beginSize beginSize' quant_a2a_embedding_dim
     blockingFlag : Z) (s : state) :
  quant_a2a_embedding_dim <> 0 ->
  fst (checkQuantArgs collective dt beginSize quant_a2a_embedding_dim
         blockingFlag s)
  = fst (checkQuantArgs collective dt beginSize' quant_a2a_embedding_dim
           blockingFlag s)
  /\ trace (snd (checkQuantArgs collective dt beginSize
                   quant_a2a_embedding_dim blockingFlag s))
     = trace s
       ++ (if str_in collective (map str ["all_to_all"; "all_to_allv"]%string)
              && negb ((beginSize / 4) mod quant_a2a_embedding_dim =? 0)
           then [LogWarning
                   (msg_begin_size_multiple beginSize quant_a2a_embedding_dim)]
           else []).
Proof.
  intros Hq. apply Z.eqb_neq in Hq.
  unfold checkQuantArgs, py_floordiv, py_mod. rewrite Hq. cbn [Z.eqb].
  unfold bind, raise, ret, emit, str_in. cbn [map existsb].
  destruct (pystr_eqb collective (str "all_to_all"));
    destruct (pystr_eqb collective (str "all_to_allv"));
    destruct (pystr_eqb collective (str "reduce"));
    destruct (pystr_eqb collective (str "all_reduce"));
    destruct ((beginSize / 4) mod quant_a2a_embedding_dim =? 0);
    destruct ((beginSize' / 4) mod quant_a2a_embedding_dim =? 0);
    destruct (blockingFlag =? 1);
    destruct (dtype_eqb dt torch_float32);
    cbn [negb andb orb fst snd trace]; cbv beta iota;
    cbn [fst snd trace]; rewrite ?app_nil_r; split; reflexivity.
Qed.

Lemma checkQuantArgs_beginSize_only_warns_witness :
  fst (checkQuantArgs (str "all_to_all") torch_float32 100 32 1 empty_state)
  = fst (checkQuantArgs (str "all_to_all") torch_float32 128 32 1 empty_state)
  /\ trace (snd (checkQuantArgs (str "all_to_all") torch_float32 100 32 1
                   empty_state))
     = trace empty_state
       ++ (if str_in (str "all_to_all")
                (map str ["all_to_all"; "all_to_allv"]%string)
              && negb ((100 / 4) mod 32 =? 0)
           then [LogWarning (msg_begin_size_multiple 100 32)]
           else []).
Proof.
  apply (checkQuantArgs_beginSize_only_warns (str "all_to_all") torch_float32
           100 128 32 1 empty_state).
  lia.
Defined.

(** ** fixBeginSize: all_reduce and reduce *)

Lemma set_beginSize_same (p : commsParamsHolder.t) :
  commsParamsHolder.set_beginSize p (commsParamsHolder.beginSize p) = p.
Proof. destruct p. reflexivity. Qed.

(** X18.  For [all_reduce] and [reduce] the begin size is raised to one
    element and never lowered: [fixBeginSize] returns the holder with
    [beginSize] replaced by the larger of [beginSize] and [element_size],
    touches nothing else, and applied again changes nothing. *)
Theorem fixBeginSize_all_reduce (int_truediv : Z -> Z -> option float)
    (float_lt_int : float -> Z -> bool) (commsParams : commsParamsHolder.t)
    (world_size : Z) (s : state) :
  let fixed :=
    commsParamsHolder.set_beginSize commsParams
      (Z.max (commsParamsHolder.beginSize commsParams)
             (commsParamsHolder.element_size commsParams)) in
  commsParamsHolder.collective commsParams = str "all_reduce"
  \/ commsParamsHolder.collective commsParams = str "reduce" ->
  fixBeginSize int_truediv float_lt_int commsParams world_size s
  = (Ret fixed, s)
  /\ fixBeginSize int_truediv float_lt_int fixed world_size s = (Ret fixed, s).
Proof.
  intros fixed Hc.
  assert (Hrun : forall p,
    commsParamsHolder.collective p = commsParamsHolder.collective commsParams ->
    fixBeginSize int_truediv float_lt_int p world_size s
    = (Ret (commsParamsHolder.set_beginSize p
              (Z.max (commsParamsHolder.beginSize p)
                     (commsParamsHolder.element_size p))), s)).
  { intros p Hp. unfold fixBeginSize. rewrite Hp.
    assert (Hfirst :
      str_in (commsParamsHolder.collective commsParams)
        (map str ["all_to_all"; "all_to_allv"; "all_gather"; "all_gather_base";
                  "gather"; "reduce_scatter_base"]%string) = false)
      by (destruct Hc as [-> | ->]; reflexivity).
    assert (Hsecond :
      pystr_eqb (commsParamsHolder.collective commsParams) (str "all_reduce")
      || pystr_eqb (commsParamsHolder.collective commsParams) (str "reduce")
      = true)
      by (destruct Hc as [-> | ->]; reflexivity).
    rewrite Hfirst, Hsecond. unfold ret.
    destruct (Z.ltb_spec (commsParamsHolder.beginSize p)
                (commsParamsHolder.element_size p)) as [Hlt | Hge].
    - rewrite Z.max_r by lia. reflexivity.
    - rewrite Z.max_l by lia. rewrite set_beginSize_same. reflexivity. }
  split.
  - apply Hrun. reflexivity.
  - rewrite (Hrun fixed) by reflexivity. subst fixed.
    destruct commsParams as [c d dev dc sd dr b e bw q].
    cbn [commsParamsHolder.set_beginSize commsParamsHolder.beginSize
         commsParamsHolder.element_size commsParamsHolder.collective
         commsParamsHolder.dtype commsParamsHolder.device
         commsParamsHolder.dcheck commsParamsHolder.srcOrDst
         commsParamsHolder.dst_ranks commsParamsHolder.bitwidth
         commsParamsHolder.quant_a2a_embedding_dim].
    rewrite (Z.max_l (Z.max b e) e) by apply Z.le_max_r. reflexivity.
Qed.

Lemma fixBeginSize_all_reduce_witness :
  fixBeginSize small_int_truediv small_float_lt_int
    (commsParamsHolder.set_beginSize (params "all_reduce" 0) 1) 8 empty_state
  = (Ret (commsParamsHolder.set_beginSize
            (commsParamsHolder.set_beginSize (params "all_reduce" 0) 1)
            (Z.max 1 4)), empty_state)
  /\ fixBeginSize small_int_truediv small_float_lt_int
       (commsParamsHolder.set_beginSize
          (commsParamsHolder.set_beginSize (params "all_reduce" 0) 1)
          (Z.max 1 4)) 8 empty_state
     = (Ret (commsParamsHolder.set_beginSize
               (commsParamsHolder.set_beginSize (params "all_reduce" 0) 1)
               (Z.max 1 4)), empty_state).
Proof.
  apply (fixBeginSize_all_reduce small_int_truediv small_float_lt_int
           (commsParamsHolder.set_beginSize (params "all_reduce" 0) 1) 8
           empty_state).
  left. reflexivity.
Defined.

(** ** Command line and environment *)

Section CommandLineProperties.

Local Open Scope cli_scope.

Variable str_isnumeric : pystr -> bool.
Variable str_strip : pystr -> pystr.
Variable str_upper : pystr -> pystr.
Variable int_of_str : pystr -> option Z.
Variable logging_level : pystr -> option Z.

Lemma cli_bind_inv {A B : Type} (m : Cli A) (k : A -> Cli B)
    (s s'' : cli_state) (b : B) :
  cli_bind m k s = (CliRet b, s'') ->
  exists a s', m s = (CliRet a, s') /\ k a s' = (CliRet b, s'').
Proof.
  unfold cli_bind. destruct (m s) as [[a | e | n] s'] eqn:E; intros H;
    try discriminate.
  exists a, s'. split; [reflexivity | exact H].
Qed.

Lemma py_int_state (text : pystr) (s : cli_state) :
  snd (py_int int_of_str text s) = s.
Proof. unfold py_int. destruct (int_of_str text); reflexivity. Qed.

Lemma py_int_inv (text : pystr) (s s' : cli_state) (n : Z) :
  py_int int_of_str text s = (CliRet n, s') ->
  int_of_str text = Some n /\ s' = s.
Proof.
  unfold py_int. destruct (int_of_str text) as [v|]; cbn; intros H;
    inversion H; subst; split; reflexivity.
Qed.

Lemma map_int_state (texts : list pystr) (s : cli_state) :
  snd (map_int int_of_str texts s) = s.
Proof.
  induction texts as [|t rest IH]; [reflexivity|].
  cbn [map_int]. unfold cli_bind at 1.
  pose proof (py_int_state t s) as Ht.
  destruct (py_int int_of_str t s) as [[n | e | z] s1]; cbn in Ht; subst s1;
    try reflexivity.
  unfold cli_bind. destruct (map_int int_of_str rest s) as [[ns | e | z] s2];
    cbn in IH; subst s2; reflexivity.
Qed.

Lemma env2int_state (env_list : list pystr) (default : Z) (s : cli_state) :
  snd (env2int int_of_str env_list default s) = s.
Proof.
  induction env_list as [|e rest IH]; [reflexivity|].
  cbn [env2int]. unfold cli_bind, getenv.
  destruct (environ s e) as [t|].
  - pose proof (py_int_state t s) as Ht.
    destruct (py_int int_of_str t s) as [[v | x | z] s1]; cbn in Ht; subst s1;
      try reflexivity.
    destruct (0 <=? v); [reflexivity | exact IH].
  - cbn. exact IH.
Qed.

Lemma env2int_ret_state (env_list : list pystr) (default v : Z)
    (s s' : cli_state) :
  env2int int_of_str env_list default s = (CliRet v, s') -> s' = s.
Proof.
  intros H. pose proof (env2int_state env_list default s) as E.
  rewrite H in E. exact E.
Qed.

Lemma env2int_value (env_list : list pystr) (default v : Z)
    (s s' : cli_state) :
  env2int int_of_str env_list default s = (CliRet v, s') ->
  v = default \/ 0 <= v.
Proof.
  induction env_list as [|e rest IH]; intros Hrun.
  - cbn in Hrun. inversion Hrun. left. reflexivity.
  - cbn [env2int] in Hrun. unfold cli_bind at 1, getenv in Hrun.
    destruct (environ s e) as [t|].
    + unfold cli_bind, py_int in Hrun.
      destruct (int_of_str t) as [n|]; cbn in Hrun; [|discriminate].
      destruct (Z.leb_spec 0 n) as [Hle | Hlt]; [|exact (IH Hrun)].
      inversion Hrun; subst. right. exact Hle.
    + cbn in Hrun. exact (IH Hrun).
Qed.

(** X19.  What [env2int] returns is read off the first listed variable that
    holds a non-negative integer: the variables before it are unset or
    negative.  When every variable is passed over it returns the default.
    The environment and the log are left as they were. *)
Theorem env2int_returns (env_list : list pystr) (default v : Z)
    (s s' : cli_state) :
  env2int int_of_str env_list default s = (CliRet v, s') ->
  s' = s
  /\ ((v = default /\ forallb (env_skipped int_of_str s) env_list = true)
      \/ exists before e after t,
           env_list = before ++ e :: after
           /\ forallb (env_skipped int_of_str s) before = true
           /\ environ s e = Some t /\ int_of_str t = Some v /\ 0 <= v).
Proof.
  intros Hrun. split.
  { pose proof (env2int_state env_list default s) as H.
    rewrite Hrun in H. exact H. }
  revert Hrun. induction env_list as [|e rest IH]; intros Hrun.
  - cbn in Hrun. inversion Hrun; subst. left. split; reflexivity.
  - cbn [env2int] in Hrun. unfold cli_bind at 1, getenv in Hrun.
    cbn [forallb]. unfold env_skipped at 1.
    destruct (environ s e) as [t|] eqn:He.
    + unfold cli_bind, py_int in Hrun.
      destruct (int_of_str t) as [n|] eqn:Hn; cbn in Hrun; [|discriminate].
      destruct (Z.leb_spec 0 n) as [Hle | Hlt].
      * inversion Hrun; subst. right. exists [], e, rest, t.
        repeat split; assumption.
      * destruct (IH Hrun) as [[-> Hall] | (b & e' & a & t' & -> & Hb & H)].
        -- left. split; [reflexivity|].
           apply andb_true_intro. split; [apply Z.ltb_lt; lia | exact Hall].
        -- right. exists (e :: b), e', a, t'. split; [reflexivity|].
           split; [|exact H].
           cbn [forallb]. unfold env_skipped at 1. rewrite He, Hn.
           apply andb_true_intro. split; [apply Z.ltb_lt; lia | exact Hb].
    + cbn in Hrun.
      destruct (IH Hrun) as [[-> Hall] | (b & e' & a & t' & -> & Hb & H)].
      * left. split; [reflexivity | exact Hall].
      * right. exists (e :: b), e', a, t'. split; [reflexivity|].
        split; [|exact H].
        cbn [forallb]. unfold env_skipped at 1. rewrite He. exact Hb.
Qed.

(** X20.  A variable set to a text that [int] rejects stops [env2int] with
    the [ValueError] of that text as soon as the loop reaches it: the
    variables after it, and the default, are never looked at. *)
Theorem env2int_invalid_text_raises (before after : list pystr) (e t : pystr)
    (default : Z) (s : cli_state) :
  forallb (env_skipped int_of_str s) before = true ->
  environ s e = Some t ->
  int_of_str t = None ->
  env2int int_of_str (before ++ e :: after) default s
  = (CliRaise (IntValueError t), s).
Proof.
  intros Hb He Ht. induction before as [|x before IH].
  - cbn [app env2int]. unfold cli_bind, getenv, py_int, cli_raise.
    rewrite He, Ht. reflexivity.
  - cbn [forallb] in Hb. apply andb_prop in Hb. destruct Hb as [Hx Hb].
    cbn [app env2int]. unfold cli_bind at 1, getenv.
    unfold env_skipped in Hx.
    destruct (environ s x) as [tx|].
    + unfold cli_bind, py_int. destruct (int_of_str tx) as [n|];
        [|discriminate]. cbn.
      apply Z.ltb_lt in Hx. destruct (Z.leb_spec 0 n); [lia|].
      apply IH, Hb.
    + cbn. apply IH, Hb.
Qed.

(** X21.  Every field [read_comms_env_vars] returns is [-1] or a
    non-negative integer, and reading them changes neither the environment
    nor the log. *)
Theorem read_comms_env_vars_fields (p : comms_env_params.t)
    (s s' : cli_state) :
  read_comms_env_vars int_of_str s = (CliRet p, s') ->
  s' = s
  /\ -1 <= comms_env_params.world_size p
  /\ -1 <= comms_env_params.local_size p
  /\ -1 <= comms_env_params.global_rank p
  /\ -1 <= comms_env_params.local_rank p.
Proof.
  unfold read_comms_env_vars. intros H.
  apply cli_bind_inv in H. destruct H as (w & s1 & H1 & H).
  apply cli_bind_inv in H. destruct H as (l & s2 & H2 & H).
  apply cli_bind_inv in H. destruct H as (g & s3 & H3 & H).
  apply cli_bind_inv in H. destruct H as (r & s4 & H4 & H).
  inversion H; subst; clear H.
  pose proof (env2int_ret_state _ _ _ _ _ H1); subst s1.
  pose proof (env2int_ret_state _ _ _ _ _ H2); subst s2.
  pose proof (env2int_ret_state _ _ _ _ _ H3); subst s3.
  pose proof (env2int_ret_state _ _ _ _ _ H4); subst s'.
  apply env2int_value in H1, H2, H3, H4. cbn.
  split; [reflexivity|]. lia.
Qed.


(** *** parseRankList *)

Lemma reads_only_ret {A : Type} (a : A) : reads_only (cli_ret a).
Proof. intros s. split; [reflexivity | discriminate]. Qed.

Lemma reads_only_raise {A : Type} (e : cli_exn) :
  reads_only (@cli_raise A e).
Proof. intros s. split; [reflexivity | discriminate]. Qed.

Lemma reads_only_bind {A B : Type} (m : Cli A) (k : A -> Cli B) :
  reads_only m -> (forall a, reads_only (k a)) -> reads_only (cli_bind m k).
Proof.
  intros Hm Hk s. unfold cli_bind. destruct (Hm s) as [Hs Hx].
  destruct (m s) as [[a | e | n] s1]; cbn in Hs, Hx; subst s1.
  - apply Hk.
  - split; [reflexivity | discriminate].
  - exfalso. exact (Hx n eq_refl).
Qed.

Lemma reads_only_py_int (text : pystr) : reads_only (py_int int_of_str text).
Proof.
  unfold py_int. destruct (int_of_str text);
    [apply reads_only_ret | apply reads_only_raise].
Qed.

Lemma reads_only_map_int (texts : list pystr) :
  reads_only (map_int int_of_str texts).
Proof.
  induction texts as [|t rest IH]; cbn [map_int]; [apply reads_only_ret|].
  apply reads_only_bind; [apply reads_only_py_int|]. intros n.
  apply reads_only_bind; [exact IH|]. intros ns. apply reads_only_ret.
Qed.

Lemma reads_only_index (l : list Z) (i : nat) : reads_only (index l i).
Proof.
  unfold index. destruct (nth_error l i);
    [apply reads_only_ret | apply reads_only_raise].
Qed.

Lemma reads_only_run {A : Type} (m : Cli A) (s s' : cli_state)
    (o : cli_outcome A) :
  reads_only m -> m s = (o, s') -> s' = s /\ forall status, o <> CliExit status.
Proof. intros Hm H. destruct (Hm s) as [Hs Hx]. rewrite H in Hs, Hx. auto. Qed.

Lemma ordered_unique_spec (l seen : list Z) :
  NoDup (ordered_unique seen l)
  /\ forall x, In x (ordered_unique seen l) -> In x l /\ ~ In x seen.
Proof.
  revert seen. induction l as [|y l IH]; intros seen; cbn [ordered_unique].
  - split; [constructor | intros x []].
  - destruct (existsb (Z.eqb y) seen) eqn:E.
    + destruct (IH seen) as [Hn Hin]. split; [exact Hn|].
      intros x Hx. destruct (Hin x Hx). split; [right|]; assumption.
    + destruct (IH (y :: seen)) as [Hn Hin]. split.
      * constructor; [|exact Hn]. intros Hy. apply Hin in Hy.
        destruct Hy as [_ Hy]. apply Hy. left. reflexivity.
      * intros x [<- | Hx].
        -- split; [left; reflexivity|]. intros Hy.
           assert (existsb (Z.eqb y) seen = true) as E'
             by (apply existsb_exists; exists y; split;
                 [exact Hy | apply Z.eqb_refl]).
           congruence.
        -- apply Hin in Hx. destruct Hx as [Hx Hs]. split; [right; exact Hx|].
           intros Hy. apply Hs. right. exact Hy.
Qed.

Lemma NoDup_map_injective {A B : Type} (f : A -> B) (l : list A) :
  (forall x y, f x = f y -> x = y) -> NoDup l -> NoDup (map f l).
Proof.
  intros Hf Hl. induction Hl as [|x l Hx Hl IH]; cbn [map]; constructor;
    [|exact IH].
  rewrite in_map_iff. intros (y & Hy & Hin). apply Hf in Hy. subst y.
  exact (Hx Hin).
Qed.

Lemma range_list_NoDup (a b : Z) : NoDup (range_list a b).
Proof.
  unfold range_list. apply NoDup_map_injective; [|apply seq_NoDup].
  intros i j H. lia.
Qed.

Lemma parsed_ranks_NoDup (ipStr : pystr) (s s1 : cli_state) (l : list Z) :
  (if str_isnumeric ipStr then
     r <- py_int int_of_str ipStr ;;
     cli_ret [r]
   else if negb (str_find (code ",") ipStr =? -1) then
     rankList <- map_int int_of_str
                   (map str_strip (str_split (code ",") ipStr)) ;;
     cli_ret (ordered_unique [] rankList)
   else if negb (str_find (code ":") ipStr =? -1) then
     pos <- map_int int_of_str
              (map str_strip (str_split (code ":") ipStr)) ;;
     first <- index pos 0 ;;
     last <- index pos 1 ;;
     cli_ret (range_list first (last + 1))
   else cli_ret []) s = (CliRet l, s1) ->
  NoDup l.
Proof.
  destruct (str_isnumeric ipStr);
    [|destruct (negb (str_find (code ",") ipStr =? -1));
      [|destruct (negb (str_find (code ":") ipStr =? -1))]]; intros H.
  - apply cli_bind_inv in H. destruct H as (r & s2 & _ & H).
    inversion H. constructor; [intros [] | constructor].
  - apply cli_bind_inv in H. destruct H as (rl & s2 & _ & H).
    inversion H. apply ordered_unique_spec.
  - apply cli_bind_inv in H. destruct H as (pos & s2 & _ & H).
    apply cli_bind_inv in H. destruct H as (first & s3 & _ & H).
    apply cli_bind_inv in H. destruct H as (last & s4 & _ & H).
    inversion H. apply range_list_NoDup.
  - inversion H. constructor.
Qed.

Lemma parsed_ranks_reads_only (ipStr : pystr) :
  reads_only
    (if str_isnumeric ipStr then
       r <- py_int int_of_str ipStr ;;
       cli_ret [r]
     else if negb (str_find (code ",") ipStr =? -1) then
       rankList <- map_int int_of_str
                     (map str_strip (str_split (code ",") ipStr)) ;;
       cli_ret (ordered_unique [] rankList)
     else if negb (str_find (code ":") ipStr =? -1) then
       pos <- map_int int_of_str
                (map str_strip (str_split (code ":") ipStr)) ;;
       first <- index pos 0 ;;
       last <- index pos 1 ;;
       cli_ret (range_list first (last + 1))
     else cli_ret []).
Proof.
  destruct (str_isnumeric ipStr);
    [|destruct (negb (str_find (code ",") ipStr =? -1));
      [|destruct (negb (str_find (code ":") ipStr =? -1))]];
    repeat first [ apply reads_only_ret | apply reads_only_py_int
                 | apply reads_only_map_int | apply reads_only_index
                 | apply reads_only_bind | intros ? ].
Qed.

(** X22.  When [parseRankList] returns, every rank of the list is at least 0
    and below the world size, no rank occurs twice, the list is empty only
    for the empty string, and nothing was logged. *)
Theorem parseRankList_returns (ipStr ipName : pystr)
    (comms_world_info : comms_world_info_holder.t) (l : list Z)
    (s s' : cli_state) :
  parseRankList str_isnumeric str_strip int_of_str ipStr ipName
    comms_world_info s = (CliRet l, s') ->
  s' = s
  /\ NoDup l
  /\ Forall (fun r => 0 <= r
                      < comms_world_info_holder.world_size comms_world_info) l
  /\ (l = [] <-> ipStr = []).
Proof.
  unfold parseRankList. destruct ipStr as [|c rest].
  { intros H. inversion H. subst.
    repeat split; [constructor | constructor]. }
  set (ipStr := c :: rest). intros H.
  apply cli_bind_inv in H. destruct H as (l0 & s1 & Hparse & H).
  apply cli_bind_inv in H. destruct H as ([] & s2 & Hcheck & H).
  inversion H; subst l0 s2; clear H.
  pose proof (parsed_ranks_NoDup _ _ _ _ Hparse) as Hnd.
  apply (reads_only_run _ _ _ _ (parsed_ranks_reads_only ipStr)) in Hparse.
  destruct Hparse as [-> _].
  destruct ((List.length l =? 0)%nat
            || existsb
                 (fun r => (r <? 0)
                           || (comms_world_info_holder.world_size
                                 comms_world_info <=? r)) l) eqn:Hbad.
  { exfalso. unfold cli_bind, cli_emit, gracefulExit_default, cli_ret in Hcheck.
    destruct (comms_world_info_holder.global_rank comms_world_info =? 0);
      discriminate. }
  inversion Hcheck; subst s'; clear Hcheck.
  apply orb_false_iff in Hbad. destruct Hbad as [Hlen Hall].
  split; [reflexivity|]. split; [exact Hnd|]. split.
  - apply Forall_forall. intros r Hr.
    destruct ((r <? 0)
              || (comms_world_info_holder.world_size comms_world_info <=? r))
      eqn:E.
    + assert (existsb
                (fun r => (r <? 0)
                          || (comms_world_info_holder.world_size
                                comms_world_info <=? r)) l = true) as E'
        by (apply existsb_exists; exists r; split; assumption).
      congruence.
    + apply orb_false_iff in E. destruct E as [E1 E2].
      apply Z.ltb_ge in E1. apply Z.leb_gt in E2. lia.
  - split; intros E; [|discriminate]. subst l. discriminate.
Qed.

(** X23.  [parseRankList] only ever exits with status 0, and then it has
    logged its error exactly when the caller is global rank 0; the
    environment is untouched. *)
Theorem parseRankList_exit (ipStr ipName : pystr)
    (comms_world_info : comms_world_info_holder.t) (status : Z)
    (s s' : cli_state) :
  parseRankList str_isnumeric str_strip int_of_str ipStr ipName
    comms_world_info s = (CliExit status, s') ->
  status = 0
  /\ environ s' = environ s
  /\ cli_trace s'
     = cli_trace s
       ++ (if comms_world_info_holder.global_rank comms_world_info =? 0
           then [CliLogError (msg_could_not_parse_ranks ipName ipStr)]
           else []).
Proof.
  unfold parseRankList. destruct ipStr as [|c rest]; [discriminate|].
  set (ipStr := c :: rest). unfold cli_bind at 1.
  pose proof (parsed_ranks_reads_only ipStr s) as [Hs Hx].
  match type of Hs with snd (?b s) = _ => destruct (b s) as [[l | e | n] s1] end;
    cbn in Hs, Hx; subst s1; [|discriminate | intros _; destruct (Hx n eq_refl)].
  destruct ((List.length l =? 0)%nat
            || existsb
                 (fun r => (r <? 0)
                           || (comms_world_info_holder.world_size
                                 comms_world_info <=? r)) l).
  - unfold cli_bind, cli_emit, gracefulExit_default, cli_ret.
    destruct (comms_world_info_holder.global_rank comms_world_info =? 0);
      intros H; inversion H; subst; cbn; rewrite ?app_nil_r; auto.
  - discriminate.
Qed.


(** *** parsesize *)

Lemma str_find_absent (c : N) (s : pystr) : str_find c s = -1 <-> ~ In c s.
Proof.
  induction s as [|x s IH]; cbn [str_find In].
  - split; [intros _ [] | reflexivity].
  - assert (Hnn : 0 <= str_find c s \/ str_find c s = -1).
    { clear IH. induction s as [|y s IH]; cbn [str_find]; [right; reflexivity|].
      destruct (N.eqb y c); [left; lia|].
      destruct (str_find c s =? -1) eqn:E; [right; reflexivity|].
      apply Z.eqb_neq in E. left. lia. }
    destruct (N.eqb_spec x c) as [-> | Hne].
    + split; [discriminate | intros H; exfalso; apply H; left; reflexivity].
    + destruct (Z.eqb_spec (str_find c s) (-1)) as [E | E].
      * split; [|reflexivity]. intros _ [Hx | Hin]; [exact (Hne Hx)|].
        apply IH in E. exact (E Hin).
      * split; [lia|]. intros H. exfalso. apply E, IH.
        intros Hin. apply H. right. exact Hin.
Qed.

Lemma str_find_first (c : N) (p rest : pystr) :
  ~ In c p -> str_find c (p ++ c :: rest) = Z.of_nat (List.length p).
Proof.
  induction p as [|x p IH]; intros Hp.
  - cbn. rewrite N.eqb_refl. reflexivity.
  - cbn [app str_find List.length].
    destruct (N.eqb_spec x c) as [-> | Hne];
      [exfalso; apply Hp; left; reflexivity|].
    rewrite IH by (intros H; apply Hp; right; exact H).
    destruct (Z.eqb_spec (Z.of_nat (List.length p)) (-1)); lia.
Qed.

Lemma str_prefix_first (c : N) (p rest : pystr) :
  str_prefix (p ++ c :: rest) (Z.of_nat (List.length p)) = p.
Proof.
  unfold str_prefix. rewrite Nat2Z.id, firstn_app, Nat.sub_diag, firstn_all.
  cbn. apply app_nil_r.
Qed.

Lemma str_find_present (c : N) (s : pystr) : str_find c s <> -1 -> In c s.
Proof.
  intros H. destruct (in_dec N.eq_dec c s) as [Hin | Hout]; [exact Hin|].
  exfalso. apply H, str_find_absent, Hout.
Qed.

Lemma parsed_unit_multiple (text : pystr) (units n : Z) (s s' : cli_state) :
  cli_bind (py_int int_of_str text) (fun value => cli_ret (value * units)) s
  = (CliRet n, s') ->
  (units | n).
Proof.
  intros H. apply cli_bind_inv in H. destruct H as (value & s1 & _ & H).
  inversion H. exists value. reflexivity.
Qed.

(** X24.  A size given with a unit letter is a whole number of that unit.
    When [parsesize] returns for a text that is not numeric, the result is a
    multiple of 2^30 if the text holds a G; failing that, of 2^20 if it
    holds an M; and otherwise the text holds a K and the result is a
    multiple of 2^10. *)
Theorem parsesize_unit_multiple (text : pystr) (n : Z) (s s' : cli_state) :
  str_isnumeric text = false ->
  parsesize str_isnumeric int_of_str (IpStr text) s = (CliRet n, s') ->
  (In (code "G") text -> (1073741824 | n))
  /\ (~ In (code "G") text -> In (code "M") text -> (1048576 | n))
  /\ (~ In (code "G") text -> ~ In (code "M") text ->
      In (code "K") text /\ (1024 | n)).
Proof.
  intros Hnum H. cbn [parsesize] in H. rewrite Hnum in H.
  destruct (Z.eqb_spec (str_find (code "G") text) (-1)) as [HG | HG];
    cbn [negb] in H.
  2:{ apply str_find_present in HG. apply parsed_unit_multiple in H.
      repeat split; try (intros; contradiction); intros; exact H. }
  apply str_find_absent in HG.
  destruct (Z.eqb_spec (str_find (code "M") text) (-1)) as [HM | HM];
    cbn [negb] in H.
  2:{ apply str_find_present in HM. apply parsed_unit_multiple in H.
      repeat split; try (intros; contradiction); intros; exact H. }
  apply str_find_absent in HM.
  destruct (Z.eqb_spec (str_find (code "K") text) (-1)) as [HK | HK];
    cbn [negb] in H.
  2:{ apply str_find_present in HK. apply parsed_unit_multiple in H.
      repeat split; try (intros; contradiction); intros; assumption. }
  discriminate.
Qed.

(** X25.  [parsesize] fails in two ways only.  It raises the [ValueError] of
    [int] on a prefix of the text, having logged nothing; or, for a text that
    is not numeric and holds none of the letters G, M and K, it logs one
    error and exits with status 0.  The environment is never changed. *)
Theorem parsesize_failures (ipValue : ip_value) (s : cli_state) :
  match parsesize str_isnumeric int_of_str ipValue s with
  | (CliRet _, s') => s' = s
  | (CliRaise e, s') =>
      s' = s
      /\ exists text k, ipValue = IpStr text
                        /\ e = IntValueError (firstn k text)
  | (CliExit status, s') =>
      status = 0
      /\ environ s' = environ s
      /\ exists text,
           ipValue = IpStr text
           /\ cli_trace s'
              = cli_trace s ++ [CliLogError (msg_could_not_parse_size text)]
           /\ str_isnumeric text = false
           /\ ~ In (code "G") text /\ ~ In (code "M") text
           /\ ~ In (code "K") text
  end.
Proof.
  destruct ipValue as [m | text]; cbn [parsesize]; [reflexivity|].
  assert (Hp : forall k u,
            match cli_bind (py_int int_of_str (firstn k text))
                    (fun v => cli_ret (v * u)) s with
            | (CliRet _, s') => s' = s
            | (CliRaise e, s') =>
                s' = s
                /\ exists text' k', IpStr text = IpStr text'
                                    /\ e = IntValueError (firstn k' text')
            | (CliExit status, s') =>
                status = 0
                /\ environ s' = environ s
                /\ exists text',
                     IpStr text = IpStr text'
                     /\ cli_trace s'
                        = cli_trace s
                          ++ [CliLogError (msg_could_not_parse_size text')]
                     /\ str_isnumeric text' = false
                     /\ ~ In (code "G") text' /\ ~ In (code "M") text'
                     /\ ~ In (code "K") text'
            end).
  { intros k u. unfold cli_bind, py_int, cli_ret, cli_raise.
    destruct (int_of_str (firstn k text)); [reflexivity|].
    split; [reflexivity|]. exists text, k. split; reflexivity. }
  destruct (str_isnumeric text) eqn:Hnum.
  { specialize (Hp (List.length text) 1). rewrite firstn_all in Hp. exact Hp. }
  destruct (Z.eqb_spec (str_find (code "G") text) (-1)) as [HG | HG];
    cbn [negb]; [|apply Hp].
  destruct (Z.eqb_spec (str_find (code "M") text) (-1)) as [HM | HM];
    cbn [negb]; [|apply Hp].
  destruct (Z.eqb_spec (str_find (code "K") text) (-1)) as [HK | HK];
    cbn [negb]; [|apply Hp].
  cbn. split; [reflexivity|]. split; [reflexivity|].
  exists text. split; [reflexivity|]. split; [reflexivity|].
  split; [exact Hnum|].
  repeat split; apply str_find_absent; assumption.
Qed.

(** X26.  The letter G wins over everything around it: for a text that is
    not numeric, [parsesize] reads the integer before the first G and counts
    it in units of 2^30, whatever follows the G and whatever letters come
    before it; when that prefix is no integer it raises. *)
Theorem parsesize_G_first (p rest : pystr) (s : cli_state) :
  str_isnumeric (p ++ code "G" :: rest) = false ->
  ~ In (code "G") p ->
  parsesize str_isnumeric int_of_str (IpStr (p ++ code "G" :: rest)) s
  = match int_of_str p with
    | Some v => (CliRet (v * 1073741824), s)
    | None => (CliRaise (IntValueError p), s)
    end.
Proof.
  intros Hnum Hp. cbn [parsesize]. rewrite Hnum.
  rewrite (str_find_first _ _ _ Hp), str_prefix_first.
  destruct (Z.eqb_spec (Z.of_nat (List.length p)) (-1)); [lia|]. cbn [negb].
  unfold cli_bind, py_int, cli_ret, cli_raise.
  destruct (int_of_str p); reflexivity.
Qed.


(** *** checkArgs *)

Lemma reads_only_env2int (env_list : list pystr) (default : Z) :
  reads_only (env2int int_of_str env_list default).
Proof.
  induction env_list as [|e rest IH]; cbn [env2int]; [apply reads_only_ret|].
  apply reads_only_bind; [intros s; split; [reflexivity | discriminate]|].
  intros text. apply reads_only_bind.
  - destruct text; [apply reads_only_py_int | apply reads_only_ret].
  - intros val. destruct (0 <=? val); [apply reads_only_ret | exact IH].
Qed.

Lemma reads_only_read_comms_env_vars :
  reads_only (read_comms_env_vars int_of_str).
Proof.
  unfold read_comms_env_vars.
  repeat first [ apply reads_only_ret | apply reads_only_env2int
               | apply reads_only_bind | intros ? ].
Qed.

Lemma resolve_master_run (name value default : pystr)
    (differs : pystr -> pystr -> cli_message) (kept : pystr -> cli_message)
    (s : cli_state) :
  exists s',
    resolve_master name value default differs kept s = (CliRet tt, s')
    /\ forall k,
         environ s' k
         = if pystr_eqb k name
           then Some (if pystr_eqb value default
                      then match environ s name with
                           | Some env => env
                           | None => value
                           end
                      else value)
           else environ s k.
Proof.
  unfold resolve_master, cli_bind, getenv, setenv, cli_emit.
  destruct (environ s name) as [env|] eqn:E.
  - unfold str_in. cbn [existsb]. rewrite orb_false_r.
    destruct (pystr_eqb value default) eqn:Ed;
      [|destruct (pystr_eqb value env) eqn:Ee]; cbn [orb negb].
    + eexists. split; [reflexivity|]. intros k. cbn [environ].
      destruct (pystr_eqb k name) eqn:Ek; [|reflexivity].
      apply pystr_eqb_eq in Ek. subst k. exact E.
    + eexists. split; [reflexivity|]. intros k. cbn [environ].
      destruct (pystr_eqb k name) eqn:Ek; [|reflexivity].
      apply pystr_eqb_eq in Ek. subst k. apply pystr_eqb_eq in Ee. subst env.
      exact E.
    + eexists. split; [reflexivity|]. intros k. reflexivity.
  - eexists. split; [reflexivity|]. intros k. cbn [environ].
    destruct (pystr_eqb value default); reflexivity.
Qed.

Lemma checkArgs_steps (supportedNwstacks : list pystr) (args : Namespace.t)
    (s s' : cli_state) (u : unit) :
  checkArgs str_upper int_of_str logging_level supportedNwstacks args s
  = (CliRet u, s') ->
  str_in (Namespace.nw_stack args) supportedNwstacks = true
  /\ existsb (Z.eqb (Namespace.num_tpu_cores args)) [1; 8] = true
  /\ exists level p sa,
       logging_level (str_upper (Namespace.log args)) = Some level
       /\ read_comms_env_vars int_of_str s = (CliRet p, s)
       /\ resolve_master (str "MASTER_ADDR") (Namespace.master_ip args)
            default_master_ip msg_master_ip_differs msg_using_master_addr
            {| environ := environ s;
               cli_trace := cli_trace s
                            ++ [BasicConfig level
                                  (comms_env_params.global_rank p)] |}
          = (CliRet tt, sa)
       /\ resolve_master (str "MASTER_PORT") (Namespace.master_port args)
            default_master_port msg_master_port_differs msg_using_master_port
            sa
          = (CliRet tt, s').
Proof.
  unfold checkArgs. intros H.
  apply cli_bind_inv in H. destruct H as ([] & s1 & H1 & H).
  apply cli_bind_inv in H. destruct H as ([] & s2 & H2 & H).
  apply cli_bind_inv in H. destruct H as (level & s3 & H3 & H).
  apply cli_bind_inv in H. destruct H as (p & s4 & H4 & H).
  apply cli_bind_inv in H. destruct H as ([] & s5 & H5 & H).
  apply cli_bind_inv in H. destruct H as ([] & s6 & H6 & H).
  destruct (str_in (Namespace.nw_stack args) supportedNwstacks);
    [|discriminate].
  inversion H1; subst s1; clear H1.
  destruct (existsb (Z.eqb (Namespace.num_tpu_cores args)) [1; 8]);
    [|discriminate].
  inversion H2; subst s2; clear H2.
  destruct (logging_level (str_upper (Namespace.log args))) as [lv|];
    [|discriminate].
  inversion H3; subst lv s3; clear H3.
  pose proof (reads_only_run _ _ _ _ reads_only_read_comms_env_vars H4)
    as [-> _].
  unfold cli_emit in H5. inversion H5; subst s5; clear H5.
  destruct u.
  split; [reflexivity|]. split; [reflexivity|].
  exists level, p, s6. repeat split; assumption.
Qed.

Lemma checkArgs_environ (supportedNwstacks : list pystr) (args : Namespace.t)
    (s s' : cli_state) (u : unit) :
  checkArgs str_upper int_of_str logging_level supportedNwstacks args s
  = (CliRet u, s') ->
  forall k,
    environ s' k
    = if pystr_eqb k (str "MASTER_PORT")
      then Some (if pystr_eqb (Namespace.master_port args) default_master_port
                 then match environ s (str "MASTER_PORT") with
                      | Some env => env
                      | None => Namespace.master_port args
                      end
                 else Namespace.master_port args)
      else if pystr_eqb k (str "MASTER_ADDR")
      then Some (if pystr_eqb (Namespace.master_ip args) default_master_ip
                 then match environ s (str "MASTER_ADDR") with
                      | Some env => env
                      | None => Namespace.master_ip args
                      end
                 else Namespace.master_ip args)
      else environ s k.
Proof.
  intros H. apply checkArgs_steps in H.
  destruct H as (_ & _ & level & p & sa & _ & _ & Ha & Hp).
  match type of Ha with
  | resolve_master ?n ?v ?d ?f ?g ?st = _ =>
      destruct (resolve_master_run n v d f g st) as (ta & Ra & Haddr)
  end.
  rewrite Ra in Ha. inversion Ha; subst ta; clear Ha Ra.
  match type of Hp with
  | resolve_master ?n ?v ?d ?f ?g ?st = _ =>
      destruct (resolve_master_run n v d f g st) as (tp & Rp & Hport)
  end.
  rewrite Rp in Hp. inversion Hp; subst tp; clear Hp Rp.
  cbn [environ] in Haddr. intros k. rewrite Hport.
  rewrite (Haddr (str "MASTER_PORT")).
  change (pystr_eqb (str "MASTER_PORT") (str "MASTER_ADDR")) with false.
  cbv iota. rewrite (Haddr k). reflexivity.
Qed.

(** X27.  When [checkArgs] returns, MASTER_ADDR and MASTER_PORT are both
    set: to the command-line value when that is not the built-in default,
    otherwise to the value the environment already had, and to the default
    when it had none.  No other variable is changed. *)
Theorem checkArgs_master_settings (supportedNwstacks : list pystr)
    (args : Namespace.t) (s s' : cli_state) (u : unit) :
  checkArgs str_upper int_of_str logging_level supportedNwstacks args s
  = (CliRet u, s') ->
  environ s' (str "MASTER_ADDR")
  = Some (if pystr_eqb (Namespace.master_ip args) default_master_ip
          then match environ s (str "MASTER_ADDR") with
               | Some env => env
               | None => default_master_ip
               end
          else Namespace.master_ip args)
  /\ environ s' (str "MASTER_PORT")
     = Some (if pystr_eqb (Namespace.master_port args) default_master_port
             then match environ s (str "MASTER_PORT") with
                  | Some env => env
                  | None => default_master_port
                  end
             else Namespace.master_port args)
  /\ forall k, k <> str "MASTER_ADDR" -> k <> str "MASTER_PORT" ->
               environ s' k = environ s k.
Proof.
  intros H. pose proof (checkArgs_environ _ _ _ _ _ H) as Henv.
  split; [|split].
  - rewrite Henv.
    change (pystr_eqb (str "MASTER_ADDR") (str "MASTER_PORT")) with false.
    rewrite pystr_eqb_refl. cbv iota.
    destruct (pystr_eqb (Namespace.master_ip args) default_master_ip) eqn:Ed;
      [|reflexivity].
    destruct (environ s (str "MASTER_ADDR")); [reflexivity|].
    apply pystr_eqb_eq in Ed. rewrite Ed. reflexivity.
  - rewrite Henv, pystr_eqb_refl.
    destruct (pystr_eqb (Namespace.master_port args) default_master_port)
      eqn:Ed; [|reflexivity].
    destruct (environ s (str "MASTER_PORT")); [reflexivity|].
    apply pystr_eqb_eq in Ed. rewrite Ed. reflexivity.
  - intros k Ka Kp. rewrite Henv.
    destruct (pystr_eqb k (str "MASTER_PORT")) eqn:E1;
      [apply pystr_eqb_eq in E1; contradiction|].
    destruct (pystr_eqb k (str "MASTER_ADDR")) eqn:E2;
      [apply pystr_eqb_eq in E2; contradiction|].
    reflexivity.
Qed.






Lemma cli_bind_agree {A B : Type} (P : pystr -> Prop) (m : Cli A)
    (k : A -> Cli B) :
  (forall s1 s, (forall x, P x -> environ s1 x = environ s x) ->
                m s1 = (fst (m s), s1)) ->
  (forall a s1 s, (forall x, P x -> environ s1 x = environ s x) ->
                  k a s1 = (fst (k a s), s1)) ->
  forall s1 s, (forall x, P x -> environ s1 x = environ s x) ->
               cli_bind m k s1 = (fst (cli_bind m k s), s1).
Proof.
  intros Hm Hk s1 s Hagree. unfold cli_bind.
  rewrite (Hm s1 s Hagree). rewrite (Hm s s (fun _ _ => eq_refl)).
  destruct (fst (m s)) as [a | e | n]; [|reflexivity | reflexivity].
  apply Hk, Hagree.
Qed.

Lemma env2int_agree (P : pystr -> Prop) (env_list : list pystr) (default : Z) :
  (forall e, In e env_list -> P e) ->
  forall s1 s, (forall x, P x -> environ s1 x = environ s x) ->
               env2int int_of_str env_list default s1
               = (fst (env2int int_of_str env_list default s), s1).
Proof.
  intros Hl s1 s Hagree. induction env_list as [|e rest IH]; [reflexivity|].
  cbn [env2int]. unfold cli_bind, getenv.
  rewrite (Hagree e) by (apply Hl; left; reflexivity).
  destruct (environ s e) as [t|].
  - unfold py_int. destruct (int_of_str t) as [n|]; cbn; [|reflexivity].
    destruct (0 <=? n); [reflexivity|].
    apply IH. intros x Hx. apply Hl. right. exact Hx.
  - cbn. apply IH. intros x Hx. apply Hl. right. exact Hx.
Qed.

Lemma read_comms_env_vars_agree (s1 s : cli_state) :
  (forall x, x <> str "MASTER_ADDR" /\ x <> str "MASTER_PORT" ->
             environ s1 x = environ s x) ->
  read_comms_env_vars int_of_str s1
  = (fst (read_comms_env_vars int_of_str s), s1).
Proof.
  unfold read_comms_env_vars.
  repeat (apply cli_bind_agree;
          [apply env2int_agree; intros e He; cbn in He;
           repeat (destruct He as [<- | He]; [split; discriminate|]);
           destruct He
          | intros ?]).
  intros s1' s' _. reflexivity.
Qed.

Lemma resolve_master_kept (name value default env : pystr)
    (differs : pystr -> pystr -> cli_message) (kept : pystr -> cli_message)
    (s : cli_state) :
  environ s name = Some env ->
  str_in value [default; env] = true ->
  resolve_master name value default differs kept s
  = (CliRet tt, {| environ := environ s;
                   cli_trace := cli_trace s ++ [CliLogInfo (kept env)] |}).
Proof.
  intros He Hin. unfold resolve_master, cli_bind, getenv.
  rewrite He, Hin. reflexivity.
Qed.

(** X29.  [checkArgs] settles the environment in one call.  Called again
    with the same arguments after it has returned, it returns again, changes
    no variable, and finds nothing to warn about: it logs that it uses the
    MASTER_ADDR and MASTER_PORT now in the environment. *)
Theorem checkArgs_twice (supportedNwstacks : list pystr) (args : Namespace.t)
    (s s1 : cli_state) (u : unit) :
  checkArgs str_upper int_of_str logging_level supportedNwstacks args s
  = (CliRet u, s1) ->
  exists s2 level global_rank addr port,
    checkArgs str_upper int_of_str logging_level supportedNwstacks args s1
    = (CliRet tt, s2)
    /\ environ s2 = environ s1
    /\ environ s1 (str "MASTER_ADDR") = Some addr
    /\ environ s1 (str "MASTER_PORT") = Some port
    /\ cli_trace s2
       = cli_trace s1
         ++ [BasicConfig level global_rank;
             CliLogInfo (msg_using_master_addr addr);
             CliLogInfo (msg_using_master_port port)].
Proof.
  intros H. pose proof (checkArgs_environ _ _ _ _ _ H) as Henv.
  apply checkArgs_steps in H.
  destruct H as (Hnw & Htpu & level & p & sa & Hlevel & Hread & _ & _).
  assert (Hread1 : read_comms_env_vars int_of_str s1 = (CliRet p, s1)).
  { rewrite (read_comms_env_vars_agree s1 s), Hread; [reflexivity|].
    intros x [Ha Hp]. rewrite Henv.
    destruct (pystr_eqb x (str "MASTER_PORT")) eqn:E1;
      [apply pystr_eqb_eq in E1; contradiction|].
    destruct (pystr_eqb x (str "MASTER_ADDR")) eqn:E2;
      [apply pystr_eqb_eq in E2; contradiction|].
    reflexivity. }
  pose proof (Henv (str "MASTER_ADDR")) as Haddr.
  change (pystr_eqb (str "MASTER_ADDR") (str "MASTER_PORT")) with false
    in Haddr.
  rewrite pystr_eqb_refl in Haddr. cbv iota in Haddr.
  pose proof (Henv (str "MASTER_PORT")) as Hport.
  rewrite pystr_eqb_refl in Hport.
  eexists _, level, (comms_env_params.global_rank p), _, _.
  split; [|split; [|split; [exact Haddr | split; [exact Hport|]]]].
  - unfold checkArgs. rewrite Hnw, Htpu, Hlevel. cbn [negb].
    unfold cli_bind at 1. cbn [cli_ret].
    unfold cli_bind at 1. cbn [cli_ret].
    unfold cli_bind at 1. cbn [cli_ret].
    unfold cli_bind at 1. rewrite Hread1.
    unfold cli_bind at 1. cbn [cli_emit].
    unfold cli_bind.
    erewrite resolve_master_kept; [| exact Haddr |].
    + erewrite resolve_master_kept; [reflexivity | exact Hport |].
      unfold str_in. cbn [existsb].
      destruct (pystr_eqb (Namespace.master_port args) default_master_port);
        [reflexivity|].
      rewrite pystr_eqb_refl. reflexivity.
    + unfold str_in. cbn [existsb].
      destruct (pystr_eqb (Namespace.master_ip args) default_master_ip);
        [reflexivity|].
      rewrite pystr_eqb_refl. reflexivity.
  - reflexivity.
  - cbn [cli_trace]. rewrite <- !app_assoc. reflexivity.
Qed.

End CommandLineProperties.

Lemma env2int_returns_witness :
  cli_start [("PMI_SIZE", "-3"); ("WORLD_SIZE", "4")]%string
  = cli_start [("PMI_SIZE", "-3"); ("WORLD_SIZE", "4")]%string
  /\ ((4 = -1
       /\ forallb
            (env_skipped ascii_int_of_str
               (cli_start [("PMI_SIZE", "-3"); ("WORLD_SIZE", "4")]%string))
            (map str ["OMPI_COMM_WORLD_SIZE"; "PMI_SIZE"; "WORLD_SIZE"]%string)
          = true)
      \/ exists before e after t,
           map str ["OMPI_COMM_WORLD_SIZE"; "PMI_SIZE"; "WORLD_SIZE"]%string
           = before ++ e :: after
           /\ forallb
                (env_skipped ascii_int_of_str
                   (cli_start [("PMI_SIZE", "-3");
                               ("WORLD_SIZE", "4")]%string)) before
              = true
           /\ environ
                (cli_start [("PMI_SIZE", "-3"); ("WORLD_SIZE", "4")]%string) e
              = Some t
           /\ ascii_int_of_str t = Some 4 /\ 0 <= 4).
Proof.
  apply (env2int_returns ascii_int_of_str
           (map str ["OMPI_COMM_WORLD_SIZE"; "PMI_SIZE"; "WORLD_SIZE"]%string)
           (-1) 4
           (cli_start [("PMI_SIZE", "-3"); ("WORLD_SIZE", "4")]%string)
           (cli_start [("PMI_SIZE", "-3"); ("WORLD_SIZE", "4")]%string)).
  reflexivity.
Defined.

Lemma env2int_invalid_text_raises_witness :
  env2int ascii_int_of_str
    (map str ["OMPI_COMM_WORLD_RANK"%string] ++ str "PMI_RANK"
       :: map str ["RANK"%string])
    (-1) (cli_start [("PMI_RANK", "two"); ("RANK", "2")]%string)
  = (CliRaise (IntValueError (str "two")),
     cli_start [("PMI_RANK", "two"); ("RANK", "2")]%string).
Proof.
  apply (env2int_invalid_text_raises ascii_int_of_str
           (map str ["OMPI_COMM_WORLD_RANK"]%string) (map str ["RANK"]%string)
           (str "PMI_RANK") (str "two") (-1)
           (cli_start [("PMI_RANK", "two"); ("RANK", "2")]%string));
    reflexivity.
Defined.

Lemma read_comms_env_vars_fields_witness :
  cli_start [("WORLD_SIZE", "8"); ("RANK", "3"); ("LOCAL_RANK", "-5")]%string
  = cli_start [("WORLD_SIZE", "8"); ("RANK", "3"); ("LOCAL_RANK", "-5")]%string
  /\ -1 <= 8 /\ -1 <= -1 /\ -1 <= 3 /\ -1 <= -1.
Proof.
  apply (read_comms_env_vars_fields ascii_int_of_str
           {| comms_env_params.world_size := 8;
              comms_env_params.local_size := -1;
              comms_env_params.global_rank := 3;
              comms_env_params.local_rank := -1 |}
           (cli_start [("WORLD_SIZE", "8"); ("RANK", "3");
                       ("LOCAL_RANK", "-5")]%string)
           (cli_start [("WORLD_SIZE", "8"); ("RANK", "3");
                       ("LOCAL_RANK", "-5")]%string)).
  reflexivity.
Defined.

Lemma parseRankList_returns_witness :
  cli_start [] = cli_start []
  /\ NoDup [1; 2; 5]
  /\ Forall (fun r => 0 <= r < 8) [1; 2; 5]
  /\ ([1; 2; 5] = [] <-> str "1, 2,1 ,5" = []).
Proof.
  apply (parseRankList_returns ascii_isnumeric ascii_strip ascii_int_of_str
           (str "1, 2,1 ,5") (str "src_ranks") world_of_8 [1; 2; 5]
           (cli_start []) (cli_start [])).
  reflexivity.
Defined.

Lemma parseRankList_exit_witness :
  0 = 0
  /\ environ {| environ := env_of [];
                cli_trace := [CliLogError
                                (msg_could_not_parse_ranks (str "dst_ranks")
                                   (str "6:9"))] |}
     = environ (cli_start [])
  /\ cli_trace {| environ := env_of [];
                  cli_trace := [CliLogError
                                  (msg_could_not_parse_ranks (str "dst_ranks")
                                     (str "6:9"))] |}
     = cli_trace (cli_start [])
       ++ (if comms_world_info_holder.global_rank world_of_8 =? 0
           then [CliLogError
                   (msg_could_not_parse_ranks (str "dst_ranks") (str "6:9"))]
           else []).
Proof.
  apply (parseRankList_exit ascii_isnumeric ascii_strip ascii_int_of_str
           (str "6:9") (str "dst_ranks") world_of_8 0 (cli_start [])).
  reflexivity.
Defined.

Lemma parsesize_unit_multiple_witness :
  (In (code "G") (str "4K") -> (1073741824 | 4096))
  /\ (~ In (code "G") (str "4K") -> In (code "M") (str "4K") ->
      (1048576 | 4096))
  /\ (~ In (code "G") (str "4K") -> ~ In (code "M") (str "4K") ->
      In (code "K") (str "4K") /\ (1024 | 4096)).
Proof.
  apply (parsesize_unit_multiple ascii_isnumeric ascii_int_of_str (str "4K")
           4096 (cli_start []) (cli_start [])).
  - reflexivity.
  - reflexivity.
Defined.

Lemma parsesize_G_first_witness :
  parsesize ascii_isnumeric ascii_int_of_str
    (IpStr (str "1K" ++ code "G" :: str "B")) (cli_start [])
  = match ascii_int_of_str (str "1K") with
    | Some v => (CliRet (v * 1073741824), cli_start [])
    | None => (CliRaise (IntValueError (str "1K")), cli_start [])
    end.
Proof.
  apply (parsesize_G_first ascii_isnumeric ascii_int_of_str (str "1K") (str "B")
           (cli_start [])).
  - reflexivity.
  - cbn. intros [H | [H | []]]; discriminate.
Defined.

Lemma checkArgs_master_settings_witness :
  environ
    (snd (checkArgs ascii_upper ascii_int_of_str std_logging_level
            [str "pytorch-dist"] (args_of "10.0.0.1" "29500") rank_3_env))
    (str "MASTER_ADDR")
  = Some (if pystr_eqb (Namespace.master_ip (args_of "10.0.0.1" "29500"))
               default_master_ip
          then match environ rank_3_env (str "MASTER_ADDR") with
               | Some env => env
               | None => default_master_ip
               end
          else Namespace.master_ip (args_of "10.0.0.1" "29500"))
  /\ environ
       (snd (checkArgs ascii_upper ascii_int_of_str std_logging_level
               [str "pytorch-dist"] (args_of "10.0.0.1" "29500") rank_3_env))
       (str "MASTER_PORT")
     = Some (if pystr_eqb (Namespace.master_port (args_of "10.0.0.1" "29500"))
                  default_master_port
             then match environ rank_3_env (str "MASTER_PORT") with
                  | Some env => env
                  | None => default_master_port
                  end
             else Namespace.master_port (args_of "10.0.0.1" "29500"))
  /\ forall k, k <> str "MASTER_ADDR" -> k <> str "MASTER_PORT" ->
               environ
                 (snd (checkArgs ascii_upper ascii_int_of_str std_logging_level
                         [str "pytorch-dist"] (args_of "10.0.0.1" "29500")
                         rank_3_env)) k
               = environ rank_3_env k.
Proof.
  apply (checkArgs_master_settings ascii_upper ascii_int_of_str
           std_logging_level [str "pytorch-dist"] (args_of "10.0.0.1" "29500")
           rank_3_env
           (snd (checkArgs ascii_upper ascii_int_of_str std_logging_level
                   [str "pytorch-dist"] (args_of "10.0.0.1" "29500")
                   rank_3_env))
           tt).
  reflexivity.
Defined.

Lemma checkArgs_twice_witness :
  exists s2 level global_rank addr port,
    checkArgs ascii_upper ascii_int_of_str std_logging_level
      [str "pytorch-dist"] (args_of "10.0.0.1" "29500")
      (snd (checkArgs ascii_upper ascii_int_of_str std_logging_level
              [str "pytorch-dist"] (args_of "10.0.0.1" "29500") rank_3_env))
    = (CliRet tt, s2)
    /\ environ s2
       = environ
           (snd (checkArgs ascii_upper ascii_int_of_str std_logging_level
                   [str "pytorch-dist"] (args_of "10.0.0.1" "29500")
                   rank_3_env))
    /\ environ
         (snd (checkArgs ascii_upper ascii_int_of_str std_logging_level
                 [str "pytorch-dist"] (args_of "10.0.0.1" "29500")
                 rank_3_env))
         (str "MASTER_ADDR") = Some addr
    /\ environ
         (snd (checkArgs ascii_upper ascii_int_of_str std_logging_level
                 [str "pytorch-dist"] (args_of "10.0.0.1" "29500")
                 rank_3_env))
         (str "MASTER_PORT") = Some port
    /\ cli_trace s2
       = cli_trace
           (snd (checkArgs ascii_upper ascii_int_of_str std_logging_level
                   [str "pytorch-dist"] (args_of "10.0.0.1" "29500")
                   rank_3_env))
         ++ [BasicConfig level global_rank;
             CliLogInfo (msg_using_master_addr addr);
             CliLogInfo (msg_using_master_port port)].
Proof.
  apply (checkArgs_twice ascii_upper ascii_int_of_str std_logging_level
           [str "pytorch-dist"] (args_of "10.0.0.1" "29500") rank_3_env
           (snd (checkArgs ascii_upper ascii_int_of_str std_logging_level
                   [str "pytorch-dist"] (args_of "10.0.0.1" "29500")
                   rank_3_env))
           tt).
  reflexivity.
Defined.

Example checkArgs_command_line_wins :
  let r := checkArgs ascii_upper ascii_int_of_str std_logging_level
             [str "pytorch-dist"] (args_of "10.0.0.1" "29500")
             rank_3_env in
  fst r = CliRet tt
  /\ environ (snd r) (str "MASTER_ADDR") = Some (str "10.0.0.1")
  /\ environ (snd r) (str "MASTER_PORT") = Some (str "29500")
  /\ cli_trace (snd r)
     = [BasicConfig 40 3;
        CliLogWarning (msg_master_ip_differs (str "10.0.0.1") (str "10.0.0.2"))].
Proof. repeat split. Qed.

Example parsesize_unit_after_unit :
  fst (parsesize ascii_isnumeric ascii_int_of_str (IpStr (str "1KG"))
         (cli_start []))
  = CliRaise (IntValueError (str "1K")).
Proof. reflexivity. Qed.
